(** * AECyberTV match reminders: the scheduling core of
      [aecybertv_match_reminders.py], embedded and verified.

    The worker pulls today's fixtures, plans reminders 60 and 15 minutes
    before kick-off and at kick-off, reserves one dedupe key per reminder
    in [SCHEDULED_KEYS] and hands the job to the job queue.  The module
    globals, the job queue, the bot's outgoing messages and the log are
    fields of an explicit [state]; the clock, the HTTP provider and the
    messaging transport are oracles of an environment [Env], asked at a
    running interaction counter so that every answer may change over
    time. *)

From Stdlib Require Import ZArith String Ascii List Lia Bool.
From Stdlib Require Import DecimalString DecimalPos DecimalZ.
From stdpp Require Import base gmap sets list strings.

Local Open Scope Z_scope.

(** ** JSON values as Python sees them after [r.json()] *)

(** A dict is kept as the list of its items in insertion order (Python
    dicts iterate in that order); a lookup takes the first item with the
    key.  Numbers are the integers the provider sends for ids and years. *)
#[warnings="-register-all"]
Inductive json : Type :=
  | JNull
  | JBool (b : bool)
  | JNum (n : Z)
  | JStr (s : string)
  | JList (l : list json)
  | JObj (kvs : list (string * json)).

(** The exceptions the code can meet; every [except Exception] handler
    treats them alike. *)
Inductive exn : Type :=
  | KeyError | TypeError | AttributeError | ValueError | IndexError
  | HTTPError | TelegramError.

Inductive outcome (A : Type) : Type :=
  | Ok (a : A)
  | Raise (e : exn).
Arguments Ok {A} a.
Arguments Raise {A} e.

Definition obind {A B} (x : outcome A) (f : A -> outcome B) : outcome B :=
  match x with Ok a => f a | Raise e => Raise e end.

Fixpoint assoc (k : string) (kvs : list (string * json)) : option json :=
  match kvs with
  | [] => None
  | (k', v) :: rest => if String.eqb k k' then Some v else assoc k rest
  end.

(** [v[k]] with a string key: only a dict answers, and only for a key it
    holds. *)
Definition getitem (v : json) (k : string) : outcome json :=
  match v with
  | JObj kvs => match assoc k kvs with Some x => Ok x | None => Raise KeyError end
  | _ => Raise TypeError
  end.

(** [v.get(k, default)]: an attribute of dicts only. *)
Definition dict_get (v : json) (k : string) (default : json) : outcome json :=
  match v with
  | JObj kvs => Ok (match assoc k kvs with Some x => x | None => default end)
  | _ => Raise AttributeError
  end.

(** Python truth value. *)
Definition truthy (v : json) : bool :=
  match v with
  | JNull => false
  | JBool b => b
  | JNum n => negb (n =? 0)
  | JStr s => negb (String.eqb s EmptyString)
  | JList l => match l with [] => false | _ => true end
  | JObj kvs => match kvs with [] => false | _ => true end
  end.

(** [a or b]. *)
Definition py_or (a b : json) : json := if truthy a then a else b.

Definition chars (s : string) : list json :=
  map (fun c => JStr (String c EmptyString)) (list_ascii_of_string s).

(** [for x in v]: a list gives its elements, a dict its keys, a string its
    characters (one per byte of the text here); anything else is not
    iterable. *)
Definition py_iter (v : json) : outcome (list json) :=
  match v with
  | JList l => Ok l
  | JObj kvs => Ok (map (fun kv => JStr (fst kv)) kvs)
  | JStr s => Ok (chars s)
  | _ => Raise TypeError
  end.

(** [v[-1]]. *)
Definition subscript_last (v : json) : outcome json :=
  match v with
  | JList l => match List.last (map Some l) None with
               | Some x => Ok x
               | None => Raise IndexError
               end
  | JStr s => match List.last (map Some (chars s)) None with
              | Some x => Ok x
              | None => Raise IndexError
              end
  | JObj _ => Raise KeyError
  | _ => Raise TypeError
  end.

(** ** Strings *)

(** [str(n)] for an [int]. *)
Definition str_int (n : Z) : string := NilZero.string_of_int (Z.to_int n).

(** [s.replace("Z", "+00:00")]. *)
Fixpoint replace_Z (s : string) : string :=
  match s with
  | EmptyString => EmptyString
  | String c rest =>
      if Ascii.eqb c "Z"%char
      then String.append "+00:00" (replace_Z rest)
      else String c (replace_Z rest)
  end.

(** ** Dates and times

    Every [datetime] the code handles carries the zone [TZ]
    (Asia/Dubai): [datetime.now(TZ)] and the result of [.astimezone(TZ)].
    Python compares two such values, subtracts a [timedelta] and takes
    [.date()] and [.year] on the wall-clock reading, so a [datetime] is
    the number of microseconds of Dubai wall-clock time since 1970-01-01
    00:00, and a [date] the number of days. *)

Definition datetime := Z.
Definition date := Z.

Definition MICROS_PER_MINUTE : Z := 60000000.
Definition MICROS_PER_DAY : Z := 86400000000.

(** [timedelta(minutes=m)]. *)
Definition timedelta_minutes (m : Z) : Z := m * MICROS_PER_MINUTE.

(** [dt.date()]. *)
Definition date_of (dt : datetime) : date := dt / MICROS_PER_DAY.

(** Year of a day number (proleptic Gregorian calendar). *)
Definition year_of_date (d : date) : Z :=
  let z := d + 719468 in
  let era := z / 146097 in
  let doe := z - era * 146097 in
  let yoe := (doe - doe / 1460 + doe / 36524 - doe / 146096) / 365 in
  let doy := doe - (365 * yoe + yoe / 4 - yoe / 100) in
  let mp := (5 * doy + 2) / 153 in
  let m := if mp <? 10 then mp + 3 else mp - 9 in
  yoe + era * 400 + (if m <=? 2 then 1 else 0).

(** [dt.year]. *)
Definition year_of (dt : datetime) : Z := year_of_date (date_of dt).

(** ** Configuration *)

Definition COUNTRIES : list string :=
  ["Spain"; "England"; "Italy"; "France"; "Saudi Arabia"; "UAE"]%string.

Definition REMINDER_OFFSETS : list Z := [60; 15; 0].

(** ** Jobs, messages, log lines *)

(** The label of a reminder: the three Arabic captions of the source for
    60, 15 and 0 minutes, and the fallback ["-{mins}m"]. *)
Inductive label : Type :=
  | LabelHourBefore
  | LabelQuarterBefore
  | LabelKickoff
  | LabelMinus (mins : Z).

Definition label_of (mins : Z) : label :=
  if mins =? 60 then LabelHourBefore
  else if mins =? 15 then LabelQuarterBefore
  else if mins =? 0 then LabelKickoff
  else LabelMinus mins.

(** One call of [ctx.job_queue.run_once(send_reminder_job, when, data, name)]. *)
Record job : Type := {
  job_when : datetime;
  job_home : json;
  job_away : json;
  job_ko : datetime;
  job_league : json;
  job_label : label;
  job_fixture_id : json;
  job_offset : Z;
  job_name : string
}.

(** The text of an outgoing message, kept structured: the reminder built
    by [send_reminder_job] and the digest line of [pull_and_schedule]
    with its country count and job count. *)
Inductive message : Type :=
  | ReminderMsg (l : label) (home away : json) (ko : datetime) (league : json)
  | DigestMsg (countries_touched total_jobs : Z).

(** One call of [context.bot.send_message]: destination, text, and
    whether the transport accepted it. *)
Record send_attempt : Type := {
  sent_chat : Z;
  sent_text : message;
  sent_ok : bool
}.

Inductive log_line : Type :=
  | LogCached (n : nat) (country : string)
  | LogCacheFailed (country : string)
  | LogFetchFailed (country : string) (league_name : json)
  | LogReminderFailed (chat_id : Z)
  | LogDigestFailed (chat_id : Z).

(** One request to the provider, with its answer. *)
Inductive api_call : Type :=
  | CallLeagues (country : string) (answer : option json)
  | CallFixtures (league_id season : json) (day : date) (answer : option json).

(** ** The state *)

Record state : Type := {
  LEAGUES_CACHE : list (string * list json);
  SUBSCRIBERS : gset Z;
  SCHEDULED_KEYS : gset string;
  (** every [run_once] call for a reminder so far, oldest first *)
  job_queue : list job;
  (** every [send_message] call so far, oldest first *)
  outbox : list send_attempt;
  log : list log_line;
  api_calls : list api_call;
  (** the number of interactions with the outside so far *)
  ticks : nat
}.

Definition initial_state : state :=
  {| LEAGUES_CACHE := []; SUBSCRIBERS := ∅; SCHEDULED_KEYS := ∅;
     job_queue := []; outbox := []; log := []; api_calls := []; ticks := 0 |}.

(** ** The outside world *)

Record Env : Type := {
  (** [datetime.fromisoformat(s).astimezone(TZ)], [None] when it raises *)
  fromisoformat_tz : string -> option datetime;
  (** [str(v)] of a list or a dict *)
  container_repr : json -> string;
  (** [datetime.now(TZ)] at the given interaction *)
  clock : nat -> datetime;
  (** [api_get("/leagues", {country, current})], [None] when it raises *)
  api_leagues : nat -> string -> option json;
  (** [api_get("/fixtures", {date, league, season, timezone})] *)
  api_fixtures : nat -> json -> json -> date -> option json;
  (** [bot.send_message(chat_id, text)]: [false] when it raises *)
  send_message : nat -> Z -> message -> bool
}.

(** ** State and exception monad

    A raised exception keeps the state reached so far, as Python keeps
    the mutations made before the raise. *)

Definition M (A : Type) : Type := state -> outcome A * state.

Definition ret {A} (a : A) : M A := fun s => (Ok a, s).

Definition bind {A B} (m : M A) (f : A -> M B) : M B :=
  fun s => match m s with
           | (Ok a, s') => f a s'
           | (Raise e, s') => (Raise e, s')
           end.

Definition lift {A} (x : outcome A) : M A := fun s => (x, s).

(** [try: m  except Exception as e: ...] hands the outcome to the handler. *)
Definition try_ {A} (m : M A) : M (outcome A) :=
  fun s => let '(r, s') := m s in (Ok r, s').

Definition get_state : M state := fun s => (Ok s, s).

Declare Scope m_scope.
Delimit Scope m_scope with M.
Notation "x <- m ;; k" := (bind m (fun x => k))
  (at level 100, m at next level, right associativity) : m_scope.
Notation "m ;; k" := (bind m (fun _ => k))
  (at level 100, right associativity) : m_scope.
Local Open Scope m_scope.

(** [for x in l: acc = body(x, acc)]. *)
Fixpoint for_each {A B} (l : list A) (body : A -> B -> M B) (acc : B) : M B :=
  match l with
  | [] => ret acc
  | x :: rest => acc' <- body x acc ;; for_each rest body acc'
  end.

(** *** State updates *)

Definition tick (s : state) : state :=
  {| LEAGUES_CACHE := LEAGUES_CACHE s; SUBSCRIBERS := SUBSCRIBERS s;
     SCHEDULED_KEYS := SCHEDULED_KEYS s; job_queue := job_queue s;
     outbox := outbox s; log := log s; api_calls := api_calls s;
     ticks := S (ticks s) |}.

Definition add_key (k : string) (s : state) : state :=
  {| LEAGUES_CACHE := LEAGUES_CACHE s; SUBSCRIBERS := SUBSCRIBERS s;
     SCHEDULED_KEYS := {[k]} ∪ SCHEDULED_KEYS s; job_queue := job_queue s;
     outbox := outbox s; log := log s; api_calls := api_calls s;
     ticks := ticks s |}.

Definition add_job (j : job) (s : state) : state :=
  {| LEAGUES_CACHE := LEAGUES_CACHE s; SUBSCRIBERS := SUBSCRIBERS s;
     SCHEDULED_KEYS := SCHEDULED_KEYS s; job_queue := job_queue s ++ [j];
     outbox := outbox s; log := log s; api_calls := api_calls s;
     ticks := ticks s |}.

Definition add_sent (a : send_attempt) (s : state) : state :=
  {| LEAGUES_CACHE := LEAGUES_CACHE s; SUBSCRIBERS := SUBSCRIBERS s;
     SCHEDULED_KEYS := SCHEDULED_KEYS s; job_queue := job_queue s;
     outbox := outbox s ++ [a]; log := log s; api_calls := api_calls s;
     ticks := ticks s |}.

Definition add_log (l : log_line) (s : state) : state :=
  {| LEAGUES_CACHE := LEAGUES_CACHE s; SUBSCRIBERS := SUBSCRIBERS s;
     SCHEDULED_KEYS := SCHEDULED_KEYS s; job_queue := job_queue s;
     outbox := outbox s; log := log s ++ [l]; api_calls := api_calls s;
     ticks := ticks s |}.

Definition add_call (c : api_call) (s : state) : state :=
  {| LEAGUES_CACHE := LEAGUES_CACHE s; SUBSCRIBERS := SUBSCRIBERS s;
     SCHEDULED_KEYS := SCHEDULED_KEYS s; job_queue := job_queue s;
     outbox := outbox s; log := log s; api_calls := api_calls s ++ [c];
     ticks := ticks s |}.

Definition set_cache (c : list (string * list json)) (s : state) : state :=
  {| LEAGUES_CACHE := c; SUBSCRIBERS := SUBSCRIBERS s;
     SCHEDULED_KEYS := SCHEDULED_KEYS s; job_queue := job_queue s;
     outbox := outbox s; log := log s; api_calls := api_calls s;
     ticks := ticks s |}.

Definition set_subscribers (u : gset Z) (s : state) : state :=
  {| LEAGUES_CACHE := LEAGUES_CACHE s; SUBSCRIBERS := u;
     SCHEDULED_KEYS := SCHEDULED_KEYS s; job_queue := job_queue s;
     outbox := outbox s; log := log s; api_calls := api_calls s;
     ticks := ticks s |}.

Definition modify (f : state -> state) : M unit := fun s => (Ok tt, f s).

Section Worker.

Variable E : Env.

(** ** Interactions with the outside *)

(** [datetime.now(TZ)]. *)
Definition now : M datetime :=
  fun s => (Ok (clock E (ticks s)), tick s).

Definition http_leagues (country : string) : M json :=
  fun s =>
    let a := api_leagues E (ticks s) country in
    let s' := add_call (CallLeagues country a) (tick s) in
    match a with Some d => (Ok d, s') | None => (Raise HTTPError, s') end.

Definition http_fixtures (league_id season : json) (day : date) : M json :=
  fun s =>
    let a := api_fixtures E (ticks s) league_id season day in
    let s' := add_call (CallFixtures league_id season day a) (tick s) in
    match a with Some d => (Ok d, s') | None => (Raise HTTPError, s') end.

(** [await context.bot.send_message(chat_id=chat_id, text=msg)]. *)
Definition bot_send_message (chat_id : Z) (msg : message) : M unit :=
  fun s =>
    let ok := send_message E (ticks s) chat_id msg in
    let s' := add_sent {| sent_chat := chat_id; sent_text := msg; sent_ok := ok |}
                       (tick s) in
    if ok then (Ok tt, s') else (Raise TelegramError, s').

(** ** API *)

(** The comprehension [[x for x in ... if x.get("league")]]. *)
Fixpoint keep_with_league (xs : list json) : outcome (list json) :=
  match xs with
  | [] => Ok []
  | x :: rest =>
      obind (dict_get x "league" JNull) (fun l =>
      obind (keep_with_league rest) (fun kept =>
      Ok (if truthy l then x :: kept else kept)))
  end.

Definition get_current_leagues_for_country (country : string) : M (list json) :=
  data <- http_leagues country ;;
  response <- lift (dict_get data "response" (JList [])) ;;
  xs <- lift (py_iter response) ;;
  lift (keep_with_league xs).

Definition cache_has (c : string) (cache : list (string * list json)) : bool :=
  existsb (fun kv => String.eqb c (fst kv)) cache.

(** The body of [for c in COUNTRIES]. *)
Definition ensure_country (c : string) (_ : unit) : M unit :=
  s <- get_state ;;
  if cache_has c (LEAGUES_CACHE s) then ret tt
  else
    r <- try_ (get_current_leagues_for_country c) ;;
    match r with
    | Ok leagues =>
        modify (fun s => set_cache (LEAGUES_CACHE s ++ [(c, leagues)]) s) ;;
        modify (add_log (LogCached (length leagues) c))
    | Raise _ => modify (add_log (LogCacheFailed c))
    end.

Definition ensure_leagues_cache : M unit :=
  for_each COUNTRIES ensure_country tt.

Definition get_today_fixtures_for_league (league_id season : json) (day : date)
  : M json :=
  data <- http_fixtures league_id season day ;;
  lift (dict_get data "response" (JList [])).

(** ** Scheduling *)

(** [str(v)] as the f-string applies it. *)
Definition py_str (v : json) : string :=
  match v with
  | JNull => "None"
  | JBool true => "True"
  | JBool false => "False"
  | JNum n => str_int n
  | JStr s => s
  | _ => container_repr E v
  end.

Definition job_key (fixture_id : json) (offset_min : Z) : string :=
  String.append (py_str fixture_id) (String.append ":" (str_int offset_min)).

(** [datetime.fromisoformat(v.replace("Z", "+00:00")).astimezone(TZ)]:
    only a string has [replace]. *)
Definition parse_kickoff (v : json) : outcome datetime :=
  match v with
  | JStr iso =>
      match fromisoformat_tz E (replace_Z iso) with
      | Some ko => Ok ko
      | None => Raise ValueError
      end
  | _ => Raise AttributeError
  end.

Record fixture_fields : Type := {
  f_ko : datetime;
  f_home : json;
  f_away : json;
  f_league : json;
  f_id : json
}.

(** The [try] block of [schedule_reminders_for_fixture]. *)
Definition read_fixture (fx : json) : outcome fixture_fields :=
  obind (getitem fx "fixture") (fun fixture =>
  obind (getitem fixture "date") (fun iso =>
  obind (parse_kickoff iso) (fun ko =>
  obind (getitem fx "teams") (fun teams =>
  obind (getitem teams "home") (fun home_team =>
  obind (getitem home_team "name") (fun home =>
  obind (getitem fx "teams") (fun teams' =>
  obind (getitem teams' "away") (fun away_team =>
  obind (getitem away_team "name") (fun away =>
  obind (getitem fx "league") (fun league_obj =>
  obind (getitem league_obj "name") (fun league =>
  obind (getitem fx "fixture") (fun fixture' =>
  obind (getitem fixture' "id") (fun fixture_id =>
  Ok {| f_ko := ko; f_home := home; f_away := away;
        f_league := league; f_id := fixture_id |}))))))))))))).

Definition reminder_job (f : fixture_fields) (mins : Z) : job :=
  {| job_when := f_ko f - timedelta_minutes mins;
     job_home := f_home f; job_away := f_away f; job_ko := f_ko f;
     job_league := f_league f; job_label := label_of mins;
     job_fixture_id := f_id f; job_offset := mins;
     job_name := String.append "fx:" (job_key (f_id f) mins) |}.

(** The body of [for mins in REMINDER_OFFSETS]. *)
Definition offset_step (f : fixture_fields) (now_ : datetime)
    (mins : Z) (scheduled : Z) : M Z :=
  let when := f_ko f - timedelta_minutes mins in
  if when <=? now_ then ret scheduled
  else
    let k := job_key (f_id f) mins in
    s <- get_state ;;
    if bool_decide (k ∈ SCHEDULED_KEYS s) then ret scheduled
    else
      modify (add_key k) ;;
      modify (add_job (reminder_job f mins)) ;;
      ret (scheduled + 1).

Definition schedule_reminders_for_fixture (fx : json) : M Z :=
  match read_fixture fx with
  | Raise _ => ret 0
  | Ok f =>
      now_ <- now ;;
      if f_ko f <=? now_ then ret 0
      else for_each REMINDER_OFFSETS (offset_step f now_) 0
  end.

(** ** Worker task *)

(** The [try] of the fixture loop:
    [fx["fixture"]["date"]], then the conversion to [TZ]. *)
Definition fixture_kickoff (fx : json) : outcome datetime :=
  obind (getitem fx "fixture") (fun fixture =>
  obind (getitem fixture "date") parse_kickoff).

(** The body of [for fx in fixtures]. *)
Definition fixture_step (today : date) (fx : json) (total_jobs : Z) : M Z :=
  match fixture_kickoff fx with
  | Raise _ => ret total_jobs
  | Ok ko =>
      if negb (date_of ko =? today) then ret total_jobs
      else n <- schedule_reminders_for_fixture fx ;; ret (total_jobs + n)
  end.

(** [seasons[-1].get("year") or datetime.now(TZ).year]: the clock is read
    only when the entry has no usable year. *)
Definition pick_season (seasons : json) : M json :=
  latest <- lift (subscript_last seasons) ;;
  year <- lift (dict_get latest "year" JNull) ;;
  if truthy year then ret year
  else n <- now ;; ret (JNum (year_of n)).

(** The [try] around the fetch with its [except], and the loop over the
    fetched fixtures. *)
Definition fetch_and_plan (today : date) (country : string)
    (league league_id season : json) (total_jobs : Z) : M Z :=
  r <- try_ (get_today_fixtures_for_league league_id season today) ;;
  match r with
  | Raise _ =>
      name <- lift (dict_get league "name" JNull) ;;
      modify (add_log (LogFetchFailed country name)) ;;
      ret total_jobs
  | Ok fixtures =>
      fxs <- lift (py_iter fixtures) ;;
      for_each fxs (fixture_step today) total_jobs
  end.

(** The body of [for item in leagues]. *)
Definition league_step (today : date) (country : string)
    (item : json) (total_jobs : Z) : M Z :=
  league <- lift (dict_get item "league" (JObj [])) ;;
  seasons0 <- lift (dict_get item "seasons" JNull) ;;
  let seasons := py_or seasons0 (JList []) in
  if negb (truthy league) || negb (truthy seasons) then ret total_jobs
  else
    season <- pick_season seasons ;;
    league_id <- lift (dict_get league "id" JNull) ;;
    if negb (truthy league_id) then ret total_jobs
    else fetch_and_plan today country league league_id season total_jobs.

(** The body of [for country, leagues in LEAGUES_CACHE.items()]; the
    accumulator is [(countries_touched, total_jobs)]. *)
Definition country_step (today : date) (entry : string * list json)
    (acc : Z * Z) : M (Z * Z) :=
  let countries_touched := fst acc + 1 in
  total_jobs <- for_each (snd entry) (league_step today (fst entry)) (snd acc) ;;
  ret (countries_touched, total_jobs).

(** One attempt of a broadcast loop: [try: send  except: log.warning]. *)
Definition send_or_log (msg : message) (failed : Z -> log_line)
    (chat_id : Z) (_ : unit) : M unit :=
  r <- try_ (bot_send_message chat_id msg) ;;
  match r with
  | Ok _ => ret tt
  | Raise _ => modify (add_log (failed chat_id))
  end.

(** [for chat_id in list(SUBSCRIBERS)]: the set is listed once, when the
    loop starts. *)
Definition broadcast (msg : message) (failed : Z -> log_line) : M unit :=
  s <- get_state ;;
  for_each (elements (SUBSCRIBERS s)) (send_or_log msg failed) tt.

Definition send_reminder_job (d : job) : M unit :=
  broadcast (ReminderMsg (job_label d) (job_home d) (job_away d)
                         (job_ko d) (job_league d))
            LogReminderFailed.

(** The digest block that ends [pull_and_schedule]. *)
Definition send_digest (countries_touched total_jobs : Z) : M unit :=
  s <- get_state ;;
  if bool_decide (SUBSCRIBERS s ≠ ∅) && (0 <? total_jobs)
  then broadcast (DigestMsg countries_touched total_jobs) LogDigestFailed
  else ret tt.

(** [pull_and_schedule] up to the digest; the result is
    [(countries_touched, total_jobs)]. *)
Definition pull_and_count : M (Z * Z) :=
  ensure_leagues_cache ;;
  n <- now ;;
  let today := date_of n in
  s <- get_state ;;
  for_each (LEAGUES_CACHE s) (country_step today) (0, 0).

Definition pull_and_schedule : M unit :=
  counts <- pull_and_count ;;
  send_digest (fst counts) (snd counts).

(** ** Commands and triggers (the replies to the requesting chat are left
    out) *)

Definition liveon (chat_id : Z) : M unit :=
  modify (fun s => set_subscribers ({[chat_id]} ∪ SUBSCRIBERS s) s).

Definition liveoff (chat_id : Z) : M unit :=
  modify (fun s => set_subscribers (SUBSCRIBERS s ∖ {[chat_id]}) s).

Definition today_fixtures : M unit := pull_and_schedule.

(** What can happen to the worker: the boot pull, the daily pull, the
    [/today_fixtures] command, [/liveon], [/liveoff], and the firing of
    the [n]-th reminder job. *)
Inductive event : Type :=
  | BootPull
  | DailyPull
  | ManualPull
  | LiveOn (chat_id : Z)
  | LiveOff (chat_id : Z)
  | Fire (n : nat).

Definition handle (ev : event) : M unit :=
  match ev with
  | BootPull => pull_and_schedule
  | DailyPull => pull_and_schedule
  | ManualPull => today_fixtures
  | LiveOn c => liveon c
  | LiveOff c => liveoff c
  | Fire n =>
      s <- get_state ;;
      match job_queue s !! n with
      | Some d => send_reminder_job d
      | None => ret tt
      end
  end.

(** The framework logs an exception that escapes a handler or a job and
    carries on with the state as it is. *)
Definition run_events (evs : list event) (s : state) : state :=
  fold_left (fun s ev => snd (handle ev s)) evs s.

End Worker.

(** ** Notions used by the statements *)

(** The dedupe key a job was scheduled under. *)
Definition job_dedupe_key (E : Env) (j : job) : string :=
  job_key E (job_fixture_id j) (job_offset j).

(** What [offset_step] does once an offset is due and its key is free:
    [SCHEDULED_KEYS.add(k)], then [run_once]. *)
Definition reserve (E : Env) (f : fixture_fields) (mins : Z) (s : state) : state :=
  add_job (reminder_job E f mins) (add_key (job_key E (f_id f) mins) s).

Definition reserve_all (E : Env) (f : fixture_fields) (ms : list Z) (s : state)
  : state :=
  fold_left (fun s m => reserve E f m s) ms s.

(** The jobs of [s'] that [s] did not have yet. *)
Definition new_jobs (s s' : state) : list job :=
  drop (length (job_queue s)) (job_queue s').

Definition new_sent (s s' : state) : list send_attempt :=
  drop (length (outbox s)) (outbox s').

Definition new_calls (s s' : state) : list api_call :=
  drop (length (api_calls s)) (api_calls s').

Definition new_log (s s' : state) : list log_line :=
  drop (length (log s)) (log s').

(** The fields [schedule_reminders_for_fixture] reads, as paths into the
    record. *)
Definition REQUIRED_FIELDS : list (list string) :=
  [["fixture"; "date"]; ["teams"; "home"; "name"]; ["teams"; "away"; "name"];
   ["league"; "name"]; ["fixture"; "id"]]%string.

Fixpoint lookup_path (v : json) (path : list string) : option json :=
  match path with
  | [] => Some v
  | k :: rest =>
      match v with
      | JObj kvs =>
          match assoc k kvs with
          | Some x => lookup_path x rest
          | None => None
          end
      | _ => None
      end
  end.

(** A record that lacks one of the required fields. *)
Definition missing_field (fx : json) : Prop :=
  exists path, In path REQUIRED_FIELDS /\ lookup_path fx path = None.

(** Every reminder of [fx] that is still due after time [t] has its key
    in the ledger [L]. *)
Definition covered (E : Env) (L : gset string) (t : datetime) (fx : json) : Prop :=
  forall f m, read_fixture E fx = Ok f -> In m REMINDER_OFFSETS ->
    t < f_ko f - timedelta_minutes m -> job_key E (f_id f) m ∈ L.

(** The fixtures of a provider answer that fall on [today]. *)
Definition on_day (E : Env) (today : date) (fx : json) : bool :=
  match fixture_kickoff E fx with
  | Ok ko => date_of ko =? today
  | Raise _ => false
  end.

(** The ledger invariant: the jobs ever handed to the queue carry
    pairwise different dedupe keys, all of them recorded in
    [SCHEDULED_KEYS], and every key of [SCHEDULED_KEYS] has its job. *)
Definition ledger_ok (E : Env) (s : state) : Prop :=
  NoDup (map (job_dedupe_key E) (job_queue s))
  /\ (forall j, In j (job_queue s) -> job_dedupe_key E j ∈ SCHEDULED_KEYS s)
  /\ (forall k, k ∈ SCHEDULED_KEYS s ->
        exists j, In j (job_queue s) /\ job_dedupe_key E j = k).

(** Every run of [m] takes a state to one related to it by [R],
    whether it returns or raises. *)
Definition moves (R : state -> state -> Prop) {A} (m : M A) : Prop :=
  forall s, R s (snd (m s)).

(** What no step of the worker undoes: ledger keys stay, the job queue,
    the outbox, the log and the request history only grow at the end, the
    interaction counter does not go back. *)
Definition grows (s s' : state) : Prop :=
  SCHEDULED_KEYS s ⊆ SCHEDULED_KEYS s'
  /\ (ticks s <= ticks s')%nat
  /\ (exists l, job_queue s' = job_queue s ++ l)
  /\ (exists l, outbox s' = outbox s ++ l)
  /\ (exists l, log s' = log s ++ l)
  /\ (exists l, api_calls s' = api_calls s ++ l).

Definition keeps_ledger (E : Env) (s s' : state) : Prop :=
  ledger_ok E s -> ledger_ok E s'.

(** The calls of [send_message] a broadcast of [msg] makes when it starts
    at interaction [t] with the chats listed as [chats]: one per chat, in
    turn, each with the transport's answer. *)
Fixpoint attempts (E : Env) (msg : message) (t : nat) (chats : list Z)
  : list send_attempt :=
  match chats with
  | [] => []
  | c :: rest =>
      {| sent_chat := c; sent_text := msg; sent_ok := send_message E t c msg |}
      :: attempts E msg (S t) rest
  end.

(** Partial correctness: from a state with [P], a run of [m] that
    returns [a] ends in a state with [Q a]. *)
Definition hoare {A} (P : state -> Prop) (m : M A) (Q : A -> state -> Prop)
  : Prop :=
  forall s, P s ->
    match m s with
    | (Ok a, s') => Q a s'
    | (Raise _, _) => True
    end.

(** The fixtures requests among some calls: league, season and day. *)
Definition fixtures_requests (calls : list api_call) : list (json * json * date) :=
  flat_map (fun c => match c with
                     | CallFixtures i y d _ => [(i, y, d)]
                     | CallLeagues _ _ => []
                     end) calls.

(** The year a season entry carries. *)
Definition season_year (entry : json) : option Z :=
  match dict_get entry "year" JNull with
  | Ok (JNum y) => Some y
  | _ => None
  end.

(** In the words of the specification: the latest (maximum) season year
    among a league's seasons. *)
Definition latest_season_year (seasons : list json) : option Z :=
  fold_right (fun entry best =>
                match season_year entry, best with
                | Some y, Some b => Some (Z.max y b)
                | Some y, None => Some y
                | None, _ => best
                end) None seasons.

Definition is_dict (v : json) : bool :=
  match v with JObj _ => true | _ => false end.




(** The fixtures of a served request have been planned: for each one
    that falls on the requested day there is an interaction [t], not
    before [t0], such that every reminder of the fixture still due at the
    clock reading of [t] has its key in the ledger. *)
Definition call_planned (E : Env) (t0 : nat) (s : state) (c : api_call) : Prop :=
  match c with
  | CallFixtures _ _ d (Some data) =>
      forall resp fxs fx,
        dict_get data "response" (JList []) = Ok resp ->
        py_iter resp = Ok fxs -> In fx fxs -> on_day E d fx = true ->
        exists t, (t0 <= t <= ticks s)%nat
                  /\ covered E (SCHEDULED_KEYS s) (clock E t) fx
  | _ => True
  end.

Definition planned_from (E : Env) (n t0 : nat) (s : state) : Prop :=
  Forall (call_planned E t0 s) (drop n (api_calls s)).

(** [m] never raises. *)
Definition returns {A} (m : M A) : Prop :=
  forall s, exists a, fst (m s) = Ok a.

(** [s2] comes after a run that ended in [s1]: it has the keys of [s1],
    and its interaction counter is not behind. *)
Definition later (s1 s2 : state) : Prop :=
  SCHEDULED_KEYS s1 ⊆ SCHEDULED_KEYS s2 /\ (ticks s1 <= ticks s2)%nat.

(** A step that schedules nothing and sends nothing. *)
Definition idle (s s' : state) : Prop :=
  SCHEDULED_KEYS s' = SCHEDULED_KEYS s
  /\ job_queue s' = job_queue s
  /\ LEAGUES_CACHE s' = LEAGUES_CACHE s
  /\ SUBSCRIBERS s' = SUBSCRIBERS s
  /\ outbox s' = outbox s
  /\ (ticks s <= ticks s')%nat.

Definition same_outcome {A} (V : A -> A -> Prop) (r1 r2 : outcome A) : Prop :=
  match r1, r2 with
  | Ok a1, Ok a2 => V a1 a2
  | Raise _, Raise _ => True
  | _, _ => False
  end.

(** A run of [m2] that comes after a run of [m1] is idle and ends the way
    the run of [m1] ended, with results related by [V]. *)
Definition replays {A} (V : A -> A -> Prop) (m1 m2 : M A) : Prop :=
  forall s s2, later (snd (m1 s)) s2 ->
    idle s2 (snd (m2 s2)) /\ same_outcome V (fst (m1 s)) (fst (m2 s2)).

(** C7 in the words of the claim: the season of every fixtures request
    made for a league record with at least one season is the latest
    season year of the record. *)
Definition requests_latest_season (E : Env) (today : date) (country : string)
    (item : json) (total_jobs : Z) (s : state) : Prop :=
  forall seasons, dict_get item "seasons" JNull = Ok (JList seasons) ->
    seasons <> [] ->
    forall i y d,
      In (i, y, d)
         (fixtures_requests
            (new_calls s (snd (league_step E today country item total_jobs s)))) ->
      Some y = option_map JNum (latest_season_year seasons).

(** Relations between the state before and after a step, for what the
    step leaves alone. *)
Definition same_jobs (s s' : state) : Prop := job_queue s' = job_queue s.

Definition same_cache (s s' : state) : Prop :=
  LEAGUES_CACHE s' = LEAGUES_CACHE s.

Definition unsent (s s' : state) : Prop :=
  outbox s' = outbox s /\ SUBSCRIBERS s' = SUBSCRIBERS s.

(** [n] counts the jobs queued since [s0], starting from [n0]. *)
Definition counted (n0 : Z) (s0 : state) (n : Z) (s : state) : Prop :=
  n - n0 = Z.of_nat (length (job_queue s)) - Z.of_nat (length (job_queue s0)).

(** The jobs queued between two states all kick off on [today]. *)
Definition dated (today : date) (s s' : state) : Prop :=
  exists l, job_queue s' = job_queue s ++ l
            /\ Forall (fun j => date_of (job_ko j) = today) l.

(** A step keeps this: from interaction [t0] on, the fixtures of every
    served request after the [n]-th have been planned. *)
Definition kept (E : Env) (n t0 : nat) (s s' : state) : Prop :=
  (t0 <= ticks s)%nat /\ planned_from E n t0 s ->
  (t0 <= ticks s')%nat /\ planned_from E n t0 s'.

(** A country is settled in a cache when it is cached or its leagues
    cannot be fetched. *)
Definition settled (E : Env) (cs : list string)
    (cache : list (string * list json)) : Prop :=
  forall c, In c cs ->
    cache_has c cache = true
    \/ exists e, forall s, fst (get_current_leagues_for_country E c s) = Raise e.

(** ** A concrete provider, clock and transport

    Timestamps in the provider's format, [YYYY-MM-DDTHH:MM:SS+HH:MM],
    read as Python's [fromisoformat] reads them and moved to Dubai time
    (UTC+4). *)
Module Scenario.

Definition digit (c : ascii) : option Z :=
  let n := Z.of_nat (nat_of_ascii c) - 48 in
  if (0 <=? n) && (n <=? 9) then Some n else None.

Fixpoint number (cs : list ascii) (acc : Z) : option Z :=
  match cs with
  | [] => Some acc
  | c :: rest =>
      match digit c with
      | Some d => number rest (10 * acc + d)
      | None => None
      end
  end.

(** Day number of a calendar date (proleptic Gregorian calendar). *)
Definition days_from_civil (y m d : Z) : Z :=
  let y' := if m <=? 2 then y - 1 else y in
  let era := y' / 400 in
  let yoe := y' - era * 400 in
  let doy := (153 * (if 2 <? m then m - 3 else m + 9) + 2) / 5 + d - 1 in
  let doe := yoe * 365 + yoe / 4 - yoe / 100 + doy in
  era * 146097 + doe - 719468.

Definition wall (y mo d h mi s : Z) : datetime :=
  ((days_from_civil y mo d * 86400 + h * 3600 + mi * 60 + s) * 1000000)%Z.

Definition iso_to_dubai (s : string) : option datetime :=
  match list_ascii_of_string s with
  | [y1; y2; y3; y4; d1; m1; m2; d2; a1; a2; t; h1; h2; c1; i1; i2; c2;
     s1; s2; sg; o1; o2; c3; p1; p2] =>
      if Ascii.eqb d1 "-" && Ascii.eqb d2 "-" && Ascii.eqb t "T"
         && Ascii.eqb c1 ":" && Ascii.eqb c2 ":" && Ascii.eqb c3 ":"
         && (Ascii.eqb sg "+" || Ascii.eqb sg "-")
      then
        match number [y1; y2; y3; y4] 0, number [m1; m2] 0, number [a1; a2] 0,
              number [h1; h2] 0, number [i1; i2] 0, number [s1; s2] 0,
              number [o1; o2] 0, number [p1; p2] 0 with
        | Some y, Some mo, Some d, Some h, Some mi, Some sec, Some oh, Some om =>
            let off := (oh * 3600 + om * 60) * (if Ascii.eqb sg "+" then 1 else -1) in
            Some (wall y mo d h mi sec + (4 * 3600 - off) * 1000000)
        | _, _, _, _, _, _, _, _ => None
        end
      else None
  | _ => None
  end.

Definition team (name : string) : json := JObj [("name"%string, JStr name)].

(** A fixture record as the provider sends it. *)
Definition fixture (id : Z) (iso home away league : string) : json :=
  JObj [("fixture"%string, JObj [("id"%string, JNum id); ("date"%string, JStr iso)]);
        ("league"%string, JObj [("name"%string, JStr league)]);
        ("teams"%string, JObj [("home"%string, team home); ("away"%string, team away)])].

(** A league record of the cache. *)
Definition league (id : Z) (name : string) (years : list Z) : json :=
  JObj [("league"%string, JObj [("id"%string, JNum id); ("name"%string, JStr name)]);
        ("seasons"%string, JList (map (fun y => JObj [("year"%string, JNum y)]) years))].

(** A world whose clock stands still at [t], whose provider answers by
    the two given tables, and whose transport fails for the chats in
    [down]. *)
Definition env (t : datetime)
    (leagues : string -> option json)
    (fixtures : json -> json -> date -> option json)
    (down : list Z) : Env :=
  {| fromisoformat_tz := iso_to_dubai;
     container_repr := fun _ => EmptyString;
     clock := fun _ => t;
     api_leagues := fun _ => leagues;
     api_fixtures := fun _ => fixtures;
     send_message := fun _ chat _ => negb (existsb (Z.eqb chat) down) |}.

(** Sunday 26 October 2025, 13:50 in Dubai. *)
Definition ten_to_two : datetime := wall 2025 10 26 13 50 0.

Definition today : date := date_of ten_to_two.

(** Kick-off at 14:00 Dubai time (10:00 UTC). *)
Definition clasico : json :=
  fixture 7 "2025-10-26T10:00:00Z" "Real Madrid" "Barcelona" "La Liga".

(** Kick-off at 23:30 Dubai time. *)
Definition late_game : json :=
  fixture 8 "2025-10-26T19:30:00+00:00" "Sevilla" "Betis" "La Liga".

(** Fetched for the 26th, but kicking off at 00:30 on the 27th in Dubai. *)
Definition after_midnight : json :=
  fixture 9 "2025-10-26T20:30:00+00:00" "Getafe" "Girona" "La Liga".

(** A record without its teams. *)
Definition no_teams : json :=
  JObj [("fixture"%string,
         JObj [("id"%string, JNum 10);
               ("date"%string, JStr "2025-10-26T19:30:00+00:00")]);
        ("league"%string, JObj [("name"%string, JStr "La Liga")])].

Definition answer (fxs : list json) : json :=
  JObj [("response"%string, JList fxs)].

(** The leagues of Spain and England are served; the requests for the
    other countries fail. *)
Definition leagues_table (country : string) : option json :=
  if String.eqb country "Spain"
  then Some (answer [league 140 "La Liga" [2024; 2025]])
  else if String.eqb country "England"
  then Some (answer [league 39 "Premier League" [2025];
                     league 40 "Championship" [2025]])
  else None.

(** The Premier League request fails; La Liga and the Championship are
    served. *)
Definition fixtures_table (league_id season : json) (day : date) : option json :=
  match league_id with
  | JNum n =>
      if n =? 140
      then Some (answer [clasico; no_teams; after_midnight; late_game])
      else if n =? 40
      then Some (answer [fixture 11 "2025-10-26T16:00:00Z" "Leeds" "Hull"
                                 "Championship"])
      else None
  | _ => None
  end.

(** The world at 13:50, with chat 2 unreachable. *)
Definition world : Env := env ten_to_two leagues_table fixtures_table [2].

(** What [read_fixture] finds in [clasico]. *)
Definition clasico_fields : fixture_fields :=
  {| f_ko := wall 2025 10 26 14 0 0;
     f_home := JStr "Real Madrid"; f_away := JStr "Barcelona";
     f_league := JStr "La Liga"; f_id := JNum 7 |}.

(** A league record whose seasons are listed latest first. *)
Definition latest_first : json := league 140 "La Liga" [2025; 2024].

(** A league record whose last season entry carries no year. *)
Definition yearless_last : json :=
  JObj [("league"%string,
         JObj [("id"%string, JNum 140); ("name"%string, JStr "La Liga")]);
        ("seasons"%string,
         JList [JObj [("year"%string, JNum 2024)];
                JObj [("current"%string, JBool true)]])].


(** Two chats have subscribed. *)
Definition subscribed : state :=
  run_events world [LiveOn 1; LiveOn 2] initial_state.

Definition boot_events : list event := [LiveOn 1; LiveOn 2; BootPull].

Definition after_boot : state := run_events world boot_events initial_state.

End Scenario.

(** ** Notions for the league cache, the requests and the queued jobs *)

(** The test of the comprehension in [get_current_leagues_for_country]:
    [x.get("league")] is there and true. *)
Definition has_league (x : json) : bool :=
  match dict_get x "league" JNull with
  | Ok l => truthy l
  | Raise _ => false
  end.

(** The countries of the leagues requests among some calls. *)
Definition leagues_requests (calls : list api_call) : list string :=
  flat_map (fun c => match c with
                     | CallLeagues country _ => [country]
                     | CallFixtures _ _ _ _ => []
                     end) calls.

(** What the cache holds at any time: one entry per country, for
    countries of [COUNTRIES] only, and league records that passed the
    test of the comprehension. *)
Definition cache_ok (cache : list (string * list json)) : Prop :=
  NoDup (map fst cache)
  /\ Forall (fun entry => In (fst entry) COUNTRIES
                          /\ Forall (fun x => has_league x = true) (snd entry))
            cache.

(** The number of league records in a cache. *)
Definition cached_leagues (cache : list (string * list json)) : nat :=
  length (concat (map snd cache)).

(** What [schedule_reminders_for_fixture] makes of a job: one of the
    three offsets, the firing time that many minutes before kick-off, the
    caption of the offset, and the name ["fx:{fixture_id}:{mins}"]. *)
Definition job_ok (E : Env) (j : job) : Prop :=
  In (job_offset j) REMINDER_OFFSETS
  /\ job_when j = job_ko j - timedelta_minutes (job_offset j)
  /\ job_label j = label_of (job_offset j)
  /\ job_name j = String.append "fx:" (job_dedupe_key E j).

(** The live commands of a trace that concern chat [c], the last one
    deciding: [true] when the chat ends up subscribed. *)
Fixpoint subscribed_after (c : Z) (evs : list event) (before : bool) : bool :=
  match evs with
  | [] => before
  | LiveOn c' :: rest =>
      subscribed_after c rest (if c' =? c then true else before)
  | LiveOff c' :: rest =>
      subscribed_after c rest (if c' =? c then false else before)
  | _ :: rest => subscribed_after c rest before
  end.

Definition is_liveon (c : Z) (ev : event) : bool :=
  match ev with LiveOn c' => c' =? c | _ => false end.

(** A step that leaves the cache alone and asks for no leagues. *)
Definition quiet (s s' : state) : Prop :=
  LEAGUES_CACHE s' = LEAGUES_CACHE s
  /\ exists calls, api_calls s' = api_calls s ++ calls
                   /\ leagues_requests calls = [].

(** A step that only adds entries to the cache, keeps it in order, and
    asks for the leagues of no country that was cached. *)
Definition fills (s s' : state) : Prop :=
  (exists added, LEAGUES_CACHE s' = LEAGUES_CACHE s ++ added)
  /\ (cache_ok (LEAGUES_CACHE s) -> cache_ok (LEAGUES_CACHE s'))
  /\ exists calls, api_calls s' = api_calls s ++ calls
                   /\ forall c, cache_has c (LEAGUES_CACHE s) = true ->
                                ~ In c (leagues_requests calls).

(** A step after which chat [c] is still not subscribed and which tries
    no delivery to it. *)
Definition spares (c : Z) (s s' : state) : Prop :=
  c ∉ SUBSCRIBERS s ->
  (c ∉ SUBSCRIBERS s')
  /\ exists l, outbox s' = outbox s ++ l
               /\ Forall (fun a => sent_chat a <> c) l.

(** The character [x] does not occur in the text. *)
Fixpoint char_free (x : ascii) (s : string) : bool :=
  match s with
  | EmptyString => true
  | String c rest => negb (Ascii.eqb c x) && char_free x rest
  end.

(** A step that asks for no leagues and makes at most [n] fixtures
    requests, each with [P]. *)
Definition asks (P : json * json * date -> Prop) (n : nat) (s s' : state) : Prop :=
  exists calls, api_calls s' = api_calls s ++ calls
                /\ leagues_requests calls = []
                /\ (length (fixtures_requests calls) <= n)%nat
                /\ Forall P (fixtures_requests calls).

(** The league a cycle asks the fixtures of, for a league record of the
    cache: the id of its league, when league, seasons and id are there
    and true. *)
Definition polled (item : json) : list json :=
  match dict_get item "league" (JObj []), dict_get item "seasons" JNull with
  | Ok league, Ok seasons0 =>
      if truthy league && truthy (py_or seasons0 (JList []))
      then match dict_get league "id" JNull with
           | Ok league_id => if truthy league_id then [league_id] else []
           | Raise _ => []
           end
      else []
  | _, _ => []
  end.

(** The leagues of the fixtures requests among some calls. *)
Definition leagues_asked (calls : list api_call) : list json :=
  map (fun r => fst (fst r)) (fixtures_requests calls).

(** Whatever is asked for the league, the provider serves a dict whose
    ["response"] cannot be iterated. *)
Definition serves_unlistable (E : Env) (league_id : json) : Prop :=
  forall t season day, exists data resp e,
    api_fixtures E t league_id season day = Some data
    /\ dict_get data "response" (JList []) = Ok resp
    /\ py_iter resp = Raise e.

(** ** The display of a kick-off time *)

Definition MICROS_PER_HOUR : Z := 3600000000.

(** [dt.hour] and [dt.minute]. *)
Definition hour_of (dt : datetime) : Z := (dt mod MICROS_PER_DAY) / MICROS_PER_HOUR.

Definition minute_of (dt : datetime) : Z :=
  (dt mod MICROS_PER_HOUR) / MICROS_PER_MINUTE.

(** A number below 100 on two digits, as [%I] and [%M] print it. *)
Definition two_digits (n : Z) : string :=
  if n <? 10 then String "0" (str_int n) else str_int n.

(** The hour of the 12-hour clock, 1 to 12. *)
Definition hour12 (h : Z) : Z := if h mod 12 =? 0 then 12 else h mod 12.

(** [strftime('%I:%M %p')] for the hour [h] and the minute [m], in the
    C locale the process runs in. *)
Definition strftime_I_M_p (h m : Z) : string :=
  String.append (two_digits (hour12 h))
    (String.append ":"
       (String.append (two_digits m)
          (String.append " " (if h <? 12 then "AM" else "PM")))).

(** [s.lstrip('0')]. *)
Fixpoint lstrip_zeros (s : string) : string :=
  match s with
  | EmptyString => EmptyString
  | String c rest => if Ascii.eqb c "0" then lstrip_zeros rest else s
  end.

(** [ko.strftime('%I:%M %p').lstrip('0')], the time as the reminder and
    the /today digest show it. *)
Definition kickoff_text (ko : datetime) : string :=
  lstrip_zeros (strftime_I_M_p (hour_of ko) (minute_of ko)).

(** ** The /today digest *)

(** The lines of the digest: its title, the header of a country, and one
    line per fixture with kick-off, teams and league name. *)
Inductive digest_line : Type :=
  | LineTitle
  | LineCountry (country : string)
  | LineFixture (ko : datetime) (home away league_name : json).

(** The texts the handlers pass to [update.message.reply_text]. *)
Inductive reply : Type :=
  | ReplyHelp
  | ReplyLiveOn
  | ReplyLiveOff
  | ReplyAutodayOn
  | ReplyAutodayOff
  | ReplyNoFixtures
  | ReplyLines (lines : list digest_line)
  | ReplyScheduled.

(** The variables the loops of [today] carry. *)
Record today_vars : Type := {
  lines : list digest_line;
  shown : Z;
  country_shown : bool
}.

Section Today.

Variable E : Env.

(** [fx["teams"][side]["name"]]. *)
Definition team_name (fx : json) (side : string) : outcome json :=
  obind (getitem fx "teams") (fun teams =>
  obind (getitem teams side) (fun team =>
  getitem team "name")).

(** The body of [for fx in fixtures] in [today]. *)
Definition today_fixture_step (today_d : date) (country : string)
    (league fx : json) (v : today_vars) : M today_vars :=
  match fixture_kickoff E fx with
  | Raise _ => ret v
  | Ok ko =>
      if negb (date_of ko =? today_d) then ret v
      else
        let lines1 := if country_shown v then lines v
                      else lines v ++ [LineCountry country] in
        home <- lift (team_name fx "home") ;;
        away <- lift (team_name fx "away") ;;
        name <- lift (dict_get league "name" (JStr "")) ;;
        ret {| lines := lines1 ++ [LineFixture ko home away name];
               shown := shown v + 1;
               country_shown := true |}
  end.

(** The body of [for item in leagues] in [today]: no test of the league
    id, and a failed fetch is passed over without a log line. *)
Definition today_league_step (today_d : date) (country : string)
    (item : json) (v : today_vars) : M today_vars :=
  league <- lift (dict_get item "league" (JObj [])) ;;
  seasons0 <- lift (dict_get item "seasons" JNull) ;;
  let seasons := py_or seasons0 (JList []) in
  if negb (truthy league) || negb (truthy seasons) then ret v
  else
    season <- pick_season E seasons ;;
    league_id <- lift (dict_get league "id" JNull) ;;
    r <- try_ (get_today_fixtures_for_league E league_id season today_d) ;;
    match r with
    | Raise _ => ret v
    | Ok fixtures =>
        fxs <- lift (py_iter fixtures) ;;
        for_each fxs (today_fixture_step today_d country league) v
    end.

(** The body of [for country, leagues in LEAGUES_CACHE.items()] in
    [today]. *)
Definition today_country_step (today_d : date) (entry : string * list json)
    (v : today_vars) : M today_vars :=
  for_each (snd entry) (today_league_step today_d (fst entry))
           {| lines := lines v; shown := shown v; country_shown := false |}.

(** [today] up to its reply: the result is the text it passes to
    [reply_text]. *)
Definition today_digest : M reply :=
  ensure_leagues_cache E ;;
  n <- now E ;;
  let today_d := date_of n in
  s <- get_state ;;
  v <- for_each (LEAGUES_CACHE s) (today_country_step today_d)
                {| lines := [LineTitle]; shown := 0; country_shown := false |} ;;
  ret (if shown v =? 0 then ReplyNoFixtures else ReplyLines (lines v)).

End Today.

(** *** Notions for the digest *)

(** The fixture lines of a country in the digest: the header of the
    country, then its lines. *)
Definition block_lines (block : string * list digest_line) : list digest_line :=
  LineCountry (fst block) :: snd block.

Definition is_fixture_line (today_d : date) (l : digest_line) : Prop :=
  match l with
  | LineFixture ko _ _ _ => date_of ko = today_d
  | _ => False
  end.

(** A digest made of a title and of blocks, one per country shown, each
    with at least one fixture line and all of them for [today_d]. *)
Definition digest_of (today_d : date) (blocks : list (string * list digest_line))
    (ls : list digest_line) : Prop :=
  ls = LineTitle :: flat_map block_lines blocks
  /\ Forall (fun block => snd block <> []
                          /\ Forall (is_fixture_line today_d) (snd block))
            blocks.

(** The fixtures of a served request are all in the digest: each one
    that falls on the requested day has its two team names and a line
    with them. *)
Definition call_listed (E : Env) (ls : list digest_line) (c : api_call) : Prop :=
  match c with
  | CallFixtures _ _ d (Some data) =>
      forall resp fxs fx,
        dict_get data "response" (JList []) = Ok resp ->
        py_iter resp = Ok fxs -> In fx fxs -> on_day E d fx = true ->
        exists ko home away name,
          fixture_kickoff E fx = Ok ko
          /\ team_name fx "home" = Ok home
          /\ team_name fx "away" = Ok away
          /\ In (LineFixture ko home away name) ls
  | _ => True
  end.

(** A step that touches neither ledger nor queue nor outbox nor
    subscribers. *)
Definition looks_only (s s' : state) : Prop :=
  SCHEDULED_KEYS s' = SCHEDULED_KEYS s
  /\ job_queue s' = job_queue s
  /\ outbox s' = outbox s
  /\ SUBSCRIBERS s' = SUBSCRIBERS s.

(** The loops have listed these blocks, the last of them being the block
    of [country] when its header is out. *)
Definition listing (today_d : date) (country : string) (v : today_vars) : Prop :=
  exists blocks,
    digest_of today_d blocks (lines v)
    /\ shown v = Z.of_nat (length (flat_map snd blocks))
    /\ (country_shown v = true ->
        exists before fs, blocks = before ++ [(country, fs)]).

(** The lines of a reply. *)
Definition reply_lines (r : reply) : list digest_line :=
  match r with
  | ReplyLines ls => ls
  | _ => []
  end.

(** From the [n]-th request on, the fixtures of every served request are
    in the lines. *)
Definition listed_from (E : Env) (n : nat) (v : today_vars) (s : state) : Prop :=
  (n <= length (api_calls s))%nat
  /\ Forall (call_listed E (lines v)) (drop n (api_calls s)).

(** ** The application: handlers, pull jobs and updates *)

Definition set_jobs (q : list job) (s : state) : state :=
  {| LEAGUES_CACHE := LEAGUES_CACHE s; SUBSCRIBERS := SUBSCRIBERS s;
     SCHEDULED_KEYS := SCHEDULED_KEYS s; job_queue := q;
     outbox := outbox s; log := log s; api_calls := api_calls s;
     ticks := ticks s |}.

(** A job of the queue that runs [pull_and_schedule]: its name, and
    whether it repeats ([run_daily]) or runs once ([run_once]). *)
Record pull_job : Type := {
  pull_name : string;
  pull_daily : bool
}.

(** The state of the worker, where the reminder jobs are, and the pull
    jobs of the queue. *)
Record application : Type := {
  worker : state;
  pull_jobs : list pull_job
}.

(** A command handler: from the chat of the update and the application
    to the text it passes to [reply_text], or the exception it raises
    before getting there, and the application afterwards.  The delivery
    of the reply is left out. *)
Definition handler : Type := Z -> application -> outcome reply * application.

Module Bot.

Section Handlers.

Variable E : Env.

(** A handler that works on the state of the worker and then replies. *)
Definition on_worker (m : M reply) (a : application) : outcome reply * application :=
  (fst (m (worker a)),
   {| worker := snd (m (worker a)); pull_jobs := pull_jobs a |}).

Definition start : handler := fun _ a => (Ok ReplyHelp, a).

(** [SUBSCRIBERS.add(chat_id)], which is the worker's [liveon] above,
    then the reply; and likewise for [liveoff]. *)
Definition liveon : handler :=
  fun chat_id => on_worker (liveon chat_id ;; ret ReplyLiveOn).

Definition liveoff : handler :=
  fun chat_id => on_worker (liveoff chat_id ;; ret ReplyLiveOff).

(** [run_daily(pull_and_schedule, time=DAILY_PULL_TIME,
    name="autoday-pull")]: one more job each time. *)
Definition autoday_on : handler :=
  fun _ a =>
    (Ok ReplyAutodayOn,
     {| worker := worker a;
        pull_jobs := pull_jobs a
                     ++ [{| pull_name := "autoday-pull"; pull_daily := true |}] |}).

(** [for j in context.job_queue.jobs(): if j.name == "autoday-pull":
    j.schedule_removal()], over the pull jobs and the reminder jobs. *)
Definition autoday_off : handler :=
  fun _ a =>
    (Ok ReplyAutodayOff,
     {| worker :=
          set_jobs (List.filter
                      (fun j => negb (String.eqb (job_name j) "autoday-pull"))
                      (job_queue (worker a)))
                   (worker a);
        pull_jobs :=
          List.filter (fun j => negb (String.eqb (pull_name j) "autoday-pull"))
                      (pull_jobs a) |}).

Definition today : handler := fun _ => on_worker (today_digest E).

(** [await pull_and_schedule(context)], then the reply. *)
Definition today_fixtures : handler :=
  fun _ => on_worker (today_fixtures E ;; ret ReplyScheduled).

(** The handlers [build_app] registers, in its order. *)
Definition handlers : list (string * handler) :=
  [("start", start); ("liveon", liveon); ("liveoff", liveoff);
   ("today", today); ("today_fixtures", today_fixtures);
   ("autoday_on", autoday_on); ("autoday_off", autoday_off)]%string.

(** The application as [build_app] returns it: nothing in the state of
    the worker, and the boot pull in the queue. *)
Definition build_app : application :=
  {| worker := initial_state;
     pull_jobs := [{| pull_name := "boot-pull"; pull_daily := false |}] |}.

(** The handler of a command: the first one registered under its
    name. *)
Definition dispatch (name : string) : option handler :=
  option_map snd (List.find (fun h => String.eqb name (fst h)) handlers).

(** What the application goes through: a command from a chat, the run
    of the [i]-th pull job, the firing of the [n]-th reminder job. *)
Inductive update : Type :=
  | Command (name : string) (chat_id : Z)
  | RunPull (i : nat)
  | RunReminder (n : nat).

(** An exception that escapes a handler or a job is logged by the
    framework, which carries on; a pull job that runs once leaves the
    queue when it has run. *)
Definition process (u : update) (a : application) : application :=
  match u with
  | Command name chat_id =>
      match dispatch name with
      | Some h => snd (h chat_id a)
      | None => a
      end
  | RunPull i =>
      match pull_jobs a !! i with
      | Some j =>
          {| worker := snd (pull_and_schedule E (worker a));
             pull_jobs := if pull_daily j then pull_jobs a
                          else delete i (pull_jobs a) |}
      | None => a
      end
  | RunReminder n =>
      {| worker := snd (handle E (Fire n) (worker a));
         pull_jobs := pull_jobs a |}
  end.

Definition run (us : list update) (a : application) : application :=
  fold_left (fun a u => process u a) us a.

End Handlers.

End Bot.

(** What holds of the worker at any time: the ledger and the queue
    agree, the jobs are well formed, the cache is in order. *)
Definition worker_ok (E : Env) (s : state) : Prop :=
  ledger_ok E s
  /\ Forall (job_ok E) (job_queue s)
  /\ cache_ok (LEAGUES_CACHE s).

(** The pull jobs there can be: the boot pull, which runs once, and the
    daily pulls. *)
Definition pull_job_ok (j : pull_job) : Prop :=
  j = {| pull_name := "boot-pull"; pull_daily := false |}
  \/ j = {| pull_name := "autoday-pull"; pull_daily := true |}.

(** The number of daily pulls after some updates, when there were [n]:
    each /autoday_on adds one, /autoday_off leaves none. *)
Fixpoint daily_after (us : list Bot.update) (n : nat) : nat :=
  match us with
  | [] => n
  | Bot.Command name _ :: rest =>
      daily_after rest
        (if String.eqb name "autoday_on" then S n
         else if String.eqb name "autoday_off" then 0%nat
         else n)
  | _ :: rest => daily_after rest n
  end.

(** ** More of the concrete day *)
Module Matchday.

Import Scenario.

(** The fixtures of the day without the record that lacks its teams. *)
Definition clean_table (league_id season : json) (day : date) : option json :=
  match league_id with
  | JNum n =>
      if n =? 140
      then Some (answer [clasico; after_midnight; late_game])
      else if n =? 40
      then Some (answer [fixture 11 "2025-10-26T16:00:00Z" "Leeds" "Hull"
                                 "Championship"])
      else None
  | _ => None
  end.

Definition clean_world : Env := env ten_to_two leagues_table clean_table [2].

(** What /today replies there: the two games of La Liga that kick off on
    the 26th in Dubai, and the one of the Championship. *)
Definition todays_reply : reply :=
  ReplyLines
    [LineTitle;
     LineCountry "Spain";
     LineFixture (wall 2025 10 26 14 0 0) (JStr "Real Madrid") (JStr "Barcelona")
                 (JStr "La Liga");
     LineFixture (wall 2025 10 26 23 30 0) (JStr "Sevilla") (JStr "Betis")
                 (JStr "La Liga");
     LineCountry "England";
     LineFixture (wall 2025 10 26 20 0 0) (JStr "Leeds") (JStr "Hull")
                 (JStr "Championship")].

(** A league record whose seasons are bare years. *)
Definition bare_years : json :=
  JObj [("league"%string,
         JObj [("id"%string, JNum 140); ("name"%string, JStr "La Liga")]);
        ("seasons"%string, JList [JNum 2024; JNum 2025])].

Definition bare_leagues (country : string) : option json :=
  if String.eqb country "Spain" then Some (answer [bare_years]) else None.

Definition bare_world : Env := env ten_to_two bare_leagues fixtures_table [].

(** A provider that answers every fixtures request with a [null]
    response. *)
Definition null_table (league_id season : json) (day : date) : option json :=
  Some (JObj [("response"%string, JNull)]).

Definition null_world : Env := env ten_to_two leagues_table null_table [].

(** A league record whose league has no id. *)
Definition no_id : json :=
  JObj [("league"%string, JObj [("name"%string, JStr "La Liga")]);
        ("seasons"%string, JList [JObj [("year"%string, JNum 2025)]])].

(** A fixture whose date is a number. *)
Definition numeric_date : json :=
  JObj [("fixture"%string,
         JObj [("id"%string, JNum 12); ("date"%string, JNum 1761472800)]);
        ("league"%string, JObj [("name"%string, JStr "La Liga")]);
        ("teams"%string, JObj [("home"%string, team "Elche");
                               ("away"%string, team "Osasuna")])].

(** Chat 1 has left after the boot pull. *)
Definition after_leaving : state :=
  run_events world [LiveOn 1; LiveOn 2; BootPull; LiveOff 1] initial_state.

End Matchday.

(** * Properties *)

(** ** Loops *)

Lemma for_each_cons_ok {A B} (x : A) (l : list A) (body : A -> B -> M B)
    (acc acc' : B) (s s1 : state) :
  body x acc s = (Ok acc', s1) ->
  for_each (x :: l) body acc s = for_each l body acc' s1.
Proof. intros H. cbn [for_each]. unfold bind. now rewrite H. Qed.

Lemma for_each_cons_raise {A B} (x : A) (l : list A) (body : A -> B -> M B)
    (acc : B) (e : exn) (s s1 : state) :
  body x acc s = (Raise e, s1) ->
  for_each (x :: l) body acc s = (Raise e, s1).
Proof. intros H. cbn [for_each]. unfold bind. now rewrite H. Qed.

(** ** Strings and keys *)

Lemma str_int_inj (a b : Z) : str_int a = str_int b -> a = b.
Proof.
  unfold str_int. intros H.
  assert (Hi : forall z, NilZero.int_of_string (NilZero.string_of_int (Z.to_int z))
                         = Some (Z.to_int z)).
  { intros z. apply NilZero.isi; destruct z; simpl; try discriminate;
      intros [= Hp]; exact (DecimalPos.Unsigned.to_uint_nonnil _ Hp). }
  apply DecimalZ.to_int_inj.
  pose proof (Hi a) as Ha. rewrite H, Hi in Ha. congruence.
Qed.

Lemma append_cancel_l (p a b : string) :
  String.append p a = String.append p b -> a = b.
Proof. induction p as [|c p IH]; simpl; [auto|]. intros [= H]. auto. Qed.

Section Keys.

Variable E : Env.

Lemma job_key_inj (id : json) (m m' : Z) :
  job_key E id m = job_key E id m' -> m = m'.
Proof.
  unfold job_key. intros H.
  apply append_cancel_l in H. apply append_cancel_l in H.
  now apply str_int_inj.
Qed.

Lemma dedupe_key_reminder (f : fixture_fields) (m : Z) :
  job_dedupe_key E (reminder_job E f m) = job_key E (f_id f) m.
Proof. reflexivity. Qed.

End Keys.

(** ** The planner: one pass over the offsets *)

Section Planner.

Variable E : Env.

Lemma offset_step_eq (f : fixture_fields) (now_ mins n : Z) (s : state) :
  offset_step E f now_ mins n s =
    if (f_ko f - timedelta_minutes mins <=? now_)
       || bool_decide (job_key E (f_id f) mins ∈ SCHEDULED_KEYS s)
    then (Ok n, s)
    else (Ok (n + 1), reserve E f mins s).
Proof.
  unfold offset_step. destruct (_ <=? _); simpl; [reflexivity|].
  unfold bind, get_state. destruct (bool_decide _); reflexivity.
Qed.

Lemma reserve_all_cons (f : fixture_fields) (m : Z) (ms : list Z) (s : state) :
  reserve_all E f (m :: ms) s = reserve_all E f ms (reserve E f m s).
Proof. reflexivity. Qed.

Lemma reserve_all_keys (f : fixture_fields) (ms : list Z) (s : state) :
  SCHEDULED_KEYS (reserve_all E f ms s)
  = list_to_set (map (job_key E (f_id f)) ms) ∪ SCHEDULED_KEYS s.
Proof.
  revert s. induction ms as [|m ms IH]; intros s.
  - cbn. now rewrite union_empty_l_L.
  - rewrite reserve_all_cons, IH. cbn. set_solver.
Qed.

Lemma reserve_all_jobs (f : fixture_fields) (ms : list Z) (s : state) :
  job_queue (reserve_all E f ms s) = job_queue s ++ map (reminder_job E f) ms.
Proof.
  revert s. induction ms as [|m ms IH]; intros s.
  - cbn. now rewrite app_nil_r.
  - rewrite reserve_all_cons, IH. cbn. now rewrite <- app_assoc.
Qed.

Lemma reserve_all_frame (f : fixture_fields) (ms : list Z) (s : state) :
  LEAGUES_CACHE (reserve_all E f ms s) = LEAGUES_CACHE s /\
  SUBSCRIBERS (reserve_all E f ms s) = SUBSCRIBERS s /\
  outbox (reserve_all E f ms s) = outbox s /\
  log (reserve_all E f ms s) = log s /\
  api_calls (reserve_all E f ms s) = api_calls s /\
  ticks (reserve_all E f ms s) = ticks s.
Proof.
  revert s. induction ms as [|m ms IH]; intros s; [cbn; tauto|].
  rewrite reserve_all_cons. destruct (IH (reserve E f m s)) as (?&?&?&?&?&?).
  cbn in *. tauto.
Qed.

(** The loop over the offsets reserves a sub-sequence [ms] of them: those
    still due whose key was free; it counts them, and afterwards the key
    of every offset still due is in the ledger. *)
Lemma offsets_loop (f : fixture_fields) (now_ : datetime) (offs : list Z) :
  forall (n : Z) (s : state), exists ms : list Z,
    for_each offs (offset_step E f now_) n s
      = (Ok (n + Z.of_nat (length ms)), reserve_all E f ms s)
    /\ sublist ms offs
    /\ Forall (fun m => now_ < f_ko f - timedelta_minutes m
                        /\ job_key E (f_id f) m ∉ SCHEDULED_KEYS s) ms
    /\ NoDup (map (job_key E (f_id f)) ms)
    /\ (forall m, In m offs -> now_ < f_ko f - timedelta_minutes m ->
          job_key E (f_id f) m ∈ SCHEDULED_KEYS (reserve_all E f ms s)).
Proof.
  induction offs as [|m offs IH]; intros n s.
  - exists []. simpl. rewrite Z.add_0_r. repeat split; try constructor.
    intros m [].
  - cbn [for_each]. unfold bind at 1. rewrite offset_step_eq.
    destruct (_ || _) eqn:Hskip.
    + destruct (IH n s) as (ms & Hrun & Hsub & Hall & Hnd & Hcov).
      exists ms. split; [exact Hrun|]. split; [now apply sublist_cons|].
      split; [exact Hall|]. split; [exact Hnd|].
      intros m' [<-|Hin] Hdue; [|now apply Hcov].
      apply orb_true_iff in Hskip as [Hpast|Hin].
      * apply Z.leb_le in Hpast. lia.
      * apply bool_decide_eq_true in Hin. rewrite reserve_all_keys. set_solver.
    + apply orb_false_iff in Hskip as [Hdue Hfree].
      apply Z.leb_gt in Hdue. apply bool_decide_eq_false in Hfree.
      destruct (IH (n + 1) (reserve E f m s)) as (ms & Hrun & Hsub & Hall & Hnd & Hcov).
      exists (m :: ms). split.
      { rewrite Hrun. simpl length. f_equal. f_equal. lia. }
      split; [now apply sublist_skip|].
      assert (Hfresh : Forall (fun m' => job_key E (f_id f) m'
                                         <> job_key E (f_id f) m) ms).
      { eapply Forall_impl; [exact Hall|]. simpl. intros m' [_ Hm'] Heq.
        apply Hm'. rewrite Heq. set_solver. }
      split.
      { constructor; [tauto|]. eapply Forall_impl; [exact Hall|].
        simpl. intros m' [? Hm']. split; [assumption|]. set_solver. }
      split.
      { simpl. constructor; [|exact Hnd]. rewrite list_elem_of_In, in_map_iff.
        intros (m' & Heq & Hin). rewrite Forall_forall in Hfresh.
        apply (Hfresh m'); [now apply list_elem_of_In|assumption]. }
      intros m' [<-|Hin] Hdue'.
      * rewrite reserve_all_cons, reserve_all_keys. cbn. set_solver.
      * now apply Hcov.
Qed.

(** When every offset still due has its key in the ledger, the loop does
    nothing. *)
Lemma offsets_loop_idle (f : fixture_fields) (now_ : datetime) (offs : list Z)
    (n : Z) (s : state) :
  (forall m, In m offs -> now_ < f_ko f - timedelta_minutes m ->
     job_key E (f_id f) m ∈ SCHEDULED_KEYS s) ->
  for_each offs (offset_step E f now_) n s = (Ok n, s).
Proof.
  induction offs as [|m offs IH]; intros Hcov; [reflexivity|].
  cbn [for_each]. unfold bind at 1. rewrite offset_step_eq.
  destruct (_ || _) eqn:Hskip.
  - apply IH. intros m' Hin. apply Hcov. now right.
  - apply orb_false_iff in Hskip as [Hdue Hfree].
    apply Z.leb_gt in Hdue. apply bool_decide_eq_false in Hfree.
    exfalso. apply Hfree. apply Hcov; [now left|assumption].
Qed.

End Planner.

(** ** One fixture *)

Section Fixture.

Variable E : Env.

Lemma offsets_nonneg (m : Z) : In m REMINDER_OFFSETS -> 0 <= m.
Proof. unfold REMINDER_OFFSETS. simpl. lia. Qed.

Lemma due_after_kickoff (f : fixture_fields) (t m : Z) :
  In m REMINDER_OFFSETS -> t < f_ko f - timedelta_minutes m -> t < f_ko f.
Proof.
  intros Hm. apply offsets_nonneg in Hm.
  unfold timedelta_minutes, MICROS_PER_MINUTE. lia.
Qed.

(** The two ways a call of [schedule_reminders_for_fixture] can go. *)
Lemma schedule_cases (fx : json) (s : state) :
  (exists e, read_fixture E fx = Raise e
             /\ schedule_reminders_for_fixture E fx s = (Ok 0, s))
  \/
  (exists f ms,
      read_fixture E fx = Ok f
      /\ schedule_reminders_for_fixture E fx s
         = (Ok (Z.of_nat (length ms)), reserve_all E f ms (tick s))
      /\ sublist ms REMINDER_OFFSETS
      /\ Forall (fun m => clock E (ticks s) < f_ko f - timedelta_minutes m
                          /\ job_key E (f_id f) m ∉ SCHEDULED_KEYS s) ms
      /\ NoDup (map (job_key E (f_id f)) ms)
      /\ (forall m, In m REMINDER_OFFSETS ->
            clock E (ticks s) < f_ko f - timedelta_minutes m ->
            job_key E (f_id f) m ∈ SCHEDULED_KEYS (reserve_all E f ms (tick s)))).
Proof.
  unfold schedule_reminders_for_fixture.
  destruct (read_fixture E fx) as [f|e] eqn:Hread.
  - right. exists f. unfold bind, now. cbn beta iota.
    destruct (f_ko f <=? clock E (ticks s)) eqn:Hko.
    + apply Z.leb_le in Hko. exists [].
      split; [reflexivity|]. split; [reflexivity|].
      split; [apply sublist_nil_l|]. split; [constructor|].
      split; [constructor|].
      intros m Hm Hdue. apply (due_after_kickoff f _ m Hm) in Hdue. lia.
    + destruct (offsets_loop E f (clock E (ticks s)) REMINDER_OFFSETS 0 (tick s))
        as (ms & Hrun & Hsub & Hall & Hnd & Hcov).
      exists ms. rewrite Hrun. repeat split; assumption.
  - left. exists e. split; reflexivity.
Qed.

Lemma new_jobs_app (s s' : state) (l : list job) :
  job_queue s' = job_queue s ++ l -> new_jobs s s' = l.
Proof. unfold new_jobs. intros ->. now rewrite drop_app_length. Qed.

Lemma new_jobs_same (s s' : state) :
  job_queue s' = job_queue s -> new_jobs s s' = [].
Proof. intros H. apply new_jobs_app. now rewrite app_nil_r. Qed.

(** C10: [schedule_reminders_for_fixture] always returns a count [N]
    between 0 and the number of offsets (3); during the call the dedup
    ledger gains exactly [N] keys and loses none, and the job queue gains
    exactly [N] jobs. *)
Theorem schedule_count_matches_ledger (fx : json) (s : state) :
  exists N : Z,
    fst (schedule_reminders_for_fixture E fx s) = Ok N
    /\ 0 <= N <= Z.of_nat (length REMINDER_OFFSETS)
    /\ length REMINDER_OFFSETS = 3%nat
    /\ SCHEDULED_KEYS s ⊆ SCHEDULED_KEYS (snd (schedule_reminders_for_fixture E fx s))
    /\ Z.of_nat (size (SCHEDULED_KEYS (snd (schedule_reminders_for_fixture E fx s))))
       = Z.of_nat (size (SCHEDULED_KEYS s)) + N
    /\ Z.of_nat (length (new_jobs s (snd (schedule_reminders_for_fixture E fx s))))
       = N.
Proof.
  destruct (schedule_cases fx s) as [(e & _ & ->)|(f & ms & _ & -> & Hsub & Hall & Hnd & _)].
  - exists 0. cbn [fst snd]. rewrite new_jobs_same by reflexivity.
    cbn. repeat split; try lia. reflexivity.
  - exists (Z.of_nat (length ms)). cbn [fst snd].
    apply sublist_length in Hsub.
    rewrite reserve_all_keys.
    rewrite (new_jobs_app _ _ (map (reminder_job E f) ms))
      by (rewrite reserve_all_jobs; reflexivity).
    rewrite length_map.
    repeat split; try lia; try reflexivity.
    + set_solver.
    + rewrite size_union.
      * rewrite size_list_to_set by exact Hnd. rewrite length_map. cbn. lia.
      * intros k Hk Hin. apply elem_of_list_to_set in Hk.
        apply list_elem_of_In, in_map_iff in Hk as (m & <- & Hm).
        rewrite Forall_forall in Hall. apply list_elem_of_In in Hm.
        destruct (Hall m Hm) as [_ Hfree]. apply Hfree. exact Hin.
Qed.

(** C3: for a fixture whose fields can be read, at clock reading [now]:
    when kick-off is not after [now] nothing is scheduled; an offset whose
    delivery instant is not after [now] produces no job; and every offset
    whose delivery instant is still ahead, and whose key is free, gets its
    job, whatever happens to the other offsets. *)
Theorem past_windows_skipped (fx : json) (f : fixture_fields) (s : state) :
  read_fixture E fx = Ok f ->
  let now_ := clock E (ticks s) in
  let r := schedule_reminders_for_fixture E fx s in
  (f_ko f <= now_ -> fst r = Ok 0 /\ new_jobs s (snd r) = [])
  /\ (forall m, f_ko f - timedelta_minutes m <= now_ ->
        forall j, In j (new_jobs s (snd r)) -> job_offset j <> m)
  /\ (forall m, In m REMINDER_OFFSETS ->
        now_ < f_ko f - timedelta_minutes m ->
        job_key E (f_id f) m ∉ SCHEDULED_KEYS s ->
        In (reminder_job E f m) (new_jobs s (snd r))).
Proof.
  intros Hread now_ r. subst r.
  destruct (schedule_cases fx s) as [(e & He & _)|(f' & ms & Hf & Hrun & Hsub & Hall & Hnd & Hcov)];
    [congruence|].
  assert (f' = f) as -> by congruence.
  rewrite Hrun. cbn [fst snd].
  rewrite (new_jobs_app _ _ (map (reminder_job E f) ms))
    by (rewrite reserve_all_jobs; reflexivity).
  rewrite Forall_forall in Hall.
  split; [|split].
  - intros Hko. destruct ms as [|m ms]; [split; reflexivity|].
    destruct (Hall m) as [Hdue _]; [left|].
    apply sublist_cons_l in Hsub as (k1 & k2 & Hoffs & _).
    assert (Hin : In m REMINDER_OFFSETS)
      by (rewrite Hoffs; apply in_or_app; right; now left).
    apply (due_after_kickoff f _ m Hin) in Hdue. fold now_ in Hdue. lia.
  - intros m Hpast j Hj. apply in_map_iff in Hj as (m' & <- & Hm').
    apply list_elem_of_In in Hm'. destruct (Hall m' Hm') as [Hdue _].
    fold now_ in Hdue. cbn. intros ->. lia.
  - intros m Hm Hdue Hfree. specialize (Hcov m Hm Hdue).
    rewrite reserve_all_keys in Hcov. cbn in Hcov.
    apply elem_of_union in Hcov as [Hk|Hk]; [|contradiction].
    apply elem_of_list_to_set, list_elem_of_In, in_map_iff in Hk
      as (m' & Heq & Hm').
    apply job_key_inj in Heq. subst m'. now apply in_map.
Qed.

End Fixture.

(** ** Malformed records *)

Section Malformed.

Variable E : Env.

Lemma getitem_lookup (v x : json) (k : string) (rest : list string) :
  getitem v k = Ok x -> lookup_path v (k :: rest) = lookup_path x rest.
Proof.
  destruct v; cbn; try discriminate.
  destruct (assoc k kvs); [intros [= ->]; reflexivity|discriminate].
Qed.

(** A record that [read_fixture] accepts has every required field. *)
Lemma read_fixture_has_fields (fx : json) (f : fixture_fields) :
  read_fixture E fx = Ok f ->
  forall path, In path REQUIRED_FIELDS -> lookup_path fx path <> None.
Proof.
  unfold read_fixture. intros H.
  repeat match type of H with
         | obind ?x _ = _ =>
             let G := fresh "G" in
             destruct x eqn:G; cbn [obind] in H; [|discriminate]
         end.
  intros path Hin. cbn in Hin.
  destruct Hin as [<-|[<-|[<-|[<-|[<-|[]]]]]];
    repeat (erewrite getitem_lookup by eassumption); cbn; discriminate.
Qed.

Lemma read_fixture_missing (fx : json) :
  missing_field fx -> exists e, read_fixture E fx = Raise e.
Proof.
  intros (path & Hin & Hnone).
  destruct (read_fixture E fx) as [f|e] eqn:Hread; [|now exists e].
  exfalso. exact (read_fixture_has_fields fx f Hread path Hin Hnone).
Qed.

Lemma read_fixture_kickoff (fx : json) (f : fixture_fields) :
  read_fixture E fx = Ok f -> fixture_kickoff E fx = Ok (f_ko f).
Proof.
  unfold read_fixture, fixture_kickoff. intros H.
  repeat match type of H with
         | obind ?x _ = _ =>
             let G := fresh "G" in
             destruct x eqn:G; cbn [obind] in H; [|discriminate]
         end.
  injection H as <-. cbn. rewrite G0. cbn. exact G1.
Qed.

(** C4: a fixture record that lacks a required field (fixture date, a
    team name, the league name or the fixture id) makes
    [schedule_reminders_for_fixture] return 0 without raising and
    without touching the state, the dedup ledger included; and the
    fixture loop of the cycle goes on with the remaining fixtures as if
    the record had not been there. *)
Theorem malformed_fixture_skipped (fx : json) (s : state) :
  missing_field fx ->
  schedule_reminders_for_fixture E fx s = (Ok 0, s)
  /\ (forall (today : date) (total_jobs : Z),
        fixture_step E today fx total_jobs s = (Ok total_jobs, s))
  /\ (forall (today : date) (rest : list json) (total_jobs : Z),
        for_each (fx :: rest) (fixture_step E today) total_jobs s
        = for_each rest (fixture_step E today) total_jobs s).
Proof.
  intros Hmiss. destruct (read_fixture_missing fx Hmiss) as [e Hread].
  assert (Hsched : schedule_reminders_for_fixture E fx s = (Ok 0, s)).
  { unfold schedule_reminders_for_fixture. now rewrite Hread. }
  assert (Hstep : forall today total_jobs,
             fixture_step E today fx total_jobs s = (Ok total_jobs, s)).
  { intros today total_jobs. unfold fixture_step.
    destruct (fixture_kickoff E fx) as [ko|]; [|reflexivity].
    destruct (negb _); [reflexivity|].
    unfold bind. rewrite Hsched. unfold ret. now rewrite Z.add_0_r. }
  split; [exact Hsched|]. split; [exact Hstep|].
  intros today rest total_jobs. cbn [for_each]. unfold bind at 1.
  now rewrite Hstep.
Qed.

End Malformed.

(** ** Relations that every step of the worker respects *)

Section Moves.

Variable E : Env.
Variable R : state -> state -> Prop.
Variable G : fixture_fields -> Prop.
Variable today : date.

Hypothesis R_refl : forall s, R s s.
Hypothesis R_trans : forall a b c, R a b -> R b c -> R a c.
Hypothesis R_tick : forall s, R s (tick s).
Hypothesis R_sent : forall a s, R s (add_sent a s).
Hypothesis R_log : forall l s, R s (add_log l s).
Hypothesis R_asked_leagues : forall c a s, R s (add_call (CallLeagues c a) s).
Hypothesis R_asked_fixtures : forall i y d a s,
  R s (add_call (CallFixtures i y d a) s).
Hypothesis R_reserve : forall f m s,
  G f -> In m REMINDER_OFFSETS -> job_key E (f_id f) m ∉ SCHEDULED_KEYS s ->
  R s (reserve E f m s).
Hypothesis G_today : forall f, date_of (f_ko f) = today -> G f.

Lemma moves_ret {A} (a : A) : moves R (ret a).
Proof. intros s. apply R_refl. Qed.

Lemma moves_lift {A} (x : outcome A) : moves R (lift x).
Proof. intros s. apply R_refl. Qed.

Lemma moves_get_state : moves R get_state.
Proof. intros s. apply R_refl. Qed.

Lemma moves_modify (g : state -> state) :
  (forall s, R s (g s)) -> moves R (modify g).
Proof. intros H s. apply H. Qed.

Lemma moves_bind {A B} (m : M A) (k : A -> M B) :
  moves R m -> (forall a, moves R (k a)) -> moves R (bind m k).
Proof.
  intros Hm Hk s. unfold bind. specialize (Hm s).
  destruct (m s) as [[a|e] s']; cbn in *; [|exact Hm].
  eapply R_trans; [exact Hm|apply Hk].
Qed.

Lemma moves_try {A} (m : M A) : moves R m -> moves R (try_ m).
Proof. intros Hm s. unfold try_. specialize (Hm s). now destruct (m s). Qed.

Lemma moves_for_each {A B} (l : list A) (body : A -> B -> M B) :
  (forall x acc, In x l -> moves R (body x acc)) ->
  forall acc, moves R (for_each l body acc).
Proof.
  induction l as [|x l IH]; intros Hbody acc; cbn [for_each].
  - apply moves_ret.
  - apply moves_bind; [apply Hbody; now left|].
    intros acc'. apply IH. intros y acc'' Hy. apply Hbody. now right.
Qed.

Lemma moves_now : moves R (now E).
Proof. intros s. apply R_tick. Qed.

Lemma moves_http_leagues (c : string) : moves R (http_leagues E c).
Proof.
  intros s. unfold http_leagues.
  assert (R s (add_call (CallLeagues c (api_leagues E (ticks s) c)) (tick s)))
    by (eapply R_trans; [apply R_tick|apply R_asked_leagues]).
  now destruct (api_leagues E (ticks s) c).
Qed.

Lemma moves_http_fixtures (i y : json) (d : date) :
  moves R (http_fixtures E i y d).
Proof.
  intros s. unfold http_fixtures.
  assert (R s (add_call (CallFixtures i y d (api_fixtures E (ticks s) i y d)) (tick s)))
    by (eapply R_trans; [apply R_tick|apply R_asked_fixtures]).
  now destruct (api_fixtures E (ticks s) i y d).
Qed.

Lemma moves_bot_send_message (c : Z) (msg : message) :
  moves R (bot_send_message E c msg).
Proof.
  intros s. unfold bot_send_message.
  set (a := {| sent_chat := c; sent_text := msg;
               sent_ok := send_message E (ticks s) c msg |}).
  assert (R s (add_sent a (tick s)))
    by (eapply R_trans; [apply R_tick|apply R_sent]).
  now destruct (send_message E (ticks s) c msg).
Qed.

Lemma moves_offset_step (f : fixture_fields) (now_ m n : Z) :
  G f -> In m REMINDER_OFFSETS -> moves R (offset_step E f now_ m n).
Proof.
  intros Hg Hm s. rewrite offset_step_eq.
  destruct (_ || _) eqn:Hskip; cbn [snd]; [apply R_refl|].
  apply orb_false_iff in Hskip as [_ Hfree].
  apply bool_decide_eq_false in Hfree. now apply R_reserve.
Qed.

Lemma moves_schedule (fx : json) :
  (forall f, read_fixture E fx = Ok f -> G f) ->
  moves R (schedule_reminders_for_fixture E fx).
Proof.
  intros Hg. unfold schedule_reminders_for_fixture.
  destruct (read_fixture E fx) as [f|e]; [|apply moves_ret].
  apply moves_bind; [apply moves_now|]. intros now_.
  destruct (_ <=? _); [apply moves_ret|].
  apply moves_for_each. intros m n Hm. apply moves_offset_step; auto.
Qed.

Lemma moves_fixture_step (fx : json) (total : Z) :
  moves R (fixture_step E today fx total).
Proof.
  unfold fixture_step.
  destruct (fixture_kickoff E fx) as [ko|e] eqn:Hko; [|apply moves_ret].
  destruct (date_of ko =? today) eqn:Hday; cbn [negb]; [|apply moves_ret].
  apply Z.eqb_eq in Hday.
  apply moves_bind; [|intros n; apply moves_ret].
  apply moves_schedule. intros f Hf. apply G_today.
  apply read_fixture_kickoff in Hf. congruence.
Qed.

Lemma moves_pick_season (seasons : json) : moves R (pick_season E seasons).
Proof.
  unfold pick_season.
  apply moves_bind; [apply moves_lift|]. intros latest.
  apply moves_bind; [apply moves_lift|]. intros year.
  destruct (truthy year); [apply moves_ret|].
  apply moves_bind; [apply moves_now|]. intros n. apply moves_ret.
Qed.

Lemma moves_get_today_fixtures (i y : json) (d : date) :
  moves R (get_today_fixtures_for_league E i y d).
Proof.
  unfold get_today_fixtures_for_league.
  apply moves_bind; [apply moves_http_fixtures|]. intros data. apply moves_lift.
Qed.

Lemma moves_fetch_and_plan (country : string) (league league_id season : json)
    (total : Z) :
  moves R (fetch_and_plan E today country league league_id season total).
Proof.
  unfold fetch_and_plan.
  apply moves_bind; [apply moves_try, moves_get_today_fixtures|].
  intros [fixtures|e].
  - apply moves_bind; [apply moves_lift|]. intros fxs.
    apply moves_for_each. intros fx acc _. apply moves_fixture_step.
  - apply moves_bind; [apply moves_lift|]. intros name.
    apply moves_bind; [apply moves_modify, R_log|]. intros _. apply moves_ret.
Qed.

(** [league_step] respects whatever a clock reading and the block around
    the fetch respect. *)
Lemma moves_league_step_by_fetch (country : string) (item : json) (total : Z) :
  (forall league league_id season,
      moves R (fetch_and_plan E today country league league_id season total)) ->
  moves R (league_step E today country item total).
Proof.
  intros Hfetch. unfold league_step.
  apply moves_bind; [apply moves_lift|]. intros league.
  apply moves_bind; [apply moves_lift|]. intros seasons0.
  destruct (_ || _); [apply moves_ret|].
  apply moves_bind; [apply moves_pick_season|]. intros season.
  apply moves_bind; [apply moves_lift|]. intros league_id.
  destruct (negb _); [apply moves_ret|]. apply Hfetch.
Qed.

Lemma moves_league_step (country : string) (item : json) (total : Z) :
  moves R (league_step E today country item total).
Proof.
  apply moves_league_step_by_fetch. intros. apply moves_fetch_and_plan.
Qed.

Lemma moves_country_step (entry : string * list json) (acc : Z * Z) :
  moves R (country_step E today entry acc).
Proof.
  unfold country_step.
  apply moves_bind; [|intros t; apply moves_ret].
  apply moves_for_each. intros item total _. apply moves_league_step.
Qed.

Lemma moves_countries (cache : list (string * list json)) (acc : Z * Z) :
  moves R (for_each cache (country_step E today) acc).
Proof. apply moves_for_each. intros entry a _. apply moves_country_step. Qed.

Lemma moves_broadcast (msg : message) (failed : Z -> log_line) :
  moves R (broadcast E msg failed).
Proof.
  unfold broadcast. apply moves_bind; [apply moves_get_state|]. intros s0.
  apply moves_for_each. intros c [] _. unfold send_or_log.
  apply moves_bind; [apply moves_try, moves_bot_send_message|].
  intros [[]|e]; [apply moves_ret|apply moves_modify, R_log].
Qed.

Lemma moves_send_reminder_job (d : job) : moves R (send_reminder_job E d).
Proof. apply moves_broadcast. Qed.

Lemma moves_send_digest (c t : Z) : moves R (send_digest E c t).
Proof.
  unfold send_digest. apply moves_bind; [apply moves_get_state|]. intros s0.
  destruct (_ && _); [apply moves_broadcast|apply moves_ret].
Qed.

Hypothesis R_cache : forall entry s,
  R s (set_cache (LEAGUES_CACHE s ++ [entry]) s).

Lemma moves_get_current_leagues (c : string) :
  moves R (get_current_leagues_for_country E c).
Proof.
  unfold get_current_leagues_for_country.
  apply moves_bind; [apply moves_http_leagues|]. intros data.
  apply moves_bind; [apply moves_lift|]. intros response.
  apply moves_bind; [apply moves_lift|]. intros xs. apply moves_lift.
Qed.

Lemma moves_ensure_country (c : string) (u : unit) :
  moves R (ensure_country E c u).
Proof.
  unfold ensure_country.
  apply moves_bind; [apply moves_get_state|]. intros s0.
  destruct (cache_has _ _); [apply moves_ret|].
  apply moves_bind; [apply moves_try, moves_get_current_leagues|].
  intros [leagues|e].
  - apply moves_bind; [apply moves_modify; intros s; apply R_cache|].
    intros _. apply moves_modify, R_log.
  - apply moves_modify, R_log.
Qed.

Lemma moves_ensure_leagues_cache : moves R (ensure_leagues_cache E).
Proof.
  unfold ensure_leagues_cache. apply moves_for_each. intros c u _.
  apply moves_ensure_country.
Qed.

End Moves.

(** The cycle, from what its parts respect. *)
Section MovesParts.

Variable E : Env.
Variable R : state -> state -> Prop.

Hypothesis R_refl : forall s, R s s.
Hypothesis R_trans : forall a b c, R a b -> R b c -> R a c.
Hypothesis R_tick : forall s, R s (tick s).
Hypothesis R_ensure : moves R (ensure_leagues_cache E).
Hypothesis R_league : forall today country item total,
  moves R (league_step E today country item total).
Hypothesis R_digest : forall c t, moves R (send_digest E c t).

Lemma moves_countries_by_league (today : date)
    (cache : list (string * list json)) (acc : Z * Z) :
  moves R (for_each cache (country_step E today) acc).
Proof.
  apply (moves_for_each R R_refl R_trans). intros entry a _.
  unfold country_step. apply (moves_bind R R_trans).
  - apply (moves_for_each R R_refl R_trans). intros item total _.
    apply R_league.
  - intros t. apply (moves_ret R R_refl).
Qed.

Lemma moves_pull_and_count_by_league : moves R (pull_and_count E).
Proof.
  unfold pull_and_count. apply (moves_bind R R_trans); [exact R_ensure|].
  intros _. apply (moves_bind R R_trans); [apply (moves_now E R R_tick)|].
  intros n. apply (moves_bind R R_trans); [apply (moves_get_state R R_refl)|].
  intros s0. apply moves_countries_by_league.
Qed.


End MovesParts.

(** The same for the whole cycle and for the events, where the day is
    read from the clock. *)
Section MovesCycle.

Variable E : Env.
Variable R : state -> state -> Prop.

Hypothesis R_refl : forall s, R s s.
Hypothesis R_trans : forall a b c, R a b -> R b c -> R a c.
Hypothesis R_tick : forall s, R s (tick s).
Hypothesis R_sent : forall a s, R s (add_sent a s).
Hypothesis R_log : forall l s, R s (add_log l s).
Hypothesis R_call : forall c s, R s (add_call c s).
Hypothesis R_reserve : forall f m s,
  In m REMINDER_OFFSETS -> job_key E (f_id f) m ∉ SCHEDULED_KEYS s ->
  R s (reserve E f m s).
Hypothesis R_cache : forall entry s,
  R s (set_cache (LEAGUES_CACHE s ++ [entry]) s).

Lemma moves_pull_and_count : moves R (pull_and_count E).
Proof.
  apply (moves_pull_and_count_by_league E R); auto.
  - apply (moves_ensure_leagues_cache E R); auto.
  - intros today country item total.
    apply (moves_league_step E R (fun _ => True) today); auto.
Qed.

Lemma moves_pull_and_schedule : moves R (pull_and_schedule E).
Proof.
  unfold pull_and_schedule.
  apply (moves_bind R R_trans); [apply moves_pull_and_count|].
  intros counts. apply (moves_send_digest E R); auto.
Qed.

Hypothesis R_subscribers : forall u s, R s (set_subscribers u s).

Lemma moves_handle (ev : event) : moves R (handle E ev).
Proof.
  destruct ev; cbn [handle]; try apply moves_pull_and_schedule.
  - apply moves_modify; auto.
  - apply moves_modify; auto.
  - apply (moves_bind R R_trans); [apply (moves_get_state R R_refl)|].
    intros s0. destruct (job_queue s0 !! n); [|now apply moves_ret].
    apply (moves_send_reminder_job E R); auto.
Qed.

Lemma run_events_related (evs : list event) (s : state) :
  R s (run_events E evs s).
Proof.
  revert s. induction evs as [|ev evs IH]; intros s; cbn; [apply R_refl|].
  eapply R_trans; [apply (moves_handle ev s)|apply IH].
Qed.

End MovesCycle.

(** ** The ledger across events *)

Section Ledger.

Variable E : Env.

Lemma grows_refl (s : state) : grows s s.
Proof.
  repeat split; try reflexivity; exists []; now rewrite app_nil_r.
Qed.

Lemma grows_trans (a b c : state) : grows a b -> grows b c -> grows a c.
Proof.
  intros (K1 & T1 & [j1 J1] & [o1 O1] & [l1 L1] & [c1 C1])
         (K2 & T2 & [j2 J2] & [o2 O2] & [l2 L2] & [c2 C2]).
  split; [set_solver|]. split; [lia|].
  split; [exists (j1 ++ j2); now rewrite J2, J1, app_assoc|].
  split; [exists (o1 ++ o2); now rewrite O2, O1, app_assoc|].
  split; [exists (l1 ++ l2); now rewrite L2, L1, app_assoc|].
  exists (c1 ++ c2); now rewrite C2, C1, app_assoc.
Qed.

Ltac grows_step :=
  intros; unfold grows; cbn;
  repeat split;
  try reflexivity; try lia; try set_solver;
  try (eexists; reflexivity);
  try (exists []; now rewrite app_nil_r).

Lemma grows_tick s : grows s (tick s).
Proof. grows_step. Qed.
Lemma grows_sent a s : grows s (add_sent a s).
Proof. grows_step. Qed.
Lemma grows_log l s : grows s (add_log l s).
Proof. grows_step. Qed.
Lemma grows_call c s : grows s (add_call c s).
Proof. grows_step. Qed.
Lemma grows_reserve f m s : grows s (reserve E f m s).
Proof. grows_step. Qed.
Lemma grows_cache c s : grows s (set_cache c s).
Proof. grows_step. Qed.
Lemma grows_subscribers u s : grows s (set_subscribers u s).
Proof. grows_step. Qed.

Lemma run_events_grows (evs : list event) (s : state) :
  grows s (run_events E evs s).
Proof.
  apply run_events_related;
    auto using grows_refl, grows_tick, grows_sent, grows_log, grows_call,
               grows_reserve, grows_cache, grows_subscribers.
  exact grows_trans.
Qed.

Lemma schedule_grows (fx : json) (s : state) :
  grows s (snd (schedule_reminders_for_fixture E fx s)).
Proof.
  apply (moves_schedule E grows (fun _ => True));
    auto using grows_refl, grows_tick, grows_reserve.
  exact grows_trans.
Qed.

Lemma countries_grow (today : date) (cache : list (string * list json))
    (acc : Z * Z) (s : state) :
  grows s (snd (for_each cache (country_step E today) acc s)).
Proof.
  apply (moves_countries E grows (fun _ => True) today);
    auto using grows_refl, grows_tick, grows_log, grows_call, grows_reserve.
  exact grows_trans.
Qed.

Lemma league_step_grows (today : date) (country : string) (item : json)
    (total : Z) (s : state) :
  grows s (snd (league_step E today country item total s)).
Proof.
  apply (moves_league_step E grows (fun _ => True) today);
    auto using grows_refl, grows_tick, grows_log, grows_call, grows_reserve.
  exact grows_trans.
Qed.


Lemma pull_and_schedule_grows (s : state) :
  grows s (snd (pull_and_schedule E s)).
Proof.
  apply (moves_pull_and_schedule E grows);
    auto using grows_refl, grows_tick, grows_sent, grows_log, grows_call,
               grows_reserve, grows_cache.
  exact grows_trans.
Qed.

(** *** The invariant *)

Lemma ledger_ok_initial : ledger_ok E initial_state.
Proof.
  split; [constructor|]. split; [intros j []|].
  intros k Hk. cbn in Hk. set_solver.
Qed.

Lemma ledger_ok_reserve (f : fixture_fields) (m : Z) (s : state) :
  job_key E (f_id f) m ∉ SCHEDULED_KEYS s ->
  ledger_ok E s -> ledger_ok E (reserve E f m s).
Proof.
  intros Hfree (Hnd & Hin & Hjob). split; [|split]; cbn.
  - rewrite map_app. cbn. apply NoDup_app. split; [exact Hnd|].
    split; [|apply NoDup_singleton].
    intros k Hk Hk'. apply list_elem_of_In, in_map_iff in Hk as (j & <- & Hj).
    apply list_elem_of_In in Hk'. destruct Hk' as [Hk'|[]].
    apply Hfree.
    assert (job_key E (f_id f) m = job_dedupe_key E j) as -> by exact Hk'.
    now apply Hin.
  - intros j Hj. apply in_app_or in Hj as [Hj|[<-|[]]].
    + apply elem_of_union_r. now apply Hin.
    + apply elem_of_union_l. now apply elem_of_singleton.
  - intros k Hk. apply elem_of_union in Hk as [Hk|Hk].
    + apply elem_of_singleton in Hk. subst k.
      exists (reminder_job E f m). split; [|reflexivity].
      apply in_or_app. right. now left.
    + destruct (Hjob k Hk) as (j & Hj & Hkey). exists j.
      split; [|exact Hkey]. apply in_or_app. now left.
Qed.

Lemma run_events_ledger_ok (evs : list event) :
  ledger_ok E (run_events E evs initial_state).
Proof.
  apply (run_events_related E (keeps_ledger E)); unfold keeps_ledger; auto.
  - intros f m s _. apply ledger_ok_reserve.
  - apply ledger_ok_initial.
Qed.

(** C1: whatever boot, daily and manual pulls, subscriptions and job
    firings happen, in any order, from the start of the process: the job
    queue never receives two jobs for one pair (fixture id, offset); and
    once the key of a pair is in the ledger it stays there, and every
    later pass of [schedule_reminders_for_fixture] over any record
    schedules no job for that pair. *)
Theorem no_duplicate_jobs (evs : list event) :
  let s := run_events E evs initial_state in
  (forall (i j : nat) (a b : job),
      job_queue s !! i = Some a -> job_queue s !! j = Some b ->
      job_fixture_id a = job_fixture_id b -> job_offset a = job_offset b ->
      i = j)
  /\ (forall (id : json) (m : Z),
        job_key E id m ∈ SCHEDULED_KEYS s ->
        forall (later : list event) (fx : json),
          let s' := run_events E later s in
          job_key E id m ∈ SCHEDULED_KEYS s'
          /\ forall j,
               In j (new_jobs s' (snd (schedule_reminders_for_fixture E fx s'))) ->
               ~ (job_fixture_id j = id /\ job_offset j = m)).
Proof.
  intros s. split.
  - intros i j a b Ha Hb Hid Hoff.
    destruct (run_events_ledger_ok evs) as (Hnd & _). fold s in Hnd.
    apply (NoDup_lookup _ i j (job_dedupe_key E a) Hnd).
    + now rewrite list_lookup_fmap, Ha.
    + rewrite list_lookup_fmap, Hb. cbn. unfold job_dedupe_key.
      now rewrite Hid, Hoff.
  - intros id m Hkey later fx s'.
    assert (Hkey' : job_key E id m ∈ SCHEDULED_KEYS s').
    { destruct (run_events_grows later s) as [Hsub _]. now apply Hsub. }
    split; [exact Hkey'|]. intros j Hj [Hid Hoff].
    destruct (schedule_cases E fx s')
      as [(e & _ & Hrun)|(f & ms & _ & Hrun & _ & Hall & _)];
      rewrite Hrun in Hj; cbn [snd] in Hj.
    + rewrite new_jobs_same in Hj by reflexivity. destruct Hj.
    + rewrite (new_jobs_app _ _ (map (reminder_job E f) ms)) in Hj
        by (rewrite reserve_all_jobs; reflexivity).
      apply in_map_iff in Hj as (m' & <- & Hm').
      cbn in Hid, Hoff. subst id m'.
      rewrite Forall_forall in Hall. apply list_elem_of_In in Hm'.
      destruct (Hall m Hm') as [_ Hfree]. contradiction.
Qed.

End Ledger.

(** ** Broadcasts *)

Section Broadcast.

Variable E : Env.

Lemma new_sent_app (s s' : state) (l : list send_attempt) :
  outbox s' = outbox s ++ l -> new_sent s s' = l.
Proof. unfold new_sent. intros ->. now rewrite drop_app_length. Qed.

Lemma attempts_chats (msg : message) (t : nat) (chats : list Z) :
  map sent_chat (attempts E msg t chats) = chats.
Proof.
  revert t. induction chats as [|c chats IH]; intros t; cbn; [reflexivity|].
  now rewrite IH.
Qed.

Lemma attempts_text (msg : message) (t : nat) (chats : list Z) (a : send_attempt) :
  In a (attempts E msg t chats) -> sent_text a = msg.
Proof.
  revert t. induction chats as [|c chats IH]; intros t; cbn; [tauto|].
  intros [<-|Hin]; [reflexivity|]. now apply (IH (S t)).
Qed.

Lemma send_or_log_eq (msg : message) (failed : Z -> log_line) (c : Z) (s : state) :
  send_or_log E msg failed c tt s =
    let a := {| sent_chat := c; sent_text := msg;
                sent_ok := send_message E (ticks s) c msg |} in
    (Ok tt, if send_message E (ticks s) c msg
            then add_sent a (tick s)
            else add_log (failed c) (add_sent a (tick s))).
Proof.
  unfold send_or_log, bind, try_, bot_send_message.
  now destruct (send_message E (ticks s) c msg).
Qed.

(** The loop of a broadcast runs to its end whatever the transport
    answers, and tries every chat of the list once. *)
Lemma send_loop (msg : message) (failed : Z -> log_line) (chats : list Z) :
  forall s, exists s',
    for_each chats (send_or_log E msg failed) tt s = (Ok tt, s')
    /\ outbox s' = outbox s ++ attempts E msg (ticks s) chats
    /\ ticks s' = (ticks s + length chats)%nat
    /\ job_queue s' = job_queue s
    /\ SCHEDULED_KEYS s' = SCHEDULED_KEYS s
    /\ SUBSCRIBERS s' = SUBSCRIBERS s
    /\ LEAGUES_CACHE s' = LEAGUES_CACHE s.
Proof.
  induction chats as [|c chats IH]; intros s.
  - exists s. cbn. rewrite app_nil_r, Nat.add_0_r. tauto.
  - cbn [for_each attempts]. unfold bind at 1. rewrite send_or_log_eq.
    cbn beta iota zeta.
    match goal with
    | |- context [for_each chats _ tt ?s1] =>
        destruct (IH s1) as (s' & Hrun & Hout & Ht & Hq & Hk & Hu & Hc)
    end.
    exists s'. rewrite Hrun, Hout, Ht, Hq, Hk, Hu, Hc.
    destruct (send_message E (ticks s) c msg); cbn;
      rewrite <- app_assoc; cbn; repeat split; try reflexivity; lia.
Qed.

Lemma broadcast_spec (msg : message) (failed : Z -> log_line) (s : state) :
  exists s',
    broadcast E msg failed s = (Ok tt, s')
    /\ outbox s' = outbox s ++ attempts E msg (ticks s) (elements (SUBSCRIBERS s))
    /\ job_queue s' = job_queue s
    /\ SCHEDULED_KEYS s' = SCHEDULED_KEYS s
    /\ SUBSCRIBERS s' = SUBSCRIBERS s
    /\ LEAGUES_CACHE s' = LEAGUES_CACHE s.
Proof.
  unfold broadcast, bind, get_state.
  destruct (send_loop msg failed (elements (SUBSCRIBERS s)) s)
    as (s' & Hrun & Hout & _ & Hq & Hk & Hu & Hc).
  exists s'. rewrite Hrun. tauto.
Qed.

(** C6: a reminder firing and a digest broadcast never raise, whatever
    the transport does: each makes one delivery attempt per subscriber of
    the set as it is when the broadcast starts, the attempt for a chat
    being made whether or not the attempts before it failed. *)
Theorem broadcast_isolates_failures (s : state) :
  (forall d : job,
      let msg := ReminderMsg (job_label d) (job_home d) (job_away d)
                             (job_ko d) (job_league d) in
      let r := send_reminder_job E d s in
      fst r = Ok tt
      /\ new_sent s (snd r) = attempts E msg (ticks s) (elements (SUBSCRIBERS s))
      /\ map sent_chat (new_sent s (snd r)) = elements (SUBSCRIBERS s))
  /\ (forall countries_touched total_jobs : Z,
        let msg := DigestMsg countries_touched total_jobs in
        let r := send_digest E countries_touched total_jobs s in
        fst r = Ok tt
        /\ (SUBSCRIBERS s <> ∅ -> 0 < total_jobs ->
            new_sent s (snd r)
              = attempts E msg (ticks s) (elements (SUBSCRIBERS s))
            /\ map sent_chat (new_sent s (snd r)) = elements (SUBSCRIBERS s))).
Proof.
  split.
  - intros d msg r. subst r. unfold send_reminder_job. fold msg.
    destruct (broadcast_spec msg LogReminderFailed s) as (s' & -> & Hout & _).
    cbn [fst snd]. rewrite (new_sent_app _ _ _ Hout), attempts_chats. tauto.
  - intros c t msg r. subst r msg. unfold send_digest, bind, get_state.
    destruct (bool_decide (SUBSCRIBERS s <> ∅)) eqn:Hsub;
      destruct (0 <? t) eqn:Hpos; cbn [andb fst snd].
    + destruct (broadcast_spec (DigestMsg c t) LogDigestFailed s)
        as (s' & -> & Hout & _).
      cbn [fst snd]. rewrite (new_sent_app _ _ _ Hout), attempts_chats. tauto.
    + apply Z.ltb_ge in Hpos. split; [reflexivity|]. intros; lia.
    + apply bool_decide_eq_false in Hsub. split; [reflexivity|]. tauto.
    + apply bool_decide_eq_false in Hsub. split; [reflexivity|]. tauto.
Qed.

End Broadcast.

(** ** The counts of a cycle *)

Section Counts.

Variable E : Env.

Lemma hoare_ret {A} (P : state -> Prop) (a : A) (Q : A -> state -> Prop) :
  (forall s, P s -> Q a s) -> hoare P (ret a) Q.
Proof. intros H s Hs. cbn. auto. Qed.

Lemma hoare_lift {A} (P : state -> Prop) (x : outcome A) (Q : A -> state -> Prop) :
  (forall a s, x = Ok a -> P s -> Q a s) -> hoare P (lift x) Q.
Proof. intros H s Hs. unfold lift. destruct x; auto. Qed.

Lemma hoare_bind {A B} (P : state -> Prop) (m : M A) (Qm : A -> state -> Prop)
    (k : A -> M B) (Q : B -> state -> Prop) :
  hoare P m Qm -> (forall a, hoare (Qm a) (k a) Q) -> hoare P (bind m k) Q.
Proof.
  intros Hm Hk s Hs. unfold bind. specialize (Hm s Hs).
  destruct (m s) as [[a|e] s1]; [|exact I]. exact (Hk a s1 Hm).
Qed.

Lemma hoare_for_each {A B} (Inv : B -> state -> Prop) (l : list A)
    (body : A -> B -> M B) :
  (forall x acc, In x l -> hoare (Inv acc) (body x acc) Inv) ->
  forall acc, hoare (Inv acc) (for_each l body acc) Inv.
Proof.
  induction l as [|x l IH]; intros Hbody acc; cbn [for_each].
  - apply hoare_ret. auto.
  - eapply hoare_bind; [apply Hbody; now left|].
    intros acc'. apply IH. intros y acc'' Hy. apply Hbody. now right.
Qed.

(** A step that respects [R] keeps every property that [R] carries
    over. *)
Lemma hoare_moves {A} (R : state -> state -> Prop) (P : state -> Prop) (m : M A) :
  moves R m -> (forall s s', P s -> R s s' -> P s') -> hoare P m (fun _ => P).
Proof.
  intros Hm HP s Hs. specialize (Hm s).
  destruct (m s) as [[a|e] s1]; [|exact I]. exact (HP s s1 Hs Hm).
Qed.

Lemma same_jobs_refl s : same_jobs s s.
Proof. reflexivity. Qed.

Lemma same_jobs_trans a b c : same_jobs a b -> same_jobs b c -> same_jobs a c.
Proof. unfold same_jobs. congruence. Qed.

Lemma counted_same_jobs n0 s0 n s s' :
  counted n0 s0 n s -> same_jobs s s' -> counted n0 s0 n s'.
Proof. unfold counted, same_jobs. now intros H ->. Qed.

Lemma schedule_counted (n0 : Z) (s0 : state) (n : Z) (fx : json) :
  hoare (counted n0 s0 n) (schedule_reminders_for_fixture E fx)
        (fun k => counted n0 s0 (n + k)).
Proof.
  intros s Hs.
  destruct (schedule_cases E fx s) as [(e & _ & ->)|(f & ms & _ & -> & _)].
  - unfold counted in *. lia.
  - unfold counted in *. rewrite reserve_all_jobs, length_app, length_map.
    cbn. lia.
Qed.

Lemma fixture_step_counted (n0 : Z) (s0 : state) (today : date) (fx : json)
    (total : Z) :
  hoare (counted n0 s0 total) (fixture_step E today fx total) (counted n0 s0).
Proof.
  unfold fixture_step.
  destruct (fixture_kickoff E fx); [|apply hoare_ret; auto].
  destruct (negb _); [apply hoare_ret; auto|].
  eapply hoare_bind; [apply schedule_counted|].
  intros k. apply hoare_ret. auto.
Qed.

Lemma league_step_counted (n0 : Z) (s0 : state) (today : date)
    (country : string) (item : json) (total : Z) :
  hoare (counted n0 s0 total) (league_step E today country item total)
        (counted n0 s0).
Proof.
  assert (Hkeep : forall s s', counted n0 s0 total s -> same_jobs s s' ->
                               counted n0 s0 total s')
    by (intros s s'; apply counted_same_jobs).
  unfold league_step.
  eapply hoare_bind; [apply hoare_lift; intros ? ? _ H; exact H|]. intros league.
  eapply hoare_bind; [apply hoare_lift; intros ? ? _ H; exact H|]. intros seasons0.
  destruct (_ || _); [apply hoare_ret; auto|].
  eapply hoare_bind.
  { apply (hoare_moves same_jobs); [|exact Hkeep].
    apply (moves_pick_season E same_jobs);
      [exact same_jobs_refl|exact same_jobs_trans|reflexivity]. }
  intros season.
  eapply hoare_bind; [apply hoare_lift; intros ? ? _ H; exact H|]. intros league_id.
  destruct (negb _); [apply hoare_ret; auto|].
  unfold fetch_and_plan. eapply hoare_bind.
  { apply (hoare_moves same_jobs); [|exact Hkeep].
    apply (moves_try same_jobs).
    apply (moves_get_today_fixtures E same_jobs);
      [exact same_jobs_refl|exact same_jobs_trans|reflexivity|reflexivity]. }
  intros [fixtures|e].
  - eapply hoare_bind; [apply hoare_lift; intros ? ? _ H; exact H|]. intros fxs.
    apply (hoare_for_each (counted n0 s0)). intros fx acc _.
    apply fixture_step_counted.
  - eapply hoare_bind; [apply hoare_lift; intros ? ? _ H; exact H|]. intros name.
    eapply hoare_bind.
    { apply (hoare_moves same_jobs); [|exact Hkeep].
      apply (moves_modify same_jobs). reflexivity. }
    intros u. apply hoare_ret. auto.
Qed.

Lemma countries_counted (n0 : Z) (s0 : state) (today : date)
    (cache : list (string * list json)) (acc : Z * Z) :
  hoare (fun s => counted n0 s0 (snd acc) s)
        (for_each cache (country_step E today) acc)
        (fun acc' s => counted n0 s0 (snd acc') s
                       /\ fst acc' = fst acc + Z.of_nat (length cache)).
Proof.
  revert acc. induction cache as [|entry cache IH]; intros acc; cbn [for_each].
  - apply hoare_ret. intros s H. cbn. split; [exact H|lia].
  - apply (hoare_bind _ _ (fun a s => counted n0 s0 (snd a) s
                                       /\ fst a = fst acc + 1)).
    + unfold country_step. apply (hoare_bind _ _ (counted n0 s0)).
      * apply (hoare_for_each (counted n0 s0)). intros item total _.
        apply league_step_counted.
      * intros total. apply hoare_ret. intros s H. cbn. split; [exact H|lia].
    + intros acc1 s [Hc Hf]. specialize (IH acc1 s Hc).
      destruct (for_each cache _ acc1 s) as [[acc2|e] s2]; [|exact I].
      destruct IH as [Hc2 Hf2]. split; [exact Hc2|]. rewrite Hf2, Hf.
      cbn [length]. lia.
Qed.

End Counts.

(** ** The digest *)

Section Digest.

Variable E : Env.

Lemma pull_and_count_unsent (s : state) :
  unsent s (snd (pull_and_count E s)).
Proof.
  apply (moves_pull_and_count E unsent); unfold unsent; cbn; try tauto.
  intros a b c [-> ->] [-> ->]. tauto.
Qed.

Lemma countries_same_cache (today : date) (cache : list (string * list json))
    (acc : Z * Z) (s : state) :
  same_cache s (snd (for_each cache (country_step E today) acc s)).
Proof.
  apply (moves_countries E same_cache (fun _ => True) today);
    unfold same_cache; cbn; try tauto.
  intros a b c -> ->. reflexivity.
Qed.

Lemma ensure_same_jobs (s : state) :
  job_queue (snd (ensure_leagues_cache E s)) = job_queue s.
Proof.
  apply (moves_ensure_leagues_cache E (fun s s' => job_queue s' = job_queue s));
    cbn; try tauto.
  intros a b c -> ->. reflexivity.
Qed.

(** When the part before the digest returns, its two counts are the
    number of cached countries and the number of jobs it queued. *)
Lemma pull_and_count_counts (s : state) (countries total : Z) :
  fst (pull_and_count E s) = Ok (countries, total) ->
  let s1 := snd (pull_and_count E s) in
  countries = Z.of_nat (length (LEAGUES_CACHE s1))
  /\ total = Z.of_nat (length (new_jobs s s1)).
Proof.
  unfold pull_and_count, bind, now, get_state.
  pose proof (ensure_same_jobs s) as Hens.
  destruct (ensure_leagues_cache E s) as [[[]|e] se]; [|discriminate].
  cbn [snd] in Hens. cbn beta iota.
  pose proof (countries_counted E 0 (tick se) (date_of (clock E (ticks se)))
                (LEAGUES_CACHE (tick se)) (0, 0) (tick se)) as Hcnt.
  pose proof (countries_same_cache (date_of (clock E (ticks se)))
                (LEAGUES_CACHE (tick se)) (0, 0) (tick se)) as Hcache.
  pose proof (countries_grow E (date_of (clock E (ticks se)))
                (LEAGUES_CACHE (tick se)) (0, 0) (tick se)) as Hgrow.
  destruct (for_each _ _ _ _) as [[acc|e] s1]; [|discriminate].
  cbn [fst snd] in *. intros [= ->]. cbn zeta.
  unfold counted in Hcnt. destruct Hcnt as [Hc Hn]; [cbn; lia|]. cbn in Hc, Hn.
  destruct Hgrow as (_ & _ & [l Hl] & _). cbn in Hl.
  unfold same_cache in Hcache. cbn in Hcache.
  split.
  - rewrite Hcache. lia.
  - rewrite (new_jobs_app s s1 l) by (rewrite Hl, Hens; reflexivity).
    rewrite Hl, length_app in Hc. lia.
Qed.

Lemma attempts_nil_iff (msg : message) (t : nat) (chats : list Z) :
  attempts E msg t chats = [] <-> chats = [].
Proof. destruct chats; cbn; split; congruence. Qed.

(** C9: in a cycle that reaches its end, the digest, carrying the number
    of cached countries the cycle went through and the number of jobs it
    newly scheduled, is sent if and only if that number of jobs is
    positive and there is a subscriber; it then goes to every subscriber,
    and nothing else is sent. *)
Theorem digest_iff_jobs_and_subscribers (s : state) :
  fst (pull_and_schedule E s) = Ok tt ->
  let s' := snd (pull_and_schedule E s) in
  let scheduled := Z.of_nat (length (new_jobs s s')) in
  let countries := Z.of_nat (length (LEAGUES_CACHE s')) in
  (new_sent s s' <> [] <-> 0 < scheduled /\ SUBSCRIBERS s' <> ∅)
  /\ (forall a, In a (new_sent s s') ->
        sent_text a = DigestMsg countries scheduled)
  /\ (0 < scheduled -> map sent_chat (new_sent s s') = elements (SUBSCRIBERS s')).
Proof.
  unfold pull_and_schedule, bind.
  pose proof (pull_and_count_counts s) as Hcounts.
  pose proof (pull_and_count_unsent s) as [Hout Hsubs].
  destruct (pull_and_count E s) as [[[c t]|e] s1]; [|discriminate].
  cbn [fst snd] in *. destruct (Hcounts c t eq_refl) as [Hc Ht].
  intros _. unfold send_digest, bind, get_state.
  destruct (bool_decide (SUBSCRIBERS s1 <> ∅)) eqn:Hsub;
    destruct (0 <? t) eqn:Hpos; cbn beta iota zeta delta [andb ret snd].
  - destruct (broadcast_spec E (DigestMsg c t) LogDigestFailed s1)
      as (s' & -> & Ho & Hq & _ & Hu & Hca).
    cbn beta iota zeta delta [snd]. apply bool_decide_eq_true in Hsub. apply Z.ltb_lt in Hpos.
    assert (Hnew : new_jobs s s' = new_jobs s s1)
      by (unfold new_jobs; now rewrite Hq).
    rewrite (new_sent_app s s' (attempts E (DigestMsg c t) (ticks s1)
                                  (elements (SUBSCRIBERS s1))))
      by (rewrite Ho, Hout; reflexivity).
    rewrite Hnew, Hca, Hu, <- Hc, <- Ht.
    split; [|split].
    + rewrite attempts_nil_iff. split; [tauto|]. intros _ Hnil.
      apply elements_empty_inv in Hnil. apply leibniz_equiv in Hnil. tauto.
    + apply attempts_text.
    + intros _. apply attempts_chats.
  - apply Z.ltb_ge in Hpos.
    rewrite (new_sent_app s s1 []) by (rewrite Hout, app_nil_r; reflexivity).
    rewrite <- Ht. split; [|split].
    + split; [congruence|lia].
    + intros a [].
    + lia.
  - apply bool_decide_eq_false in Hsub.
    rewrite (new_sent_app s s1 []) by (rewrite Hout, app_nil_r; reflexivity).
    rewrite <- Ht. split; [|split].
    + split; [congruence|tauto].
    + intros a [].
    + intros _. cbn. assert (SUBSCRIBERS s1 = ∅) as ->
        by (destruct (decide (SUBSCRIBERS s1 = ∅)); [assumption|tauto]).
      now rewrite elements_empty.
  - apply bool_decide_eq_false in Hsub.
    rewrite (new_sent_app s s1 []) by (rewrite Hout, app_nil_r; reflexivity).
    rewrite <- Ht. split; [|split].
    + split; [congruence|tauto].
    + intros a [].
    + intros _. cbn. assert (SUBSCRIBERS s1 = ∅) as ->
        by (destruct (decide (SUBSCRIBERS s1 = ∅)); [assumption|tauto]).
      now rewrite elements_empty.
Qed.

End Digest.

(** ** The day filter *)

Section DayFilter.

Variable E : Env.

Lemma bind_ext {A B} (m : M A) (k k' : A -> M B) (s : state) :
  (forall a s1, k a s1 = k' a s1) -> bind m k s = bind m k' s.
Proof. intros H. unfold bind. destruct (m s) as [[a|e] s1]; auto. Qed.

Lemma dated_refl today s : dated today s s.
Proof. exists []. now rewrite app_nil_r. Qed.

Lemma dated_trans today a b c :
  dated today a b -> dated today b c -> dated today a c.
Proof.
  intros (l1 & H1 & F1) (l2 & H2 & F2). exists (l1 ++ l2).
  rewrite H2, H1, app_assoc. split; [reflexivity|]. now apply Forall_app.
Qed.

Lemma dated_same today s s' : job_queue s' = job_queue s -> dated today s s'.
Proof. intros H. exists []. now rewrite app_nil_r. Qed.

Lemma countries_dated (today : date) (cache : list (string * list json))
    (acc : Z * Z) (s : state) :
  dated today s (snd (for_each cache (country_step E today) acc s)).
Proof.
  apply (moves_countries E (dated today)
           (fun f => date_of (f_ko f) = today) today);
    try (intros; apply dated_same; reflexivity); auto using dated_refl.
  - apply dated_trans.
  - intros f m s0 Hday _ _. exists [reminder_job E f m]. split; [reflexivity|].
    constructor; [exact Hday|constructor].
Qed.

Lemma send_digest_same_jobs (c t : Z) (s : state) :
  job_queue (snd (send_digest E c t s)) = job_queue s.
Proof.
  apply (moves_send_digest E (fun s s' => job_queue s' = job_queue s));
    cbn; try tauto.
  intros a b c' -> ->. reflexivity.
Qed.

(** C8: the fixture loop of a cycle treats a fetched list exactly as the
    planner treats the fixtures of the list whose kick-off, converted to
    the reference timezone, falls on [today]: a fixture of another day
    (or without a usable date) is passed over without any effect.
    Hence every job queued by the loops of a cycle, and by a whole
    cycle, belongs to a fixture kicking off on the day the cycle read
    from the clock. *)
Theorem only_todays_fixtures_planned (today : date) :
  (forall (fxs : list json) (total_jobs : Z) (s : state),
      for_each fxs (fixture_step E today) total_jobs s
      = for_each (List.filter (on_day E today) fxs)
          (fun fx total => n <- schedule_reminders_for_fixture E fx ;;
                           ret (total + n))
          total_jobs s)
  /\ (forall (fx : json) (total_jobs : Z) (s : state),
        on_day E today fx = false ->
        fixture_step E today fx total_jobs s = (Ok total_jobs, s))
  /\ (forall (cache : list (string * list json)) (acc : Z * Z) (s : state) (j : job),
        In j (new_jobs s (snd (for_each cache (country_step E today) acc s))) ->
        date_of (job_ko j) = today)
  /\ (forall (s : state) (j : job),
        today = date_of (clock E (ticks (snd (ensure_leagues_cache E s)))) ->
        In j (new_jobs s (snd (pull_and_schedule E s))) ->
        date_of (job_ko j) = today).
Proof.
  assert (Hskip : forall fx total_jobs s,
             on_day E today fx = false ->
             fixture_step E today fx total_jobs s = (Ok total_jobs, s)).
  { intros fx total_jobs s. unfold on_day, fixture_step.
    destruct (fixture_kickoff E fx) as [ko|e]; [|reflexivity].
    now intros ->. }
  assert (Hloops : forall cache acc s j,
             In j (new_jobs s (snd (for_each cache (country_step E today) acc s))) ->
             date_of (job_ko j) = today).
  { intros cache acc s j Hj.
    destruct (countries_dated today cache acc s) as (l & Hl & Hall).
    rewrite (new_jobs_app _ _ l Hl) in Hj.
    rewrite Forall_forall in Hall. apply Hall. now apply list_elem_of_In. }
  split; [|split; [exact Hskip|split; [exact Hloops|]]].
  - induction fxs as [|fx fxs IH]; intros total_jobs s; [reflexivity|].
    cbn [for_each List.filter].
    destruct (on_day E today fx) eqn:Hday.
    + cbn [for_each]. unfold fixture_step at 1. unfold on_day in Hday.
      destruct (fixture_kickoff E fx) as [ko|e]; [|discriminate].
      rewrite Hday. cbn [negb].
      unfold bind at 1 3 4. unfold bind at 1.
      destruct (schedule_reminders_for_fixture E fx s) as [[n|e] s1];
        [|reflexivity].
      cbn. apply IH.
    + unfold bind at 1. rewrite (Hskip _ _ _ Hday). apply IH.
  - intros s j Htoday.
    unfold pull_and_schedule, bind at 1.
    pose proof (ensure_same_jobs E s) as Hens.
    assert (Hcount : exists l,
               job_queue (snd (pull_and_count E s)) = job_queue s ++ l
               /\ Forall (fun j => date_of (job_ko j) = today) l).
    { unfold pull_and_count, bind, now, get_state.
      destruct (ensure_leagues_cache E s) as [[[]|e] se];
        cbn [snd] in *; [|exists []; now rewrite app_nil_r].
      cbn beta iota. rewrite <- Htoday.
      destruct (countries_dated today (LEAGUES_CACHE (tick se)) (0, 0) (tick se))
        as (l & Hl & Hall).
      exists l. split; [|exact Hall].
      destruct (for_each _ _ _ _) as [[acc|e] s1]; cbn [snd] in *;
        rewrite Hl; cbn; now rewrite Hens. }
    destruct Hcount as (l & Hl & Hall).
    destruct (pull_and_count E s) as [[counts|e] s1]; cbn [snd] in *.
    + intros Hj. unfold new_jobs in Hj.
      rewrite send_digest_same_jobs, Hl, drop_app_length in Hj.
      rewrite Forall_forall in Hall. apply Hall. now apply list_elem_of_In.
    + intros Hj. rewrite (new_jobs_app _ _ l Hl) in Hj.
      rewrite Forall_forall in Hall. apply Hall. now apply list_elem_of_In.
Qed.

End DayFilter.

(** ** The season of a request *)

Section Season.

Variable E : Env.

Lemma subscript_last_app (l : list json) (entry : json) :
  subscript_last (JList (l ++ [entry])) = Ok entry.
Proof. unfold subscript_last. rewrite map_app. cbn [map]. now rewrite last_last. Qed.

Lemma new_calls_app (s s' : state) (l : list api_call) :
  api_calls s' = api_calls s ++ l -> new_calls s s' = l.
Proof. unfold new_calls. intros ->. now rewrite drop_app_length. Qed.

Lemma fixtures_loop_same_calls (today : date) (fxs : list json) (total : Z)
    (s : state) :
  api_calls (snd (for_each fxs (fixture_step E today) total s)) = api_calls s.
Proof.
  apply (moves_for_each (fun s s' => api_calls s' = api_calls s)).
  - reflexivity.
  - intros a b c -> ->. reflexivity.
  - intros fx acc _.
    apply (moves_fixture_step E (fun s s' => api_calls s' = api_calls s)
             (fun _ => True) today); cbn; try tauto.
    intros a b c -> ->. reflexivity.
Qed.

Lemma latest_season_year_last (l : list json) (entry : json) (y : Z) :
  season_year entry = Some y ->
  Forall (fun e => forall y', season_year e = Some y' -> y' <= y) l ->
  latest_season_year (l ++ [entry]) = Some y.
Proof.
  intros Hy. induction 1 as [|e l He _ IH]; cbn.
  - now rewrite Hy.
  - fold (latest_season_year (l ++ [entry])). rewrite IH.
    destruct (season_year e) as [y'|] eqn:Hy'; [|reflexivity].
    f_equal. specialize (He y' eq_refl). lia.
Qed.

Lemma dict_get_is_dict (v d x : json) (k : string) :
  dict_get v k d = Ok x -> is_dict v = true.
Proof. destruct v; cbn; congruence. Qed.

Lemma is_dict_get (v d : json) (k : string) :
  is_dict v = true -> exists x, dict_get v k d = Ok x.
Proof. destruct v; cbn; try discriminate. eauto. Qed.

Lemma fetch_and_plan_eq (today : date) (country : string)
    (league league_id season : json) (total : Z) (s : state) :
  fetch_and_plan E today country league league_id season total s =
    let a := api_fixtures E (ticks s) league_id season today in
    let s2 := add_call (CallFixtures league_id season today a) (tick s) in
    match obind (match a with Some d => Ok d | None => Raise HTTPError end)
                (fun data => dict_get data "response" (JList [])) with
    | Ok fixtures =>
        match py_iter fixtures with
        | Ok fxs => for_each fxs (fixture_step E today) total s2
        | Raise e => (Raise e, s2)
        end
    | Raise _ =>
        match dict_get league "name" JNull with
        | Ok name => (Ok total, add_log (LogFetchFailed country name) s2)
        | Raise e => (Raise e, s2)
        end
    end.
Proof.
  unfold fetch_and_plan, bind at 1, try_, get_today_fixtures_for_league.
  unfold bind at 1, http_fixtures. cbn zeta.
  destruct (api_fixtures E (ticks s) league_id season today) as [data|];
    cbn [obind].
  - unfold lift at 1.
    destruct (dict_get data "response" (JList [])) as [fixtures|e].
    + unfold bind at 1, lift at 1. now destruct (py_iter fixtures).
    + unfold bind at 1, lift at 1. now destruct (dict_get league "name" JNull).
  - unfold bind at 1, lift at 1. now destruct (dict_get league "name" JNull).
Qed.

(** [league_step] on a league record with a league, an id and a last
    season entry, run up to the answer of the provider: the season asked
    for is the year of that entry, or the current year. *)
Lemma league_step_fetch (today : date) (country : string)
    (item league league_id entry year : json) (earlier : list json)
    (total : Z) (s : state) :
  dict_get item "league" (JObj []) = Ok league ->
  truthy league = true ->
  dict_get item "seasons" JNull = Ok (JList (earlier ++ [entry])) ->
  dict_get entry "year" JNull = Ok year ->
  dict_get league "id" JNull = Ok league_id ->
  truthy league_id = true ->
  let season := if truthy year then year
                else JNum (year_of (clock E (ticks s))) in
  let s1 := if truthy year then s else tick s in
  league_step E today country item total s
  = fetch_and_plan E today country league league_id season total s1.
Proof.
  intros Hleague Htl Hseasons Hyear Hid Htid season s1.
  assert (Hts : truthy (py_or (JList (earlier ++ [entry])) (JList [])) = true)
    by (unfold py_or; now destruct earlier).
  assert (Hor : py_or (JList (earlier ++ [entry])) (JList [])
                = JList (earlier ++ [entry]))
    by (unfold py_or; now destruct earlier).
  assert (Hpick : pick_season E (JList (earlier ++ [entry])) s = (Ok season, s1)).
  { unfold pick_season, bind, lift. rewrite subscript_last_app, Hyear.
    subst season s1. now destruct (truthy year). }
  unfold league_step. unfold bind at 1, lift at 1. rewrite Hleague.
  unfold bind at 1, lift at 1. rewrite Hseasons, Htl, Hts, Hor. cbn [negb orb].
  unfold bind at 1. rewrite Hpick.
  unfold bind at 1, lift at 1. rewrite Hid, Htid. reflexivity.
Qed.

(** Whatever the provider answers, the block around the fetch makes one
    request. *)
Lemma fetch_and_plan_request (today : date) (country : string)
    (league league_id season : json) (total : Z) (s : state) :
  is_dict league = true ->
  fixtures_requests
    (new_calls s (snd (fetch_and_plan E today country league league_id season
                         total s)))
  = [(league_id, season, today)].
Proof.
  intros Hleague. destruct (is_dict_get league JNull "name" Hleague) as [name Hname].
  rewrite fetch_and_plan_eq. cbn zeta. rewrite Hname.
  set (a := api_fixtures E (ticks s) league_id season today).
  assert (Hone : forall s3,
             api_calls s3
             = api_calls s ++ [CallFixtures league_id season today a] ->
             fixtures_requests (new_calls s s3) = [(league_id, season, today)]).
  { intros s3 H3. now rewrite (new_calls_app s s3 _ H3). }
  destruct (obind _ _) as [fixtures|e]; [|now apply Hone].
  destruct (py_iter fixtures) as [fxs|e]; [|now apply Hone].
  apply Hone. now rewrite fixtures_loop_same_calls.
Qed.

(** The one fixtures request of [league_step] for a league record with a
    league, an id and a last season entry. *)
Lemma league_step_requests (today : date) (country : string)
    (item league league_id entry year : json) (earlier : list json)
    (total_jobs : Z) (s : state) :
  dict_get item "league" (JObj []) = Ok league ->
  truthy league = true ->
  dict_get item "seasons" JNull = Ok (JList (earlier ++ [entry])) ->
  dict_get entry "year" JNull = Ok year ->
  dict_get league "id" JNull = Ok league_id ->
  truthy league_id = true ->
  let season := if truthy year then year
                else JNum (year_of (clock E (ticks s))) in
  fixtures_requests
    (new_calls s (snd (league_step E today country item total_jobs s)))
  = [(league_id, season, today)].
Proof.
  intros Hleague Htl Hseasons Hyear Hid Htid season.
  rewrite (league_step_fetch today country item league league_id entry year
             earlier total_jobs s Hleague Htl Hseasons Hyear Hid Htid).
  cbn zeta. fold season.
  pose proof (fetch_and_plan_request today country league league_id season
                total_jobs (if truthy year then s else tick s)
                (dict_get_is_dict _ _ _ _ Hid)) as Hreq.
  unfold new_calls in *. now destruct (truthy year).
Qed.

(** C7, as amended: for a cached league with a league record, a league
    id and at least one season, the last one a dict as the provider sends
    them, [league_step] makes exactly one fixtures request, for that
    league and for today.  When the seasons are listed in chronological
    order (no earlier entry carries a later year than the last entry) and
    the last entry carries a year, the request is for the latest
    (maximum) season year among the league's seasons; when the last entry
    carries no year, or a null, zero or otherwise false one, the request
    is for the current year.  Nothing is said of the season asked for
    when the seasons are not in that order. *)
Theorem season_is_latest_when_ordered (today : date) (country : string)
    (item league league_id entry year : json) (earlier : list json)
    (total_jobs : Z) (s : state) :
  dict_get item "league" (JObj []) = Ok league ->
  truthy league = true ->
  dict_get item "seasons" JNull = Ok (JList (earlier ++ [entry])) ->
  dict_get entry "year" JNull = Ok year ->
  dict_get league "id" JNull = Ok league_id ->
  truthy league_id = true ->
  let requests :=
    fixtures_requests
      (new_calls s (snd (league_step E today country item total_jobs s))) in
  (exists season, requests = [(league_id, season, today)])
  /\ (forall y, year = JNum y -> y <> 0 ->
        Forall (fun e => forall y', season_year e = Some y' -> y' <= y) earlier ->
        latest_season_year (earlier ++ [entry]) = Some y
        /\ requests = [(league_id, JNum y, today)])
  /\ (truthy year = false ->
      requests = [(league_id, JNum (year_of (clock E (ticks s))), today)]).
Proof.
  intros Hleague Htl Hseasons Hyear Hid Htid requests.
  pose proof (league_step_requests today country item league league_id entry
                year earlier total_jobs s Hleague Htl Hseasons Hyear Hid Htid)
    as Hreq.
  cbn zeta in Hreq. fold requests in Hreq. split; [|split].
  - eexists. exact Hreq.
  - intros y -> Hy Hsorted. split.
    + apply latest_season_year_last; [|exact Hsorted].
      unfold season_year. now rewrite Hyear.
    + rewrite Hreq. cbn [truthy].
      destruct (Z.eqb_spec y 0) as [|_]; [contradiction|]. reflexivity.
  - intros Hfalsy. rewrite Hreq, Hfalsy. reflexivity.
Qed.

End Season.

(** ** Fetch failures *)

Section FetchFailure.

Variable E : Env.

Lemma new_log_app (s s' : state) (l : list log_line) :
  log s' = log s ++ l -> new_log s s' = l.
Proof. unfold new_log. intros ->. now rewrite drop_app_length. Qed.


(** *** Served requests are planned *)















(** *** The cycle completes *)

Lemma returns_ret {A} (a : A) : returns (ret a).
Proof. intros s. now exists a. Qed.

Lemma returns_bind {A B} (m : M A) (k : A -> M B) :
  returns m -> (forall a, returns (k a)) -> returns (bind m k).
Proof.
  intros Hm Hk s. unfold bind. destruct (Hm s) as [a Ha].
  destruct (m s) as [[a'|e] s1]; cbn in Ha; [|discriminate]. apply Hk.
Qed.

Lemma returns_try {A} (m : M A) : returns (try_ m).
Proof. intros s. unfold try_. destruct (m s) as [r s1]. now exists r. Qed.

Lemma returns_modify (g : state -> state) : returns (modify g).
Proof. intros s. now exists tt. Qed.

Lemma returns_get_state : returns get_state.
Proof. intros s. now exists s. Qed.

Lemma returns_for_each {A B} (l : list A) (body : A -> B -> M B) :
  (forall x acc, In x l -> returns (body x acc)) ->
  forall acc, returns (for_each l body acc).
Proof.
  induction l as [|x l IH]; intros Hbody acc; cbn [for_each].
  - apply returns_ret.
  - apply returns_bind; [apply Hbody; now left|].
    intros acc'. apply IH. intros y a Hy. apply Hbody. now right.
Qed.

Lemma ensure_country_returns (c : string) (u : unit) :
  returns (ensure_country E c u).
Proof.
  unfold ensure_country.
  apply returns_bind; [apply returns_get_state|]. intros s0.
  destruct (cache_has _ _); [apply returns_ret|].
  apply returns_bind; [apply returns_try|]. intros [leagues|e].
  - apply returns_bind; [apply returns_modify|]. intros _. apply returns_modify.
  - apply returns_modify.
Qed.

Lemma ensure_returns : returns (ensure_leagues_cache E).
Proof.
  unfold ensure_leagues_cache. apply returns_for_each. intros c u _.
  apply ensure_country_returns.
Qed.










End FetchFailure.

(** ** Pulling again *)

Section Repull.

Variable E : Env.

Hypothesis clock_monotone :
  forall t t', (t <= t')%nat -> clock E t <= clock E t'.
Hypothesis same_day :
  forall t t', date_of (clock E t) = date_of (clock E t').
Hypothesis same_leagues :
  forall t t' c, api_leagues E t c = api_leagues E t' c.
Hypothesis same_fixtures :
  forall t t' i y d, api_fixtures E t i y d = api_fixtures E t' i y d.

Lemma idle_refl (s : state) : idle s s.
Proof. unfold idle. repeat split; reflexivity. Qed.

Lemma idle_trans (a b c : state) : idle a b -> idle b c -> idle a c.
Proof.
  intros (K1 & J1 & C1 & U1 & O1 & T1) (K2 & J2 & C2 & U2 & O2 & T2).
  unfold idle. rewrite K2, J2, C2, U2, O2. repeat split; auto. lia.
Qed.

Lemma later_grows (s s1 s2 : state) : grows s s1 -> later s1 s2 -> later s s2.
Proof. intros (K & T & _) [K' T']. split; [set_solver|lia]. Qed.

Lemma later_idle (s1 s2 s2' : state) : later s1 s2 -> idle s2 s2' -> later s1 s2'.
Proof. intros [K T] (K' & _ & _ & _ & _ & T'). split; [now rewrite K'|lia]. Qed.

Lemma replays_ret {A} (V : A -> A -> Prop) (a1 a2 : A) :
  V a1 a2 -> replays V (ret a1) (ret a2).
Proof. intros HV s s2 _. split; [apply idle_refl|exact HV]. Qed.

Lemma replays_lift {A} (x : outcome A) : replays eq (lift x) (lift x).
Proof. intros s s2 _. split; [apply idle_refl|]. now destruct x. Qed.

Lemma replays_bind {A B} (V : A -> A -> Prop) (W : B -> B -> Prop)
    (m1 m2 : M A) (k1 k2 : A -> M B) :
  replays V m1 m2 ->
  (forall a1, moves grows (k1 a1)) ->
  (forall a1 a2, V a1 a2 -> replays W (k1 a1) (k2 a2)) ->
  replays W (bind m1 k1) (bind m2 k2).
Proof.
  intros Hm Hg Hk s s2 Hlater. unfold bind in *.
  specialize (Hm s s2).
  destruct (m1 s) as [[a1|e1] sa]; cbn [fst snd] in *.
  - destruct Hm as [Hidle Hout].
    { apply (later_grows sa (snd (k1 a1 sa))); [apply Hg|exact Hlater]. }
    destruct (m2 s2) as [[a2|e2] s2a]; cbn [fst snd] in *; [|destruct Hout].
    destruct (Hk a1 a2 Hout sa s2a) as [Hidle' Hout'].
    { now apply (later_idle _ s2). }
    split; [now apply (idle_trans s2 s2a)|exact Hout'].
  - destruct (Hm Hlater) as [Hidle Hout].
    destruct (m2 s2) as [[a2|e2] s2a]; cbn [fst snd] in *; [destruct Hout|].
    split; [exact Hidle|exact I].
Qed.

Lemma replays_for_each {A B} (V : B -> B -> Prop) (l : list A)
    (body : A -> B -> M B) :
  (forall x acc, moves grows (body x acc)) ->
  (forall x a1 a2, In x l -> V a1 a2 -> replays V (body x a1) (body x a2)) ->
  forall a1 a2, V a1 a2 -> replays V (for_each l body a1) (for_each l body a2).
Proof.
  intros Hg. induction l as [|x l IH]; intros Hbody a1 a2 HV; cbn [for_each].
  - now apply replays_ret.
  - apply (replays_bind V V).
    + apply Hbody; [now left|exact HV].
    + intros a. apply (moves_for_each grows grows_refl grows_trans). auto.
    + intros b1 b2 Hb. apply IH; [|exact Hb].
      intros y c1 c2 Hy. apply Hbody. now right.
Qed.

Lemma replays_weaken {A} (V W : A -> A -> Prop) (m1 m2 : M A) :
  (forall a1 a2, V a1 a2 -> W a1 a2) -> replays V m1 m2 -> replays W m1 m2.
Proof.
  intros HVW H s s2 Hl. destruct (H s s2 Hl) as [Hi Ho]. split; [exact Hi|].
  destruct (fst (m1 s)), (fst (m2 s2)); cbn in *; auto.
Qed.

(** *** The parts of the cycle *)

Lemma schedule_replays (fx : json) :
  replays (fun _ n2 => n2 = 0)
          (schedule_reminders_for_fixture E fx)
          (schedule_reminders_for_fixture E fx).
Proof.
  intros s s2 [Hsub Ht].
  destruct (schedule_cases E fx s)
    as [(e & Hread & Hrun)|(f & ms & Hread & Hrun & _ & _ & _ & Hcov)];
    rewrite Hrun in *; cbn [fst snd] in *.
  - unfold schedule_reminders_for_fixture. rewrite Hread.
    split; [apply idle_refl|reflexivity].
  - destruct (reserve_all_frame E f ms (tick s)) as (_&_&_&_&_&Hticks).
    rewrite Hticks in Ht. cbn in Ht.
    assert (Hrun2 : schedule_reminders_for_fixture E fx s2 = (Ok 0, tick s2)).
    { unfold schedule_reminders_for_fixture. rewrite Hread.
      unfold bind, now.
      destruct (f_ko f <=? clock E (ticks s2)) eqn:Hko; [reflexivity|].
      apply offsets_loop_idle. intros m Hm Hdue. cbn.
      apply Hsub. apply Hcov; [exact Hm|].
      pose proof (clock_monotone (ticks s) (ticks s2)). lia. }
    rewrite Hrun2. cbn [fst snd]. split; [|reflexivity].
    unfold idle. cbn. repeat split; lia.
Qed.

Lemma fixture_step_replays (today : date) (fx : json) (t1 t2 : Z) :
  replays (fun _ t => t = t2)
          (fixture_step E today fx t1) (fixture_step E today fx t2).
Proof.
  unfold fixture_step.
  destruct (fixture_kickoff E fx); [|now apply replays_ret].
  destruct (negb _); [now apply replays_ret|].
  apply (replays_bind (fun _ n2 => n2 = 0) _).
  - apply schedule_replays.
  - intros n. apply (moves_ret grows grows_refl).
  - intros n1 n2 ->. apply replays_ret. lia.
Qed.

Lemma fixture_step_moves_grows (today : date) (fx : json) (t : Z) :
  moves grows (fixture_step E today fx t).
Proof.
  apply (moves_fixture_step E grows (fun _ => True) today);
    auto using grows_refl, grows_tick, grows_reserve.
  exact grows_trans.
Qed.

Lemma get_today_fixtures_replays (i y : json) (d : date) :
  replays eq (get_today_fixtures_for_league E i y d)
             (get_today_fixtures_for_league E i y d).
Proof.
  intros s s2 _. unfold get_today_fixtures_for_league, bind, http_fixtures, lift.
  rewrite (same_fixtures (ticks s2) (ticks s)).
  destruct (api_fixtures E (ticks s) i y d) as [data|]; cbn [fst snd].
  - split; [unfold idle; cbn; repeat split; lia|].
    now destruct (dict_get data "response" (JList [])).
  - split; [unfold idle; cbn; repeat split; lia|exact I].
Qed.

Lemma replays_try {A} (V : A -> A -> Prop) (m1 m2 : M A) :
  replays V m1 m2 -> replays (same_outcome V) (try_ m1) (try_ m2).
Proof.
  intros H s s2 Hl. unfold try_ in *. specialize (H s s2).
  destruct (m1 s) as [r1 s1], (m2 s2) as [r2 s2']. cbn [fst snd] in *.
  exact (H Hl).
Qed.

Lemma replays_log (l : log_line) :
  replays (fun _ _ => True) (modify (add_log l)) (modify (add_log l)).
Proof.
  intros s s2 _. split; [|exact I]. unfold idle. cbn. repeat split; lia.
Qed.

Lemma fetch_and_plan_replays (today : date) (country : string)
    (league league_id season : json) (t1 t2 : Z) :
  replays (fun _ t => t = t2)
          (fetch_and_plan E today country league league_id season t1)
          (fetch_and_plan E today country league league_id season t2).
Proof.
  unfold fetch_and_plan.
  apply (replays_bind (same_outcome eq) _).
  - apply replays_try, get_today_fixtures_replays.
  - intros [fixtures|e].
    + apply (moves_bind grows grows_trans); [apply (moves_lift grows grows_refl)|].
      intros fxs. apply (moves_for_each grows grows_refl grows_trans).
      intros fx acc _. apply fixture_step_moves_grows.
    + apply (moves_bind grows grows_trans); [apply (moves_lift grows grows_refl)|].
      intros name. apply (moves_bind grows grows_trans).
      * apply (moves_modify grows). apply grows_log.
      * intros _. apply (moves_ret grows grows_refl).
  - intros [f1|e1] [f2|e2] Hout; cbn in Hout; try destruct Hout.
    + apply (replays_bind eq _); [apply replays_lift| |].
      * intros fxs. apply (moves_for_each grows grows_refl grows_trans).
        intros fx acc _. apply fixture_step_moves_grows.
      * intros fxs ? <-. apply replays_for_each; [| |reflexivity].
        -- intros fx acc. apply fixture_step_moves_grows.
        -- intros fx a1 a2 _ ->. apply fixture_step_replays.
    + apply (replays_bind eq _); [apply replays_lift| |].
      * intros name. apply (moves_bind grows grows_trans).
        -- apply (moves_modify grows). apply grows_log.
        -- intros _. apply (moves_ret grows grows_refl).
      * intros name ? <-. apply (replays_bind (fun _ _ => True) _).
        -- apply replays_log.
        -- intros _. apply (moves_ret grows grows_refl).
        -- intros _ _ _. now apply replays_ret.
Qed.

Lemma now_replays :
  replays (fun n1 n2 => date_of n1 = date_of n2) (now E) (now E).
Proof.
  intros s s2 _. unfold now. cbn [fst snd].
  split; [unfold idle; cbn; repeat split; lia|apply same_day].
Qed.

Lemma pick_season_replays (seasons : json) :
  replays eq (pick_season E seasons) (pick_season E seasons).
Proof.
  unfold pick_season.
  apply (replays_bind eq _); [apply replays_lift| |].
  { intros latest. apply (moves_bind grows grows_trans);
      [apply (moves_lift grows grows_refl)|].
    intros year. destruct (truthy year); [apply (moves_ret grows grows_refl)|].
    apply (moves_bind grows grows_trans); [apply (moves_now E grows grows_tick)|].
    intros n. apply (moves_ret grows grows_refl). }
  intros latest ? <-.
  apply (replays_bind eq _); [apply replays_lift| |].
  { intros year. destruct (truthy year); [apply (moves_ret grows grows_refl)|].
    apply (moves_bind grows grows_trans); [apply (moves_now E grows grows_tick)|].
    intros n. apply (moves_ret grows grows_refl). }
  intros year ? <-.
  destruct (truthy year); [now apply replays_ret|].
  apply (replays_bind (fun n1 n2 => date_of n1 = date_of n2) _).
  - apply now_replays.
  - intros n. apply (moves_ret grows grows_refl).
  - intros n1 n2 Hday. apply replays_ret. unfold year_of. now rewrite Hday.
Qed.

Lemma pick_season_moves_grows (seasons : json) :
  moves grows (pick_season E seasons).
Proof.
  apply (moves_pick_season E grows grows_refl grows_trans grows_tick).
Qed.

Lemma fetch_and_plan_moves_grows (today : date) (country : string)
    (league league_id season : json) (t : Z) :
  moves grows (fetch_and_plan E today country league league_id season t).
Proof.
  apply (moves_fetch_and_plan E grows (fun _ => True) today);
    auto using grows_refl, grows_tick, grows_log, grows_call, grows_reserve.
  exact grows_trans.
Qed.

Ltac grows_tac :=
  repeat first
    [ apply (moves_ret grows grows_refl)
    | apply (moves_lift grows grows_refl)
    | apply fetch_and_plan_moves_grows
    | apply pick_season_moves_grows
    | apply (moves_bind grows grows_trans); [|intros ?]
    | match goal with
      | |- moves grows (if ?b then _ else _) => destruct b
      end ].

Lemma league_step_replays (today : date) (country : string) (item : json)
    (t1 t2 : Z) :
  replays (fun _ t => t = t2)
          (league_step E today country item t1)
          (league_step E today country item t2).
Proof.
  unfold league_step.
  apply (replays_bind eq _); [apply replays_lift| |].
  { intros league. grows_tac. }
  intros league ? <-.
  apply (replays_bind eq _); [apply replays_lift| |].
  { intros seasons0. grows_tac. }
  intros seasons0 ? <-.
  destruct (_ || _); [now apply replays_ret|].
  apply (replays_bind eq _); [apply pick_season_replays| |].
  { intros season. grows_tac. }
  intros season ? <-.
  apply (replays_bind eq _); [apply replays_lift| |].
  { intros league_id. grows_tac. }
  intros league_id ? <-.
  destruct (negb _); [now apply replays_ret|].
  apply fetch_and_plan_replays.
Qed.

Lemma country_step_replays (today : date) (entry : string * list json)
    (a1 a2 : Z * Z) :
  snd a2 = 0 ->
  replays (fun _ a => snd a = 0)
          (country_step E today entry a1) (country_step E today entry a2).
Proof.
  intros Hzero. unfold country_step.
  apply (replays_bind (fun _ t => t = snd a2) _).
  - apply replays_for_each; [| |reflexivity].
    + intros item acc s. apply league_step_grows.
    + intros item b1 b2 _ ->. apply league_step_replays.
  - intros t. grows_tac.
  - intros t1 t2 ->. now apply replays_ret.
Qed.

Lemma countries_replay (today : date) (cache : list (string * list json))
    (a1 a2 : Z * Z) :
  snd a2 = 0 ->
  replays (fun _ a => snd a = 0)
          (for_each cache (country_step E today) a1)
          (for_each cache (country_step E today) a2).
Proof.
  intros Hzero. apply replays_for_each; [| |exact Hzero].
  - intros entry acc s.
    apply (moves_country_step E grows (fun _ => True) today);
      auto using grows_refl, grows_tick, grows_log, grows_call, grows_reserve.
    exact grows_trans.
  - intros entry b1 b2 _ Hb. now apply country_step_replays.
Qed.

(** *** The league cache settles *)

Lemma get_leagues_outcome (c : string) (s s' : state) :
  fst (get_current_leagues_for_country E c s)
  = fst (get_current_leagues_for_country E c s').
Proof.
  unfold get_current_leagues_for_country, bind, http_leagues, lift.
  rewrite (same_leagues (ticks s') (ticks s)).
  destruct (api_leagues E (ticks s) c) as [data|]; [|reflexivity].
  destruct (dict_get data "response" (JList [])) as [resp|]; [|reflexivity].
  destruct (py_iter resp) as [xs|]; reflexivity.
Qed.

Lemma get_leagues_idle (c : string) (s : state) :
  idle s (snd (get_current_leagues_for_country E c s)).
Proof.
  apply (moves_get_current_leagues E idle).
  - apply idle_refl.
  - apply idle_trans.
  - intros s0. unfold idle. cbn. repeat split; lia.
  - intros c0 a s0. unfold idle. cbn. repeat split; lia.
Qed.

Lemma cache_has_app (c : string) (a b : list (string * list json)) :
  cache_has c (a ++ b) = cache_has c a || cache_has c b.
Proof. unfold cache_has. apply existsb_app. Qed.

Lemma ensure_loop_appends (cs : list string) (s : state) :
  exists l, LEAGUES_CACHE (snd (for_each cs (ensure_country E) tt s))
            = LEAGUES_CACHE s ++ l.
Proof.
  apply (moves_for_each
           (fun s s' => exists l, LEAGUES_CACHE s' = LEAGUES_CACHE s ++ l)).
  - intros s0. exists []. now rewrite app_nil_r.
  - intros a b c [l1 H1] [l2 H2]. exists (l1 ++ l2).
    now rewrite H2, H1, app_assoc.
  - intros c u _.
    apply (moves_ensure_country E
             (fun s s' => exists l, LEAGUES_CACHE s' = LEAGUES_CACHE s ++ l));
      try (intros; exists []; cbn; now rewrite app_nil_r).
    + intros a b c' [l1 H1] [l2 H2]. exists (l1 ++ l2).
      now rewrite H2, H1, app_assoc.
    + intros entry s0. now exists [entry].
Qed.

Lemma ensure_country_settles (c : string) (s : state) :
  settled E [c] (LEAGUES_CACHE (snd (ensure_country E c tt s))).
Proof.
  intros c' [<-|[]]. unfold ensure_country, bind, get_state.
  destruct (cache_has c (LEAGUES_CACHE s)) eqn:Hhas; [now left|].
  unfold try_.
  pose proof (get_leagues_outcome c s) as Hout.
  destruct (get_current_leagues_for_country E c s) as [[leagues|e] s1];
    cbn [fst snd] in *.
  - left. unfold modify. cbn [snd LEAGUES_CACHE set_cache add_log].
    rewrite cache_has_app. cbn. rewrite String.eqb_refl.
    now rewrite orb_true_r.
  - right. exists e. intros s'. now rewrite <- Hout.
Qed.

Lemma ensure_loop_settles (cs : list string) :
  forall s, settled E cs (LEAGUES_CACHE (snd (for_each cs (ensure_country E) tt s))).
Proof.
  induction cs as [|c cs IH]; intros s; [intros c []|].
  destruct (ensure_country_returns E c tt s) as [[] Hret].
  pose proof (ensure_country_settles c s) as Hc.
  destruct (ensure_country E c tt s) as [[[]|e] s1] eqn:Hstep;
    cbn [fst snd] in *; [|discriminate].
  rewrite (for_each_cons_ok _ _ _ _ _ _ _ Hstep).
  intros c' [<-|Hin]; [|now apply IH].
  destruct (Hc c (or_introl eq_refl)) as [Hhas|Hraise]; [|now right].
  left. destruct (ensure_loop_appends cs s1) as [l ->].
  rewrite cache_has_app, Hhas. reflexivity.
Qed.

Lemma ensure_loop_idle (cs : list string) :
  forall s, settled E cs (LEAGUES_CACHE s) ->
            idle s (snd (for_each cs (ensure_country E) tt s)).
Proof.
  induction cs as [|c cs IH]; intros s Hset; [apply idle_refl|].
  assert (Hstep : exists s1, ensure_country E c tt s = (Ok tt, s1) /\ idle s s1).
  { unfold ensure_country, bind, get_state.
    destruct (Hset c (or_introl eq_refl)) as [->|[e Hraise]];
      [exists s; split; [reflexivity|apply idle_refl]|].
    destruct (cache_has c (LEAGUES_CACHE s));
      [exists s; split; [reflexivity|apply idle_refl]|].
    unfold try_. specialize (Hraise s).
    pose proof (get_leagues_idle c s) as Hidle.
    destruct (get_current_leagues_for_country E c s) as [[leagues|e'] s1];
      cbn [fst snd] in *; [discriminate|].
    exists (add_log (LogCacheFailed c) s1). split; [reflexivity|].
    apply (idle_trans s s1); [exact Hidle|].
    unfold idle. cbn. repeat split; lia. }
  destruct Hstep as (s1 & Hstep & Hidle).
  rewrite (for_each_cons_ok _ _ _ _ _ _ _ Hstep).
  apply (idle_trans s s1); [exact Hidle|]. apply IH.
  destruct Hidle as (_ & _ & -> & _). intros c' Hc'. apply Hset. now right.
Qed.

(** *** The second cycle *)

Lemma pull_and_count_eq (s : state) :
  pull_and_count E s =
    let se := snd (ensure_leagues_cache E s) in
    for_each (LEAGUES_CACHE se)
      (country_step E (date_of (clock E (ticks se)))) (0, 0) (tick se).
Proof.
  unfold pull_and_count, bind, now, get_state.
  destruct (ensure_returns E s) as [[] Hret].
  now destruct (ensure_leagues_cache E s) as [[[]|e] se]; cbn [fst snd] in *.
Qed.

Lemma send_digest_idle_cache (c t : Z) (s : state) :
  LEAGUES_CACHE (snd (send_digest E c t s)) = LEAGUES_CACHE s.
Proof.
  apply (moves_send_digest E (fun s s' => LEAGUES_CACHE s' = LEAGUES_CACHE s));
    cbn; try tauto.
  intros a b c' -> ->. reflexivity.
Qed.

Lemma send_digest_zero (c : Z) (s : state) : send_digest E c 0 s = (Ok tt, s).
Proof.
  unfold send_digest, bind, get_state. cbn. now rewrite andb_false_r.
Qed.

Lemma pull_again (s : state) :
  let s1 := snd (pull_and_schedule E s) in
  idle s1 (snd (pull_and_count E s1))
  /\ (forall c t, fst (pull_and_count E s1) = Ok (c, t) -> t = 0).
Proof.
  cbn zeta.
  (* the first cycle *)
  set (se := snd (ensure_leagues_cache E s)).
  set (today := date_of (clock E (ticks se))).
  set (sl := snd (for_each (LEAGUES_CACHE se) (country_step E today) (0, 0)
                    (tick se))).
  set (s1 := snd (pull_and_schedule E s)).
  assert (Hs1 : grows sl s1 /\ LEAGUES_CACHE s1 = LEAGUES_CACHE se).
  { subst s1 sl. unfold pull_and_schedule, bind. rewrite pull_and_count_eq.
    cbn zeta. fold se. fold today.
    pose proof (countries_same_cache E today (LEAGUES_CACHE se) (0, 0) (tick se))
      as Hcache. cbn in Hcache.
    destruct (for_each (LEAGUES_CACHE se) (country_step E today) (0, 0) (tick se))
      as [[counts|e] sl']; cbn [snd] in *.
    - split.
      + apply (moves_send_digest E grows);
          auto using grows_refl, grows_tick, grows_sent, grows_log.
        exact grows_trans.
      + now rewrite send_digest_idle_cache.
    - split; [apply grows_refl|exact Hcache]. }
  destruct Hs1 as [Hgrow Hcache1].
  (* the second cycle *)
  rewrite pull_and_count_eq. cbn zeta.
  pose proof (ensure_loop_idle COUNTRIES s1) as Hens.
  fold (ensure_leagues_cache E) in Hens.
  set (se2 := snd (ensure_leagues_cache E s1)) in *.
  assert (Hidle1 : idle s1 se2).
  { apply Hens. rewrite Hcache1. apply ensure_loop_settles. }
  assert (Hcache2 : LEAGUES_CACHE se2 = LEAGUES_CACHE se).
  { destruct Hidle1 as (_ & _ & -> & _). exact Hcache1. }
  rewrite Hcache2, (same_day (ticks se2) (ticks se)). fold today.
  destruct (countries_replay today (LEAGUES_CACHE se) (0, 0) (0, 0) eq_refl
              (tick se) (tick se2)) as [Hidle2 Hout].
  { fold sl. destruct Hgrow as (K & T & _).
    destruct Hidle1 as (K1 & _ & _ & _ & _ & T1).
    split; cbn; [rewrite K1; exact K|lia]. }
  split.
  - apply (idle_trans s1 se2); [exact Hidle1|].
    apply (idle_trans se2 (tick se2)); [|exact Hidle2].
    unfold idle. cbn. repeat split; lia.
  - intros c t Hret. rewrite Hret in Hout.
    destruct (fst (for_each (LEAGUES_CACHE se) (country_step E today) (0, 0)
                     (tick se))); cbn in Hout; [exact Hout|destruct Hout].
Qed.

(** C2: with a clock that does not go back and stays on one day, and a
    provider whose answers do not change, a cycle run right after a
    cycle schedules nothing: its job count is 0, the job queue and the
    ledger stay as the first cycle left them, and no digest is sent. *)
Theorem repull_schedules_nothing (s : state) :
  let s1 := snd (pull_and_schedule E s) in
  let s2 := snd (pull_and_schedule E s1) in
  (forall countries total,
      fst (pull_and_count E s1) = Ok (countries, total) -> total = 0)
  /\ new_jobs s1 s2 = []
  /\ job_queue s2 = job_queue s1
  /\ SCHEDULED_KEYS s2 = SCHEDULED_KEYS s1
  /\ new_sent s1 s2 = [].
Proof.
  cbn zeta. destruct (pull_again s) as [Hidle Hzero]. cbn zeta in *.
  set (s1 := snd (pull_and_schedule E s)) in *.
  assert (Hs2 : snd (pull_and_schedule E s1) = snd (pull_and_count E s1)).
  { unfold pull_and_schedule, bind.
    destruct (pull_and_count E s1) as [[[c t]|e] sl2]; cbn [fst snd] in *;
      [|reflexivity].
    rewrite (Hzero c t eq_refl). now rewrite send_digest_zero. }
  rewrite Hs2. destruct Hidle as (K & J & _ & _ & O & _).
  split; [exact Hzero|]. split; [now apply new_jobs_same|].
  split; [exact J|]. split; [exact K|].
  apply new_sent_app. now rewrite O, app_nil_r.
Qed.

End Repull.

(** ** The statements at work on a concrete day *)

Section Examples.

Import Scenario.

Local Abbreviation booted := (run_events world boot_events initial_state).

(** The scenario of the specification: kick-off 14:00, now 13:50, offsets
    [60, 15, 0]: only the kick-off reminder is scheduled. *)
Example ten_minutes_before_kickoff :
  map job_name
      (job_queue (snd (schedule_reminders_for_fixture world clasico initial_state)))
  = ["fx:7:0"%string].
Proof. vm_compute. reflexivity. Qed.

(** Kick-off 14:00, now 12:30: all three reminders. *)
Example ninety_minutes_before_kickoff :
  map job_offset
      (job_queue
         (snd (schedule_reminders_for_fixture
                 (env (wall 2025 10 26 12 30 0) leagues_table fixtures_table [])
                 clasico initial_state)))
  = [60; 15; 0].
Proof. vm_compute. reflexivity. Qed.

(** Kick-off 14:00, now 14:05: nothing. *)
Example five_minutes_after_kickoff :
  schedule_reminders_for_fixture
    (env (wall 2025 10 26 14 5 0) leagues_table fixtures_table [])
    clasico initial_state
  = (Ok 0, tick initial_state).
Proof. vm_compute. reflexivity. Qed.

Example boot_pull_jobs :
  map job_name (job_queue after_boot)
  = ["fx:7:0"; "fx:8:60"; "fx:8:15"; "fx:8:0";
     "fx:11:60"; "fx:11:15"; "fx:11:0"]%string.
Proof. vm_compute. reflexivity. Qed.

(** C3 at 13:50 for the 14:00 kick-off: the kick-off reminder is
    scheduled, those of 60 and 15 minutes are not. *)
Lemma past_windows_skipped_witness :
  read_fixture world clasico = Ok clasico_fields
  /\ In (reminder_job world clasico_fields 0)
        (new_jobs initial_state
           (snd (schedule_reminders_for_fixture world clasico initial_state)))
  /\ (forall j,
        In j (new_jobs initial_state
                (snd (schedule_reminders_for_fixture world clasico initial_state))) ->
        job_offset j <> 60)
  /\ (forall j,
        In j (new_jobs initial_state
                (snd (schedule_reminders_for_fixture world clasico initial_state))) ->
        job_offset j <> 15).
Proof.
  destruct (past_windows_skipped world clasico clasico_fields initial_state
              eq_refl) as (_ & Hpast & Hdue).
  split; [reflexivity|]. split; [|split].
  - apply Hdue; [right; right; left; reflexivity|vm_compute; reflexivity|].
    apply not_elem_of_empty.
  - apply Hpast. vm_compute. discriminate.
  - apply Hpast. vm_compute. discriminate.
Defined.

(** C4 for a record without its teams. *)
Lemma malformed_fixture_skipped_witness :
  missing_field no_teams
  /\ schedule_reminders_for_fixture world no_teams booted = (Ok 0, booted)
  /\ fixture_step world today no_teams 7 booted = (Ok 7, booted).
Proof.
  assert (Hmiss : missing_field no_teams).
  { exists ["teams"; "home"; "name"]%string. split; [|reflexivity].
    right. left. reflexivity. }
  destruct (malformed_fixture_skipped world no_teams booted Hmiss)
    as (Hsched & Hstep & _).
  split; [exact Hmiss|]. split; [exact Hsched|apply Hstep].
Defined.

(** C1 after the boot pull: the key of the kick-off reminder of fixture 7
    is in the ledger, and a manual pull, or a direct pass over the
    fixture, adds no second job for it. *)
Lemma no_duplicate_jobs_witness :
  job_key world (JNum 7) 0 ∈ SCHEDULED_KEYS booted
  /\ job_key world (JNum 7) 0
     ∈ SCHEDULED_KEYS (run_events world [ManualPull] booted)
  /\ (forall j,
        In j (new_jobs (run_events world [ManualPull] booted)
                (snd (schedule_reminders_for_fixture world clasico
                        (run_events world [ManualPull] booted)))) ->
        ~ (job_fixture_id j = JNum 7 /\ job_offset j = 0)).
Proof.
  assert (Hkey : job_key world (JNum 7) 0 ∈ SCHEDULED_KEYS booted).
  { apply (bool_decide_unpack _). vm_compute. exact I. }
  destruct (no_duplicate_jobs world boot_events) as [_ Hlater].
  destruct (Hlater (JNum 7) 0 Hkey [ManualPull] clasico) as [Hstill Hnone].
  split; [exact Hkey|]. split; [exact Hstill|exact Hnone].
Defined.

(** C2: a second pull right after the boot pull. *)
Lemma repull_schedules_nothing_witness :
  let s1 := snd (pull_and_schedule world subscribed) in
  let s2 := snd (pull_and_schedule world s1) in
  length (job_queue s1) = 7%nat
  /\ (forall countries total,
        fst (pull_and_count world s1) = Ok (countries, total) -> total = 0)
  /\ new_jobs s1 s2 = []
  /\ job_queue s2 = job_queue s1
  /\ SCHEDULED_KEYS s2 = SCHEDULED_KEYS s1
  /\ new_sent s1 s2 = [].
Proof.
  split; [vm_compute; reflexivity|].
  apply (repull_schedules_nothing world).
  - intros t t' _. cbn. lia.
  - intros t t'. reflexivity.
  - intros t t' c. reflexivity.
  - intros t t' i y d. reflexivity.
Defined.

(** C6 with chat 2 unreachable: both chats are tried, chat 1 is served. *)
Lemma broadcast_isolates_failures_witness :
  SUBSCRIBERS subscribed <> ∅
  /\ 0 < 7
  /\ fst (send_digest world 2 7 subscribed) = Ok tt
  /\ map sent_chat
        (new_sent subscribed (snd (send_digest world 2 7 subscribed)))
     = elements (SUBSCRIBERS subscribed)
  /\ map (fun a => (sent_chat a, sent_ok a))
        (new_sent subscribed (snd (send_digest world 2 7 subscribed)))
     = [(2, false); (1, true)].
Proof.
  assert (Hsub : SUBSCRIBERS subscribed <> ∅).
  { intros H. apply (f_equal size) in H. vm_compute in H. discriminate. }
  destruct (broadcast_isolates_failures world subscribed) as [_ Hdigest].
  destruct (Hdigest 2 7) as [Hret Hall].
  destruct (Hall Hsub ltac:(lia)) as [_ Hchats].
  split; [exact Hsub|]. split; [lia|]. split; [exact Hret|].
  split; [exact Hchats|]. vm_compute. reflexivity.
Defined.

(** C9 for the boot pull with two subscribers: seven jobs in two cached
    countries, one digest per subscriber. *)
Lemma digest_iff_jobs_and_subscribers_witness :
  fst (pull_and_schedule world subscribed) = Ok tt
  /\ (forall a,
        In a (new_sent subscribed (snd (pull_and_schedule world subscribed))) ->
        sent_text a = DigestMsg 2 7)
  /\ map sent_chat
        (new_sent subscribed (snd (pull_and_schedule world subscribed)))
     = elements (SUBSCRIBERS (snd (pull_and_schedule world subscribed))).
Proof.
  assert (Hret : fst (pull_and_schedule world subscribed) = Ok tt)
    by (vm_compute; reflexivity).
  destruct (digest_iff_jobs_and_subscribers world subscribed Hret)
    as (_ & Htext & Hchats).
  split; [exact Hret|]. split.
  - intros a Ha. rewrite (Htext a Ha). vm_compute. reflexivity.
  - apply Hchats. vm_compute. reflexivity.
Defined.

(** C8 for the boot pull: the fixture that kicks off after midnight is
    passed over, and every job of the cycle is for the 26th. *)
Lemma only_todays_fixtures_planned_witness :
  on_day world today after_midnight = false
  /\ fixture_step world today after_midnight 1 subscribed = (Ok 1, subscribed)
  /\ today = date_of (clock world (ticks (snd (ensure_leagues_cache world subscribed))))
  /\ (forall j,
        In j (new_jobs subscribed (snd (pull_and_schedule world subscribed))) ->
        date_of (job_ko j) = today).
Proof.
  destruct (only_todays_fixtures_planned world today) as (_ & Hskip & _ & Hcycle).
  assert (Hday : on_day world today after_midnight = false)
    by (vm_compute; reflexivity).
  assert (Htoday : today = date_of (clock world
                      (ticks (snd (ensure_leagues_cache world subscribed)))))
    by reflexivity.
  split; [exact Hday|]. split; [exact (Hskip after_midnight 1 subscribed Hday)|].
  split; [exact Htoday|]. intros j Hj. exact (Hcycle subscribed j Htoday Hj).
Defined.

(** C7 as stated fails in two ways.  For a league whose seasons are
    listed latest first the request goes out for 2024, the last entry,
    while the latest season is 2025: the code takes the entry by its
    position, against its own comment [# pick latest season year].  For
    a league whose last entry carries no year the request goes out for
    the current year, 2025, while the latest season of the record is
    2024: that is the fallback the code writes out with [or]. *)
Lemma season_pick_counterexample :
  (fixtures_requests
     (new_calls initial_state
        (snd (league_step world today "Spain" latest_first 0 initial_state)))
   = [(JNum 140, JNum 2024, today)]
   /\ latest_season_year
        [JObj [("year"%string, JNum 2025)]; JObj [("year"%string, JNum 2024)]]
      = Some 2025
   /\ ~ requests_latest_season world today "Spain" latest_first 0 initial_state)
  /\ (fixtures_requests
        (new_calls initial_state
           (snd (league_step world today "Spain" yearless_last 0 initial_state)))
      = [(JNum 140, JNum 2025, today)]
      /\ latest_season_year
           [JObj [("year"%string, JNum 2024)];
            JObj [("current"%string, JBool true)]]
         = Some 2024
      /\ ~ requests_latest_season world today "Spain" yearless_last 0
            initial_state).
Proof.
  assert (Hreq1 : fixtures_requests
                    (new_calls initial_state
                       (snd (league_step world today "Spain" latest_first 0
                               initial_state)))
                  = [(JNum 140, JNum 2024, today)])
    by (vm_compute; reflexivity).
  assert (Hreq2 : fixtures_requests
                    (new_calls initial_state
                       (snd (league_step world today "Spain" yearless_last 0
                               initial_state)))
                  = [(JNum 140, JNum 2025, today)])
    by (vm_compute; reflexivity).
  split; (split; [assumption|]); (split; [reflexivity|]); intros Hclaim.
  - specialize (Hclaim [JObj [("year"%string, JNum 2025)];
                        JObj [("year"%string, JNum 2024)]]
                       eq_refl ltac:(discriminate)
                       (JNum 140) (JNum 2024) today).
    rewrite Hreq1 in Hclaim. specialize (Hclaim (or_introl eq_refl)).
    discriminate Hclaim.
  - specialize (Hclaim [JObj [("year"%string, JNum 2024)];
                        JObj [("current"%string, JBool true)]]
                       eq_refl ltac:(discriminate)
                       (JNum 140) (JNum 2025) today).
    rewrite Hreq2 in Hclaim. specialize (Hclaim (or_introl eq_refl)).
    discriminate Hclaim.
Qed.

(** C7 as amended, for La Liga with seasons 2024 and 2025. *)
Lemma season_is_latest_when_ordered_witness :
  latest_season_year
    ([JObj [("year"%string, JNum 2024)]] ++ [JObj [("year"%string, JNum 2025)]])
  = Some 2025
  /\ fixtures_requests
       (new_calls initial_state
          (snd (league_step world today "Spain"
                  (league 140 "La Liga" [2024; 2025]) 0 initial_state)))
     = [(JNum 140, JNum 2025, today)].
Proof.
  destruct (season_is_latest_when_ordered world today "Spain"
              (league 140 "La Liga" [2024; 2025])
              (JObj [("id"%string, JNum 140); ("name"%string, JStr "La Liga")])
              (JNum 140)
              (JObj [("year"%string, JNum 2025)]) (JNum 2025)
              [JObj [("year"%string, JNum 2024)]] 0 initial_state
              eq_refl eq_refl eq_refl eq_refl eq_refl eq_refl)
    as (_ & Hordered & _).
  apply (Hordered 2025 eq_refl); [discriminate|].
  constructor; [|constructor]. intros y' [= <-]. lia.
Defined.


End Examples.

(** * The rest of the worker *)

(** ** Fetching the leagues of a country *)

Section Leagues.

Variable E : Env.

Lemma keep_with_league_ok (xs ls : list json) :
  keep_with_league xs = Ok ls ->
  ls = List.filter has_league xs /\ Forall (fun x => is_dict x = true) xs.
Proof.
  revert ls. induction xs as [|x xs IH]; intros ls; cbn [keep_with_league].
  - intros [= <-]. split; [reflexivity|constructor].
  - unfold has_league. cbn [List.filter].
    destruct (dict_get x "league" JNull) as [l|e] eqn:Hget; cbn [obind];
      [|discriminate].
    destruct (keep_with_league xs) as [kept|e]; cbn [obind]; [|discriminate].
    destruct (IH kept eq_refl) as [-> Hall]. intros [= <-].
    split; [reflexivity|]. constructor; [|exact Hall].
    now apply (dict_get_is_dict x JNull l "league").
Qed.

Lemma keep_with_league_dicts (xs : list json) :
  Forall (fun x => is_dict x = true) xs ->
  keep_with_league xs = Ok (List.filter has_league xs).
Proof.
  induction 1 as [|x xs Hx _ IH]; [reflexivity|].
  cbn [keep_with_league List.filter]. unfold has_league.
  destruct (is_dict_get x JNull "league" Hx) as [l ->]. cbn [obind].
  rewrite IH. reflexivity.
Qed.

Lemma has_league_filter (xs : list json) :
  Forall (fun x => has_league x = true) (List.filter has_league xs).
Proof.
  apply Forall_forall. intros x Hx. apply list_elem_of_In in Hx.
  now apply filter_In in Hx.
Qed.

(** Every run of [get_current_leagues_for_country] makes one request,
    and changes nothing else. *)
Lemma get_leagues_state (c : string) (s : state) :
  snd (get_current_leagues_for_country E c s)
  = add_call (CallLeagues c (api_leagues E (ticks s) c)) (tick s).
Proof.
  unfold get_current_leagues_for_country, bind, http_leagues, lift.
  destruct (api_leagues E (ticks s) c) as [data|]; [|reflexivity].
  destruct (dict_get data "response" (JList [])) as [resp|]; [|reflexivity].
  destruct (py_iter resp) as [xs|]; reflexivity.
Qed.

Lemma get_leagues_result (country : string) (s : state) (leagues : list json) :
  fst (get_current_leagues_for_country E country s) = Ok leagues ->
  exists data response xs,
    api_leagues E (ticks s) country = Some data
    /\ dict_get data "response" (JList []) = Ok response
    /\ py_iter response = Ok xs
    /\ Forall (fun x => is_dict x = true) xs
    /\ leagues = List.filter has_league xs
    /\ Forall (fun x => has_league x = true) leagues.
Proof.
  unfold get_current_leagues_for_country, bind, http_leagues, lift.
  destruct (api_leagues E (ticks s) country) as [data|]; [|discriminate].
  destruct (dict_get data "response" (JList [])) as [resp|] eqn:Hresp;
    [|discriminate].
  destruct (py_iter resp) as [xs|] eqn:Hxs; [|discriminate].
  cbn [fst]. intros Hkeep.
  destruct (keep_with_league_ok xs leagues Hkeep) as [-> Hall].
  exists data, resp, xs.
  split; [reflexivity|]. split; [exact Hresp|]. split; [exact Hxs|].
  split; [exact Hall|]. split; [reflexivity|apply has_league_filter].
Qed.

(** X1: when [get_current_leagues_for_country] returns, the provider
    answered a dict; what was iterated under its ["response"] (nothing
    when the key is absent) were dicts, and the result is these records
    in the order sent, without those whose ["league"] is absent or
    false.  Whether it returns or raises, its only effect is the one
    request it records. *)
Theorem current_leagues_filtered (country : string) (s : state) :
  let r := get_current_leagues_for_country E country s in
  snd r = add_call (CallLeagues country (api_leagues E (ticks s) country)) (tick s)
  /\ forall leagues, fst r = Ok leagues ->
       exists data response xs,
         api_leagues E (ticks s) country = Some data
         /\ dict_get data "response" (JList []) = Ok response
         /\ py_iter response = Ok xs
         /\ Forall (fun x => is_dict x = true) xs
         /\ leagues = List.filter has_league xs
         /\ Forall (fun x => has_league x = true) leagues.
Proof.
  intros r. subst r. split; [apply get_leagues_state|].
  intros leagues. apply get_leagues_result.
Qed.

(** X2: the ways [get_current_leagues_for_country] fails: the request
    fails; the answer is no dict; what is under ["response"] cannot be
    iterated; or one of the records is no dict, in which case the
    records that are fine are lost with it. *)
Theorem current_leagues_failures (country : string) (s : state) :
  let r := fst (get_current_leagues_for_country E country s) in
  (api_leagues E (ticks s) country = None -> r = Raise HTTPError)
  /\ (forall data, api_leagues E (ticks s) country = Some data ->
        (is_dict data = false -> r = Raise AttributeError)
        /\ forall response,
             dict_get data "response" (JList []) = Ok response ->
             (forall e, py_iter response = Raise e -> r = Raise e)
             /\ forall xs, py_iter response = Ok xs ->
                  (Forall (fun x => is_dict x = true) xs ->
                   r = Ok (List.filter has_league xs))
                  /\ (Exists (fun x => is_dict x = false) xs ->
                      r = Raise AttributeError)).
Proof.
  intros r. subst r.
  unfold get_current_leagues_for_country, bind, http_leagues, lift.
  split; [intros ->; reflexivity|].
  intros data ->. split.
  - intros Hd. destruct data; try discriminate; reflexivity.
  - intros response ->. split; [intros e ->; reflexivity|].
    intros xs ->. cbn [fst]. split.
    + apply keep_with_league_dicts.
    + induction 1 as [x xs Hx|x xs _ IH]; cbn [keep_with_league].
      * destruct x; try discriminate; reflexivity.
      * rewrite IH. destruct x; reflexivity.
Qed.

End Leagues.

(** ** Filling the league cache *)

Section Cache.

Variable E : Env.

Lemma cache_has_In (c : string) (cache : list (string * list json)) :
  cache_has c cache = true <-> In c (map fst cache).
Proof.
  unfold cache_has. rewrite existsb_exists, in_map_iff. split.
  - intros (kv & Hin & Heq). apply String.eqb_eq in Heq. now exists kv.
  - intros (kv & Heq & Hin). exists kv. split; [exact Hin|].
    now apply String.eqb_eq.
Qed.

Lemma cache_has_other (c c' : string) (ls : list json)
    (cache : list (string * list json)) :
  c' <> c -> cache_has c' (cache ++ [(c, ls)]) = cache_has c' cache.
Proof.
  intros Hne. rewrite cache_has_app. cbn.
  apply String.eqb_neq in Hne. rewrite Hne. now rewrite !orb_false_r.
Qed.

(** One turn of the loop of [ensure_leagues_cache], in full. *)
Lemma ensure_country_eq (c : string) (s : state) :
  ensure_country E c tt s =
    (Ok tt,
     if cache_has c (LEAGUES_CACHE s) then s
     else
       let s1 := add_call (CallLeagues c (api_leagues E (ticks s) c)) (tick s) in
       match fst (get_current_leagues_for_country E c s) with
       | Ok leagues =>
           add_log (LogCached (length leagues) c)
                   (set_cache (LEAGUES_CACHE s ++ [(c, leagues)]) s1)
       | Raise _ => add_log (LogCacheFailed c) s1
       end).
Proof.
  unfold ensure_country, bind, get_state.
  destruct (cache_has c (LEAGUES_CACHE s)); [reflexivity|].
  unfold try_. pose proof (get_leagues_state E c s) as Hs.
  destruct (get_current_leagues_for_country E c s) as [[leagues|e] s1].
  - cbn [fst snd] in *. subst s1. reflexivity.
  - cbn [fst snd] in *. subst s1. reflexivity.
Qed.

Lemma leagues_requests_app (a b : list api_call) :
  leagues_requests (a ++ b) = leagues_requests a ++ leagues_requests b.
Proof. unfold leagues_requests. now rewrite flat_map_app. Qed.

Lemma fixtures_requests_app (a b : list api_call) :
  fixtures_requests (a ++ b) = fixtures_requests a ++ fixtures_requests b.
Proof. unfold fixtures_requests. now rewrite flat_map_app. Qed.

(** The loop over a list of pairwise different countries. *)
Lemma ensure_loop_spec (cs : list string) :
  NoDup cs ->
  forall s, exists s' calls added lg,
    for_each cs (ensure_country E) tt s = (Ok tt, s')
    /\ api_calls s' = api_calls s ++ calls
    /\ leagues_requests calls
       = List.filter (fun c => negb (cache_has c (LEAGUES_CACHE s))) cs
    /\ fixtures_requests calls = []
    /\ LEAGUES_CACHE s' = LEAGUES_CACHE s ++ added
    /\ Forall (fun entry => In (fst entry) cs
                            /\ cache_has (fst entry) (LEAGUES_CACHE s) = false
                            /\ Forall (fun x => has_league x = true) (snd entry))
              added
    /\ NoDup (map fst added)
    /\ log s' = log s ++ lg
    /\ (forall c, In c cs ->
          cache_has c (LEAGUES_CACHE s') = true \/ In (LogCacheFailed c) lg)
    /\ job_queue s' = job_queue s
    /\ SCHEDULED_KEYS s' = SCHEDULED_KEYS s
    /\ outbox s' = outbox s
    /\ SUBSCRIBERS s' = SUBSCRIBERS s.
Proof.
  induction 1 as [|c cs Hc Hnd IH]; intros s.
  - exists s, [], [], []. cbn [for_each List.filter leagues_requests
                               fixtures_requests flat_map map].
    rewrite !app_nil_r.
    split; [reflexivity|]. split; [reflexivity|]. split; [reflexivity|].
    split; [reflexivity|]. split; [reflexivity|]. split; [constructor|].
    split; [constructor|]. split; [reflexivity|].
    split; [intros c []|now repeat split].
  - cbn [for_each]. unfold bind at 1. rewrite ensure_country_eq.
    cbn [List.filter].
    destruct (cache_has c (LEAGUES_CACHE s)) eqn:Hhas; cbn [negb].
    + destruct (IH s)
        as (s' & calls & added & lg & Hrun & Hcalls & Hreq & Hfx & Hcache
            & Hadded & Hnda & Hlog & Hset & Hq & Hk & Ho & Hu).
      exists s', calls, added, lg. rewrite Hrun.
      split; [reflexivity|]. split; [exact Hcalls|]. split; [exact Hreq|].
      split; [exact Hfx|]. split; [exact Hcache|].
      split; [|split; [exact Hnda|]; split; [exact Hlog|];
               split; [|now repeat split]].
      * eapply Forall_impl; [exact Hadded|]. intros entry (H1 & H2 & H3).
        split; [now right|]. now split.
      * intros c' [<-|Hin]; [|now apply Hset].
        left. rewrite Hcache, cache_has_app, Hhas. reflexivity.
    + set (a := api_leagues E (ticks s) c).
      set (s1 := add_call (CallLeagues c a) (tick s)).
      assert (Hrest : forall cache' ls,
                 cache' = LEAGUES_CACHE s \/ cache' = LEAGUES_CACHE s ++ [(c, ls)] ->
                 List.filter (fun c' => negb (cache_has c' cache')) cs
                 = List.filter (fun c' => negb (cache_has c' (LEAGUES_CACHE s))) cs).
      { intros cache' ls [-> | ->]; [reflexivity|].
        apply filter_ext_in. intros c' Hin.
        rewrite cache_has_other; [reflexivity|]. intros ->.
        apply Hc. now apply list_elem_of_In. }
      pose proof (get_leagues_result E c s) as Hok.
      destruct (fst (get_current_leagues_for_country E c s)) as [leagues|e].
      * destruct (Hok leagues eq_refl) as (_ & _ & _ & _ & _ & _ & _ & _ & Hall).
        destruct (IH (add_log (LogCached (length leagues) c)
                        (set_cache (LEAGUES_CACHE s ++ [(c, leagues)]) s1)))
          as (s' & calls & added & lg & Hrun & Hcalls & Hreq & Hfx & Hcache
              & Hadded & Hnda & Hlog & Hset & Hq & Hk & Ho & Hu).
        cbn [api_calls LEAGUES_CACHE log job_queue SCHEDULED_KEYS outbox
             SUBSCRIBERS add_log set_cache add_call tick s1] in *.
        exists s', (CallLeagues c a :: calls), ((c, leagues) :: added),
               (LogCached (length leagues) c :: lg).
        rewrite Hrun, Hcalls, Hcache, Hlog, <- !app_assoc. cbn [app].
        split; [reflexivity|]. split; [reflexivity|].
        split; [change (leagues_requests (CallLeagues c a :: calls))
                  with (c :: leagues_requests calls);
                f_equal; rewrite Hreq; apply (Hrest _ leagues); now right|].
        split; [exact Hfx|]. split; [reflexivity|].
        split; [|split; [|split; [reflexivity|split; [|now repeat split]]]].
        -- constructor; [cbn; split; [now left|now split]|].
           eapply Forall_impl; [exact Hadded|]. intros entry (H1 & H2 & H3).
           split; [now right|]. split; [|exact H3].
           rewrite cache_has_app in H2. now apply orb_false_iff in H2.
        -- cbn. constructor; [|exact Hnda].
           intros Hin. apply list_elem_of_In, in_map_iff in Hin
             as (entry & Heq & Hin).
           rewrite Forall_forall in Hadded.
           apply list_elem_of_In in Hin.
           destruct (Hadded entry Hin) as (H1 & _). rewrite Heq in H1.
           apply Hc. now apply list_elem_of_In.
        -- intros c' [<-|Hin].
           ++ left. rewrite cache_has_app. unfold cache_has at 2.
              cbn [existsb fst]. rewrite String.eqb_refl. cbn [orb].
              apply orb_true_r.
           ++ destruct (Hset c' Hin) as [Hh|Hl]; [left|right; now right].
              now rewrite Hcache, <- app_assoc in Hh.
      * destruct (IH (add_log (LogCacheFailed c) s1))
          as (s' & calls & added & lg & Hrun & Hcalls & Hreq & Hfx & Hcache
              & Hadded & Hnda & Hlog & Hset & Hq & Hk & Ho & Hu).
        cbn [api_calls LEAGUES_CACHE log job_queue SCHEDULED_KEYS outbox
             SUBSCRIBERS add_log set_cache add_call tick s1] in *.
        exists s', (CallLeagues c a :: calls), added, (LogCacheFailed c :: lg).
        rewrite Hrun, Hcalls, Hlog, <- !app_assoc. cbn [app].
        split; [reflexivity|]. split; [reflexivity|].
        split; [change (leagues_requests (CallLeagues c a :: calls))
                  with (c :: leagues_requests calls);
                f_equal; exact Hreq|].
        split; [exact Hfx|]. split; [exact Hcache|].
        split; [|split; [exact Hnda|split; [reflexivity|split; [|now repeat split]]]].
        -- eapply Forall_impl; [exact Hadded|]. intros entry (H1 & H2 & H3).
           split; [now right|]. now split.
        -- intros c' [<-|Hin]; [right; now left|].
           destruct (Hset c' Hin) as [Hh|Hl]; [now left|right; now right].
Qed.

Lemma COUNTRIES_NoDup : NoDup COUNTRIES.
Proof.
  apply NoDup_ListNoDup. unfold COUNTRIES.
  repeat (constructor; [cbn; intros H; repeat destruct H as [H|H];
                        try discriminate H; exact H|]).
  constructor.
Qed.

Lemma cache_ok_app (cache added : list (string * list json)) :
  cache_ok cache ->
  Forall (fun entry => In (fst entry) COUNTRIES
                       /\ cache_has (fst entry) cache = false
                       /\ Forall (fun x => has_league x = true) (snd entry))
         added ->
  NoDup (map fst added) ->
  cache_ok (cache ++ added).
Proof.
  intros [Hnd Hall] Hadded Hnda. split.
  - rewrite map_app. apply NoDup_app. split; [exact Hnd|]. split; [|exact Hnda].
    intros c Hc Hc'. apply list_elem_of_In in Hc, Hc'.
    apply in_map_iff in Hc' as (entry & <- & Hin).
    rewrite Forall_forall in Hadded. apply list_elem_of_In in Hin.
    destruct (Hadded entry Hin) as (_ & Hfree & _).
    apply cache_has_In in Hc. congruence.
  - apply Forall_app. split; [exact Hall|].
    eapply Forall_impl; [exact Hadded|]. intros entry (H1 & _ & H3). now split.
Qed.

(** X3: [ensure_leagues_cache] never raises.  It asks the provider for
    the leagues of exactly the countries of [COUNTRIES] that the cache
    does not hold, once each and in the order of [COUNTRIES]: a cached
    country is not asked for again, a country whose fetch failed earlier
    is.  It asks for no fixtures, and leaves the ledger, the job queue,
    the outbox and the subscribers alone. *)
Theorem ensure_asks_for_uncached_only (s : state) :
  let r := ensure_leagues_cache E s in
  fst r = Ok tt
  /\ leagues_requests (new_calls s (snd r))
     = List.filter (fun c => negb (cache_has c (LEAGUES_CACHE s))) COUNTRIES
  /\ fixtures_requests (new_calls s (snd r)) = []
  /\ SCHEDULED_KEYS (snd r) = SCHEDULED_KEYS s
  /\ job_queue (snd r) = job_queue s
  /\ outbox (snd r) = outbox s
  /\ SUBSCRIBERS (snd r) = SUBSCRIBERS s.
Proof.
  intros r. subst r. unfold ensure_leagues_cache.
  destruct (ensure_loop_spec COUNTRIES COUNTRIES_NoDup s)
    as (s' & calls & added & lg & -> & Hcalls & Hreq & Hfx & _ & _ & _ & _ & _
        & Hq & Hk & Ho & Hu).
  cbn [fst snd]. rewrite (new_calls_app s s' calls Hcalls). tauto.
Qed.

(** X4: what [ensure_leagues_cache] leaves behind.  The entries the
    cache had are still there, unchanged and in place; the new entries
    come after them.  A cache that was in order is in order afterwards.
    Every country of [COUNTRIES] is then cached, or the failure of its
    fetch has been logged. *)
Theorem ensure_extends_cache (s : state) :
  let s' := snd (ensure_leagues_cache E s) in
  (exists added, LEAGUES_CACHE s' = LEAGUES_CACHE s ++ added)
  /\ (cache_ok (LEAGUES_CACHE s) -> cache_ok (LEAGUES_CACHE s'))
  /\ (forall c, In c COUNTRIES ->
        cache_has c (LEAGUES_CACHE s') = true
        \/ In (LogCacheFailed c) (new_log s s')).
Proof.
  intros s'. subst s'. unfold ensure_leagues_cache.
  destruct (ensure_loop_spec COUNTRIES COUNTRIES_NoDup s)
    as (s' & calls & added & lg & -> & _ & _ & _ & Hcache & Hadded & Hnda
        & Hlog & Hset & _).
  cbn [snd]. split; [now exists added|]. split.
  - intros Hok. rewrite Hcache. apply cache_ok_app; [exact Hok| |exact Hnda].
    eapply Forall_impl; [exact Hadded|]. intros entry (H1 & H2 & H3). now split.
  - intros c Hc. rewrite (new_log_app s s' lg Hlog). now apply Hset.
Qed.

End Cache.

(** ** The league cache over the life of the process *)

Section CacheTrace.

Variable E : Env.

Lemma quiet_refl (s : state) : quiet s s.
Proof. split; [reflexivity|]. exists []. now rewrite app_nil_r. Qed.

Lemma quiet_trans (a b c : state) : quiet a b -> quiet b c -> quiet a c.
Proof.
  intros [C1 (l1 & A1 & L1)] [C2 (l2 & A2 & L2)]. split; [congruence|].
  exists (l1 ++ l2). rewrite A2, A1, app_assoc, leagues_requests_app, L1, L2.
  now split.
Qed.

Lemma quiet_same (s s' : state) :
  LEAGUES_CACHE s' = LEAGUES_CACHE s -> api_calls s' = api_calls s -> quiet s s'.
Proof. intros Hc Ha. split; [exact Hc|]. exists []. now rewrite app_nil_r. Qed.

Lemma quiet_asked_fixtures (i y : json) (d : date) (a : option json) (s : state) :
  quiet s (add_call (CallFixtures i y d a) s).
Proof. split; [reflexivity|]. now exists [CallFixtures i y d a]. Qed.

Lemma fills_quiet (s s' : state) : quiet s s' -> fills s s'.
Proof.
  intros [Hc (calls & Ha & Hl)]. split; [|split].
  - exists []. now rewrite app_nil_r.
  - now rewrite Hc.
  - exists calls. split; [exact Ha|]. intros c _. now rewrite Hl.
Qed.

Lemma fills_refl (s : state) : fills s s.
Proof. apply fills_quiet, quiet_refl. Qed.

Lemma fills_trans (a b c : state) : fills a b -> fills b c -> fills a c.
Proof.
  intros ([d1 C1] & O1 & l1 & A1 & L1) ([d2 C2] & O2 & l2 & A2 & L2).
  split; [|split].
  - exists (d1 ++ d2). now rewrite C2, C1, app_assoc.
  - auto.
  - exists (l1 ++ l2). split; [now rewrite A2, A1, app_assoc|].
    intros x Hx. rewrite leagues_requests_app. intros Hin.
    apply in_app_or in Hin as [Hin|Hin]; [exact (L1 x Hx Hin)|].
    apply (L2 x); [|exact Hin]. rewrite C1, cache_has_app, Hx. reflexivity.
Qed.

Lemma ensure_fills (s : state) : fills s (snd (ensure_leagues_cache E s)).
Proof.
  unfold ensure_leagues_cache.
  destruct (ensure_loop_spec E COUNTRIES COUNTRIES_NoDup s)
    as (s' & calls & added & lg & -> & Hcalls & Hreq & _ & Hcache & Hadded
        & Hnda & _).
  cbn [snd]. split; [now exists added|]. split.
  - intros Hok. rewrite Hcache. apply cache_ok_app; [exact Hok| |exact Hnda].
    eapply Forall_impl; [exact Hadded|]. intros entry (H1 & H2 & H3). now split.
  - exists calls. split; [exact Hcalls|]. intros c Hc. rewrite Hreq.
    intros Hin. apply filter_In in Hin as [_ Hin]. now rewrite Hc in Hin.
Qed.

Lemma countries_quiet (today : date) (cache : list (string * list json))
    (acc : Z * Z) (s : state) :
  quiet s (snd (for_each cache (country_step E today) acc s)).
Proof.
  apply (moves_countries E quiet (fun _ => True) today);
    auto using quiet_refl, quiet_asked_fixtures.
  - exact quiet_trans.
  - intros s0. now apply quiet_same.
  - intros l s0. now apply quiet_same.
  - intros f m s0 _ _ _. now apply quiet_same.
Qed.

Lemma broadcast_quiet (msg : message) (failed : Z -> log_line) (s : state) :
  quiet s (snd (broadcast E msg failed s)).
Proof.
  apply (moves_broadcast E quiet); auto using quiet_refl.
  - exact quiet_trans.
  - intros s0. now apply quiet_same.
  - intros a s0. now apply quiet_same.
  - intros l s0. now apply quiet_same.
Qed.

Lemma send_digest_quiet (c t : Z) (s : state) :
  quiet s (snd (send_digest E c t s)).
Proof.
  unfold send_digest, bind, get_state.
  destruct (_ && _); [apply broadcast_quiet|apply quiet_refl].
Qed.

(** After its first step a cycle leaves the cache alone. *)
Lemma pull_after_ensure (s : state) :
  quiet (snd (ensure_leagues_cache E s)) (snd (pull_and_schedule E s)).
Proof.
  unfold pull_and_schedule, bind. rewrite pull_and_count_eq. cbn zeta.
  set (se := snd (ensure_leagues_cache E s)).
  pose proof (countries_quiet (date_of (clock E (ticks se)))
                (LEAGUES_CACHE se) (0, 0) (tick se)) as Hloop.
  assert (Htick : quiet se (tick se)) by now apply quiet_same.
  destruct (for_each _ _ _ _) as [[counts|e] s1]; cbn [snd] in *.
  - eapply quiet_trans; [exact Htick|].
    eapply quiet_trans; [exact Hloop|apply send_digest_quiet].
  - eapply quiet_trans; [exact Htick|exact Hloop].
Qed.

Lemma pull_fills (s : state) : fills s (snd (pull_and_schedule E s)).
Proof.
  eapply fills_trans; [apply ensure_fills|apply fills_quiet, pull_after_ensure].
Qed.

Lemma handle_fills (ev : event) (s : state) : fills s (snd (handle E ev s)).
Proof.
  destruct ev; cbn [handle]; try apply pull_fills.
  - apply fills_quiet. now apply quiet_same.
  - apply fills_quiet. now apply quiet_same.
  - unfold bind, get_state. destruct (job_queue s !! n); [|apply fills_refl].
    apply fills_quiet, broadcast_quiet.
Qed.

Lemma run_events_fill (evs : list event) (s : state) :
  fills s (run_events E evs s).
Proof.
  revert s. induction evs as [|ev evs IH]; intros s; cbn; [apply fills_refl|].
  eapply fills_trans; [apply handle_fills|apply IH].
Qed.

(** X5: whatever happens from the start of the process, the cache holds
    at most one entry per country, for countries of [COUNTRIES] only, and
    every league record in it is a dict with a true ["league"]. *)
Theorem cache_stays_in_order (evs : list event) :
  cache_ok (LEAGUES_CACHE (run_events E evs initial_state)).
Proof.
  destruct (run_events_fill evs initial_state) as (_ & Hok & _).
  apply Hok. split; constructor.
Qed.

(** X6: a cached country is never fetched again: whatever happens after
    a state, the entries its cache holds stay as they are, in place, and
    none of the later requests asks for the leagues of a country that
    was cached. *)
Theorem cached_country_never_refetched (evs : list event) (s : state) :
  let s' := run_events E evs s in
  (exists added, LEAGUES_CACHE s' = LEAGUES_CACHE s ++ added)
  /\ forall c, In c (map fst (LEAGUES_CACHE s)) ->
               ~ In c (leagues_requests (new_calls s s')).
Proof.
  intros s'. subst s'.
  destruct (run_events_fill evs s) as (Hadd & _ & calls & Hcalls & Hnot).
  split; [exact Hadd|]. intros c Hc.
  rewrite (new_calls_app s _ calls Hcalls). apply Hnot.
  now apply cache_has_In.
Qed.

End CacheTrace.

(** ** Keys and queued jobs *)

Section Jobs.

Variable E : Env.

Lemma char_free_app (x : ascii) (a b : string) :
  char_free x (String.append a b) = char_free x a && char_free x b.
Proof.
  induction a as [|c a IH]; [reflexivity|].
  change (char_free x (String.append (String c a) b))
    with (negb (Ascii.eqb c x) && char_free x (String.append a b)).
  rewrite IH. apply andb_assoc.
Qed.

Lemma colon_free_uint (d : Decimal.uint) :
  char_free ":" (NilEmpty.string_of_uint d) = true.
Proof. induction d; cbn; auto. Qed.

Lemma space_free_uint (d : Decimal.uint) :
  char_free " " (NilEmpty.string_of_uint d) = true.
Proof. induction d; cbn; auto. Qed.

Lemma colon_free_str_int (n : Z) : char_free ":" (str_int n) = true.
Proof.
  unfold str_int, NilZero.string_of_int, NilZero.string_of_uint.
  destruct (Z.to_int n) as [d|d]; destruct d; cbn; auto using colon_free_uint.
Qed.

Lemma space_free_str_int (n : Z) : char_free " " (str_int n) = true.
Proof.
  unfold str_int, NilZero.string_of_int, NilZero.string_of_uint.
  destruct (Z.to_int n) as [d|d]; destruct d; cbn; auto using space_free_uint.
Qed.

(** Two texts cut at the first occurrence of a character. *)
Lemma split_at_char (x : ascii) (p p' r r' : string) :
  char_free x p = true -> char_free x p' = true ->
  String.append p (String x r) = String.append p' (String x r') ->
  p = p' /\ r = r'.
Proof.
  revert p'. induction p as [|c p IH]; intros [|c' p'] Hp Hp'; cbn in *.
  - intros [= ->]. now split.
  - intros [= <- _]. now rewrite Ascii.eqb_refl in Hp'.
  - intros [= -> _]. now rewrite Ascii.eqb_refl in Hp.
  - intros [= -> Heq]. apply andb_true_iff in Hp as [_ Hp].
    apply andb_true_iff in Hp' as [_ Hp'].
    destruct (IH p' Hp Hp' Heq) as [-> ->]. now split.
Qed.

(** X7: for integer fixture ids the dedupe key tells the pair (fixture,
    offset): two pairs have the same key only when they are the same
    pair, so no reminder is held back by the key of another fixture or of
    another offset. *)
Theorem job_key_tells_the_pair (a b m m' : Z) :
  job_key E (JNum a) m = job_key E (JNum b) m' <-> a = b /\ m = m'.
Proof.
  split; [|intros [-> ->]; reflexivity].
  unfold job_key. cbn [py_str]. intros H.
  apply split_at_char in H as [Ha Hm]; auto using colon_free_str_int.
  split; now apply str_int_inj.
Qed.

Lemma job_ok_reminder (f : fixture_fields) (m : Z) :
  In m REMINDER_OFFSETS -> job_ok E (reminder_job E f m).
Proof. intros Hm. repeat split. exact Hm. Qed.

Lemma run_events_jobs_ok (evs : list event) :
  Forall (job_ok E) (job_queue (run_events E evs initial_state)).
Proof.
  apply (run_events_related E
           (fun s s' => Forall (job_ok E) (job_queue s) ->
                        Forall (job_ok E) (job_queue s')));
    cbn; auto.
  - intros f m s Hm _ Hall. apply Forall_app. split; [exact Hall|].
    constructor; [now apply job_ok_reminder|constructor].
Qed.

Lemma job_ok_name_inj (a b : job) :
  job_ok E a -> job_ok E b -> job_name a = job_name b ->
  job_dedupe_key E a = job_dedupe_key E b.
Proof.
  intros (_ & _ & _ & Ha) (_ & _ & _ & Hb) Heq. rewrite Ha, Hb in Heq.
  now apply append_cancel_l in Heq.
Qed.

Lemma NoDup_names (q : list job) :
  Forall (job_ok E) q -> NoDup (map (job_dedupe_key E) q) ->
  NoDup (map job_name q).
Proof.
  induction q as [|j q IH]; cbn; [constructor|].
  intros Hall Hnd. apply Forall_cons in Hall as [Hj Hall].
  apply NoDup_cons in Hnd as [Hnotin Hnd]. constructor; [|now apply IH].
  intros Hin. apply Hnotin.
  apply list_elem_of_In, in_map_iff in Hin as (j' & Heq & Hin).
  apply list_elem_of_In, in_map_iff. exists j'. split; [|exact Hin].
  apply job_ok_name_inj; auto.
  rewrite Forall_forall in Hall. apply Hall. now apply list_elem_of_In.
Qed.

(** X8: every job the worker ever hands to the queue is for one of the
    offsets 60, 15, 0; fires that many minutes before its kick-off, so
    never after it; carries the caption of its offset, never the fallback
    ["-{mins}m"]; and is named ["fx:{fixture_id}:{mins}"].  No two jobs of
    the queue have the same name. *)
Theorem queued_jobs_well_formed (evs : list event) :
  let q := job_queue (run_events E evs initial_state) in
  Forall (fun j => job_ok E j
                   /\ job_when j <= job_ko j
                   /\ forall m, job_label j <> LabelMinus m) q
  /\ NoDup (map job_name q).
Proof.
  intros q. subst q. pose proof (run_events_jobs_ok evs) as Hall. split.
  - eapply Forall_impl; [exact Hall|]. intros j Hj. split; [exact Hj|].
    destruct Hj as (Hoff & Hwhen & Hlabel & _). rewrite Hwhen, Hlabel.
    unfold REMINDER_OFFSETS in Hoff. cbn in Hoff.
    destruct Hoff as [<-|[<-|[<-|[]]]];
      (split; [unfold timedelta_minutes, MICROS_PER_MINUTE; lia
              |intros m H; discriminate H]).
  - apply NoDup_names; [exact Hall|]. apply run_events_ledger_ok.
Qed.

End Jobs.

(** ** Subscriptions *)

Section Subscriptions.

Variable E : Env.

Lemma pull_same_subscribers (s : state) :
  SUBSCRIBERS (snd (pull_and_schedule E s)) = SUBSCRIBERS s.
Proof.
  apply (moves_pull_and_schedule E (fun s s' => SUBSCRIBERS s' = SUBSCRIBERS s));
    cbn; auto.
  intros a b c -> ->. reflexivity.
Qed.

Lemma fire_same_subscribers (n : nat) (s : state) :
  SUBSCRIBERS (snd (handle E (Fire n) s)) = SUBSCRIBERS s.
Proof.
  cbn [handle]. unfold bind, get_state.
  destruct (job_queue s !! n) as [d|]; [|reflexivity].
  unfold send_reminder_job.
  destruct (broadcast_spec E (ReminderMsg (job_label d) (job_home d) (job_away d)
                                (job_ko d) (job_league d))
              LogReminderFailed s) as (s' & -> & _ & _ & _ & Hu & _).
  exact Hu.
Qed.

(** X9: only /liveon and /liveoff change who is subscribed, and for each
    chat the last of its commands decides: after any trace a chat is
    subscribed exactly when its last command was /liveon, or when it was
    subscribed before and gave none. *)
Theorem subscribers_follow_last_command (c : Z) (evs : list event) (s : state) :
  c ∈ SUBSCRIBERS (run_events E evs s)
  <-> subscribed_after c evs (bool_decide (c ∈ SUBSCRIBERS s)) = true.
Proof.
  revert s. induction evs as [|ev evs IH]; intros s.
  - cbn. now rewrite bool_decide_eq_true.
  - change (run_events E (ev :: evs) s)
      with (run_events E evs (snd (handle E ev s))).
    rewrite IH.
    assert (Hsame : SUBSCRIBERS (snd (handle E ev s)) = SUBSCRIBERS s ->
                    subscribed_after c evs
                      (bool_decide (c ∈ SUBSCRIBERS (snd (handle E ev s))))
                    = subscribed_after c evs (bool_decide (c ∈ SUBSCRIBERS s)))
      by (now intros ->).
    destruct ev as [| | |c'|c'|n]; cbn [subscribed_after];
      try (rewrite Hsame; [reflexivity|]).
    + apply pull_same_subscribers.
    + apply pull_same_subscribers.
    + apply pull_same_subscribers.
    + cbn [handle liveon modify snd SUBSCRIBERS set_subscribers].
      destruct (c' =? c) eqn:Hc.
      * apply Z.eqb_eq in Hc. subst c'.
        rewrite bool_decide_eq_true_2 by set_solver. reflexivity.
      * apply Z.eqb_neq in Hc.
        rewrite (bool_decide_ext (c ∈ {[c']} ∪ SUBSCRIBERS s)
                   (c ∈ SUBSCRIBERS s)) by set_solver.
        reflexivity.
    + cbn [handle liveoff modify snd SUBSCRIBERS set_subscribers].
      destruct (c' =? c) eqn:Hc.
      * apply Z.eqb_eq in Hc. subst c'.
        rewrite bool_decide_eq_false_2 by set_solver. reflexivity.
      * apply Z.eqb_neq in Hc.
        rewrite (bool_decide_ext (c ∈ SUBSCRIBERS s ∖ {[c']})
                   (c ∈ SUBSCRIBERS s)) by set_solver.
        reflexivity.
    + apply fire_same_subscribers.
Qed.

Lemma spares_refl c s : spares c s s.
Proof.
  intros Hc. split; [exact Hc|]. exists []. rewrite app_nil_r.
  split; [reflexivity|constructor].
Qed.

Lemma spares_trans c s1 s2 s3 :
  spares c s1 s2 -> spares c s2 s3 -> spares c s1 s3.
Proof.
  intros H1 H2 Hc. destruct (H1 Hc) as (Hc2 & l1 & O1 & A1).
  destruct (H2 Hc2) as (Hc3 & l2 & O2 & A2). split; [exact Hc3|].
  exists (l1 ++ l2). split; [now rewrite O2, O1, app_assoc|].
  apply Forall_app. now split.
Qed.

Lemma spares_unsent c s s' : unsent s s' -> spares c s s'.
Proof.
  intros [Ho Hu] Hc. split; [now rewrite Hu|]. exists []. rewrite app_nil_r.
  split; [exact Ho|constructor].
Qed.

Lemma broadcast_spares (c : Z) (msg : message) (failed : Z -> log_line)
    (s : state) :
  spares c s (snd (broadcast E msg failed s)).
Proof.
  intros Hc.
  destruct (broadcast_spec E msg failed s) as (s' & -> & Hout & _ & _ & Hu & _).
  cbn [snd]. split; [now rewrite Hu|].
  exists (attempts E msg (ticks s) (elements (SUBSCRIBERS s))).
  split; [exact Hout|]. apply Forall_forall. intros a Ha Heq. apply Hc.
  apply elem_of_elements. rewrite <- (attempts_chats E msg (ticks s)).
  apply list_elem_of_In, in_map_iff. exists a. split; [exact Heq|].
  now apply list_elem_of_In.
Qed.

Lemma pull_spares (c : Z) (s : state) :
  spares c s (snd (pull_and_schedule E s)).
Proof.
  unfold pull_and_schedule, bind.
  pose proof (pull_and_count_unsent E s) as Hun.
  destruct (pull_and_count E s) as [[counts|e] s1]; cbn [snd] in *;
    [|now apply spares_unsent].
  eapply spares_trans; [apply spares_unsent, Hun|].
  unfold send_digest, bind, get_state.
  destruct (_ && _); [apply broadcast_spares|apply spares_refl].
Qed.

Lemma handle_spares (c : Z) (ev : event) (s : state) :
  is_liveon c ev = false -> spares c s (snd (handle E ev s)).
Proof.
  intros Hev. destruct ev as [| | |c'|c'|n]; cbn [handle];
    try apply pull_spares.
  - cbn in Hev. apply Z.eqb_neq in Hev. intros Hc. cbn.
    split; [set_solver|]. exists []. rewrite app_nil_r.
    split; [reflexivity|constructor].
  - intros Hc. cbn. split; [set_solver|]. exists []. rewrite app_nil_r.
    split; [reflexivity|constructor].
  - unfold bind, get_state. destruct (job_queue s !! n); [|apply spares_refl].
    apply broadcast_spares.
Qed.

(** X10: a chat that is not subscribed gets nothing: as long as it
    gives no /liveon, no reminder and no digest is sent to it, whatever
    pulls run and whatever jobs fire, including jobs that were scheduled
    while it was subscribed. *)
Theorem unsubscribed_chat_gets_nothing (c : Z) (evs : list event) (s : state) :
  c ∉ SUBSCRIBERS s ->
  forallb (fun ev => negb (is_liveon c ev)) evs = true ->
  Forall (fun a => sent_chat a <> c) (new_sent s (run_events E evs s)).
Proof.
  intros Hc Hevs.
  assert (H : spares c s (run_events E evs s)).
  { clear Hc. revert s. induction evs as [|ev evs IH]; intros s;
      [apply spares_refl|].
    cbn [forallb] in Hevs. apply andb_true_iff in Hevs as [Hev Hevs].
    apply negb_true_iff in Hev.
    apply (spares_trans c s (snd (handle E ev s)));
      [now apply handle_spares|now apply IH]. }
  destruct (H Hc) as (_ & l & Hout & Hall).
  now rewrite (new_sent_app s _ l Hout).
Qed.

End Subscriptions.

(** ** The requests of a cycle *)

Section Requests.

Variable E : Env.

Lemma asks_same P (s s' : state) : api_calls s' = api_calls s -> asks P 0 s s'.
Proof.
  intros H. exists []. rewrite app_nil_r. repeat split; auto.
Qed.

Lemma asks_trans P (n m : nat) (a b c : state) :
  asks P n a b -> asks P m b c -> asks P (n + m) a c.
Proof.
  intros (l1 & A1 & L1 & N1 & F1) (l2 & A2 & L2 & N2 & F2).
  exists (l1 ++ l2). rewrite A2, A1, app_assoc, leagues_requests_app, L1, L2.
  rewrite fixtures_requests_app, length_app. repeat split; [lia|].
  apply Forall_app. now split.
Qed.

Lemma asks_more P (n m : nat) (s s' : state) :
  (n <= m)%nat -> asks P n s s' -> asks P m s s'.
Proof.
  intros Hnm (l & A & L & N & F). exists l. repeat split; auto. lia.
Qed.

Lemma asks_for_each {A B} P (l : list A) (body : A -> B -> M B) :
  (forall x acc s, asks P 1 s (snd (body x acc s))) ->
  forall acc s, asks P (length l) s (snd (for_each l body acc s)).
Proof.
  intros Hbody. induction l as [|x l IH]; intros acc s; cbn [for_each length].
  - now apply asks_same.
  - unfold bind. specialize (Hbody x acc s).
    destruct (body x acc s) as [[acc'|e] s1]; cbn [snd] in *.
    + apply (asks_trans P 1 (length l) s s1); [exact Hbody|apply IH].
    + apply (asks_more P 1); [lia|exact Hbody].
Qed.

Lemma pick_season_same_calls (seasons : json) (s : state) :
  api_calls (snd (pick_season E seasons s)) = api_calls s.
Proof.
  apply (moves_pick_season E (fun s s' => api_calls s' = api_calls s));
    cbn; auto.
  intros a b c -> ->. reflexivity.
Qed.

Lemma fetch_and_plan_calls (today : date) (country : string)
    (league league_id season : json) (total : Z) (s : state) :
  api_calls (snd (fetch_and_plan E today country league league_id season total s))
  = api_calls s ++ [CallFixtures league_id season today
                      (api_fixtures E (ticks s) league_id season today)].
Proof.
  rewrite fetch_and_plan_eq. cbn zeta.
  destruct (obind _ _) as [fixtures|e].
  - destruct (py_iter fixtures) as [fxs|e]; [|reflexivity].
    now rewrite fixtures_loop_same_calls.
  - now destruct (dict_get league "name" JNull).
Qed.

(** One league record: at most one request, for the day of the cycle and
    a league id that is there and true. *)
Lemma league_step_asks (today : date) (country : string) (item : json)
    (total : Z) (s : state) :
  asks (fun r => truthy (fst (fst r)) = true /\ snd r = today) 1 s
       (snd (league_step E today country item total s)).
Proof.
  set (P := fun r : json * json * date => truthy (fst (fst r)) = true /\ snd r = today).
  assert (Hnone : forall s', api_calls s' = api_calls s -> asks P 1 s s')
    by (intros s' H; apply (asks_more P 0); [lia|now apply asks_same]).
  unfold league_step, bind at 1, lift at 1.
  destruct (dict_get item "league" (JObj [])) as [league|e]; [|now apply Hnone].
  unfold bind at 1, lift at 1.
  destruct (dict_get item "seasons" JNull) as [seasons0|e]; [|now apply Hnone].
  destruct (_ || _); [now apply Hnone|].
  unfold bind at 1.
  pose proof (pick_season_same_calls (py_or seasons0 (JList [])) s) as Hpick.
  destruct (pick_season E _ s) as [[season|e] s1]; cbn [snd] in Hpick;
    [|now apply Hnone].
  unfold bind at 1, lift at 1.
  destruct (dict_get league "id" JNull) as [league_id|e]; [|now apply Hnone].
  destruct (truthy league_id) eqn:Hid; cbn [negb]; [|now apply Hnone].
  exists [CallFixtures league_id season today
            (api_fixtures E (ticks s1) league_id season today)].
  rewrite fetch_and_plan_calls, Hpick. repeat split; auto.
  constructor; [now split|constructor].
Qed.

Lemma countries_ask (today : date) (cache : list (string * list json)) :
  forall acc s,
    asks (fun r => truthy (fst (fst r)) = true /\ snd r = today)
         (cached_leagues cache) s
         (snd (for_each cache (country_step E today) acc s)).
Proof.
  set (P := fun r : json * json * date => truthy (fst (fst r)) = true /\ snd r = today).
  induction cache as [|[country items] cache IH]; intros acc s;
    cbn [for_each]; [now apply asks_same|].
  unfold bind at 1, country_step, bind at 1. cbn [fst snd].
  pose proof (asks_for_each P items (league_step E today country)
                (league_step_asks today country) (snd acc) s) as Hitems.
  assert (Hlen : cached_leagues ((country, items) :: cache)
                 = (length items + cached_leagues cache)%nat)
    by (unfold cached_leagues; cbn; now rewrite length_app).
  rewrite Hlen.
  destruct (for_each items _ _ s) as [[total|e] s1]; cbn [snd ret] in *.
  - apply (asks_trans P _ _ s s1); [exact Hitems|apply IH].
  - apply (asks_more P (length items)); [lia|exact Hitems].
Qed.

Lemma send_digest_same_calls (c t : Z) (s : state) :
  api_calls (snd (send_digest E c t s)) = api_calls s.
Proof.
  apply (moves_send_digest E (fun s s' => api_calls s' = api_calls s));
    cbn; auto.
  intros a b c' -> ->. reflexivity.
Qed.

(** X11: the fixtures requests of one cycle.  All of them ask for the
    same day, the Dubai date read once after the cache was filled, and
    for a league whose id is there and true; and there is at most one
    per league record of the cache. *)
Theorem cycle_requests_one_day (s : state) :
  let se := snd (ensure_leagues_cache E s) in
  let s' := snd (pull_and_schedule E s) in
  let requests := fixtures_requests (new_calls s s') in
  Forall (fun r => truthy (fst (fst r)) = true
                   /\ snd r = date_of (clock E (ticks se))) requests
  /\ (length requests <= cached_leagues (LEAGUES_CACHE s'))%nat.
Proof.
  intros se s' requests. subst requests s'.
  destruct (pull_after_ensure E s) as [Hcache _]. fold se in Hcache.
  rewrite Hcache. clear Hcache.
  unfold pull_and_schedule, bind. rewrite pull_and_count_eq. cbn zeta.
  fold se.
  destruct (ensure_loop_spec E COUNTRIES COUNTRIES_NoDup s)
    as (s0 & calls0 & _ & _ & Hrun & Hcalls0 & _ & Hfx0 & _).
  assert (Hse : api_calls se = api_calls s ++ calls0).
  { subst se. unfold ensure_leagues_cache. now rewrite Hrun. }
  pose proof (countries_ask (date_of (clock E (ticks se))) (LEAGUES_CACHE se)
                (0, 0) (tick se)) as (calls & Hcalls & _ & Hlen & Hall).
  assert (Hend : api_calls
                   (snd (match for_each (LEAGUES_CACHE se)
                                 (country_step E (date_of (clock E (ticks se))))
                                 (0, 0) (tick se) with
                         | (Ok counts, s1) => send_digest E (fst counts) (snd counts) s1
                         | (Raise e, s1) => (Raise e, s1)
                         end))
                 = api_calls s ++ calls0 ++ calls).
  { cbn [api_calls tick] in Hcalls.
    destruct (for_each (LEAGUES_CACHE se) _ _ _) as [[counts|e] s1];
      cbn [snd] in Hcalls; cbn beta iota.
    - now rewrite send_digest_same_calls, Hcalls, Hse, app_assoc.
    - cbn [snd]. now rewrite Hcalls, Hse, app_assoc. }
  rewrite (new_calls_app s _ _ Hend), fixtures_requests_app, Hfx0.
  cbn [app]. now split.
Qed.

(** *** No league is left out *)

Lemma leagues_asked_app (a b : list api_call) :
  leagues_asked (a ++ b) = leagues_asked a ++ leagues_asked b.
Proof. unfold leagues_asked. now rewrite fixtures_requests_app, map_app. Qed.

Lemma polls_for_each {A B} (f : A -> list json) (l : list A)
    (body : A -> B -> M B) :
  (forall x acc s acc' s',
      body x acc s = (Ok acc', s') ->
      exists calls, api_calls s' = api_calls s ++ calls
                    /\ leagues_asked calls = f x) ->
  forall acc s acc' s',
    for_each l body acc s = (Ok acc', s') ->
    exists calls, api_calls s' = api_calls s ++ calls
                  /\ leagues_asked calls = flat_map f l.
Proof.
  intros Hbody. induction l as [|x l IH]; intros acc s acc' s'; cbn [for_each].
  - intros [= _ <-]. exists []. now rewrite app_nil_r.
  - unfold bind. destruct (body x acc s) as [[acc1|e] s1] eqn:Hstep;
      [|discriminate].
    intros Hrest.
    destruct (Hbody _ _ _ _ _ Hstep) as (c1 & A1 & L1).
    destruct (IH _ _ _ _ Hrest) as (c2 & A2 & L2).
    exists (c1 ++ c2). rewrite A2, A1, app_assoc, leagues_asked_app, L1, L2.
    now split.
Qed.

Lemma league_step_polls (today : date) (country : string) (item : json)
    (total total' : Z) (s s' : state) :
  league_step E today country item total s = (Ok total', s') ->
  exists calls, api_calls s' = api_calls s ++ calls
                /\ leagues_asked calls = polled item.
Proof.
  assert (Hnone : forall s0, api_calls s0 = api_calls s ->
                    exists calls, api_calls s0 = api_calls s ++ calls
                                  /\ leagues_asked calls = [])
    by (intros s0 H; exists []; now rewrite app_nil_r).
  unfold league_step, polled, bind at 1, lift at 1.
  destruct (dict_get item "league" (JObj [])) as [league|e]; [|discriminate].
  unfold bind at 1, lift at 1.
  destruct (dict_get item "seasons" JNull) as [seasons0|e]; [|discriminate].
  rewrite <- negb_andb.
  destruct (truthy league && truthy (py_or seasons0 (JList [])));
    cbn [negb]; [|intros [= _ <-]; now apply Hnone].
  unfold bind at 1.
  pose proof (pick_season_same_calls (py_or seasons0 (JList [])) s) as Hpick.
  destruct (pick_season E _ s) as [[season|e] s1]; cbn [snd] in Hpick;
    [|discriminate].
  unfold bind at 1, lift at 1.
  destruct (dict_get league "id" JNull) as [league_id|e]; [|discriminate].
  destruct (truthy league_id); cbn [negb];
    [|intros [= _ <-]; now apply Hnone].
  intros Hfetch.
  pose proof (fetch_and_plan_calls today country league league_id season total s1)
    as Hcalls.
  rewrite Hfetch in Hcalls. cbn [snd] in Hcalls. rewrite Hpick in Hcalls.
  eexists. split; [exact Hcalls|reflexivity].
Qed.

(** X12: a cycle that gets to its end has left no league out: its
    fixtures requests are, in the order of the cache, one for each league
    record whose league, seasons and league id are there and true, and
    no other. *)
Theorem cycle_asks_every_league (s : state) :
  fst (pull_and_schedule E s) = Ok tt ->
  let s' := snd (pull_and_schedule E s) in
  leagues_asked (new_calls s s')
  = flat_map (fun entry => flat_map polled (snd entry)) (LEAGUES_CACHE s').
Proof.
  intros Hret s'. subst s'.
  destruct (pull_after_ensure E s) as [Hcache _]. rewrite Hcache. clear Hcache.
  revert Hret. unfold pull_and_schedule, bind. rewrite pull_and_count_eq.
  cbn zeta. set (se := snd (ensure_leagues_cache E s)).
  destruct (ensure_loop_spec E COUNTRIES COUNTRIES_NoDup s)
    as (s0 & calls0 & _ & _ & Hrun & Hcalls0 & _ & Hfx0 & _).
  assert (Hse : api_calls se = api_calls s ++ calls0).
  { subst se. unfold ensure_leagues_cache. now rewrite Hrun. }
  set (today := date_of (clock E (ticks se))).
  pose proof (polls_for_each (fun entry => flat_map polled (snd entry))
                (LEAGUES_CACHE se) (country_step E today)) as Hloop.
  destruct (for_each (LEAGUES_CACHE se) _ _ _) as [[counts|e] s1] eqn:Hrun1;
    [|discriminate].
  intros _. cbn [snd].
  destruct (Hloop) with (acc := (0, 0)) (s := tick se) (acc' := counts) (s' := s1)
    as (calls & Hcalls & Hasked); [|exact Hrun1|].
  - intros [country items] acc s2 acc' s2'. unfold country_step, bind.
    cbn [fst snd].
    destruct (for_each items _ _ s2) as [[total|e] s3] eqn:Hitems;
      [|discriminate].
    intros [= _ <-].
    apply (polls_for_each polled items (league_step E today country)
             (fun x t s4 t' s4' => league_step_polls today country x t t' s4 s4')
             _ _ _ _ Hitems).
  - cbn [api_calls tick] in Hcalls.
    rewrite (new_calls_app s _ (calls0 ++ calls)).
    + rewrite leagues_asked_app, Hasked. unfold leagues_asked.
      now rewrite Hfx0.
    + now rewrite send_digest_same_calls, Hcalls, Hse, app_assoc.
Qed.

(** *** A league record that breaks the cycle *)

Lemma for_each_raises {A B} (l : list A) (body : A -> B -> M B) (x : A) :
  In x l ->
  (forall acc s, exists e, fst (body x acc s) = Raise e) ->
  forall acc s, exists e, fst (for_each l body acc s) = Raise e.
Proof.
  intros Hin Hx. induction l as [|y l IH]; [destruct Hin|]. intros acc s.
  cbn [for_each]. unfold bind.
  destruct Hin as [->|Hin].
  - destruct (Hx acc s) as [e He].
    destruct (body x acc s) as [[acc'|e'] s1]; cbn [fst] in *;
      [discriminate|now exists e'].
  - destruct (body y acc s) as [[acc'|e'] s1]; [|now exists e'].
    now apply IH.
Qed.

Lemma league_step_raises (today : date) (country : string)
    (item league entry : json) (earlier : list json) :
  dict_get item "league" (JObj []) = Ok league ->
  truthy league = true ->
  dict_get item "seasons" JNull = Ok (JList (earlier ++ [entry])) ->
  is_dict entry = false ->
  forall total s,
    fst (league_step E today country item total s) = Raise AttributeError.
Proof.
  intros Hleague Htl Hseasons Hentry total s.
  assert (Hor : py_or (JList (earlier ++ [entry])) (JList [])
                = JList (earlier ++ [entry]))
    by (unfold py_or; now destruct earlier).
  unfold league_step, bind at 1, lift at 1. rewrite Hleague.
  unfold bind at 1, lift at 1. rewrite Hseasons, Hor, Htl.
  assert (Hts : truthy (JList (earlier ++ [entry])) = true)
    by now destruct earlier.
  rewrite Hts. cbn [negb orb].
  unfold bind at 1, pick_season, bind at 1, lift at 1.
  rewrite subscript_last_app. unfold bind at 1, lift at 1.
  destruct entry; try discriminate; reflexivity.
Qed.

(** A league record at which [league_step] always raises ends the
    cycle, there or before: no digest is sent. *)
Lemma raising_league_aborts (s : state) (country : string) (items : list json)
    (item : json) :
  In (country, items) (LEAGUES_CACHE (snd (ensure_leagues_cache E s))) ->
  In item items ->
  (forall today total s0, exists e,
      fst (league_step E today country item total s0) = Raise e) ->
  (exists e, fst (pull_and_schedule E s) = Raise e)
  /\ new_sent s (snd (pull_and_schedule E s)) = [].
Proof.
  intros Hentry Hitem Hraise.
  assert (Hcount : exists e, fst (pull_and_count E s) = Raise e).
  { rewrite pull_and_count_eq. cbn zeta.
    apply (for_each_raises _ _ (country, items) Hentry).
    intros acc s0. unfold country_step, bind. cbn [fst snd].
    destruct (for_each_raises items
                (league_step E (date_of (clock E (ticks (snd (ensure_leagues_cache E s)))))
                   country) item Hitem (Hraise _) (snd acc) s0) as [e He].
    destruct (for_each items _ _ s0) as [[total|e'] s1]; cbn [fst] in *;
      [discriminate|now exists e']. }
  destruct Hcount as [e He]. unfold pull_and_schedule, bind.
  pose proof (pull_and_count_unsent E s) as [Hout _].
  destruct (pull_and_count E s) as [[counts|e'] s1]; cbn [fst snd] in *;
    [discriminate|].
  split; [now exists e'|]. apply (new_sent_app s s1 []).
  now rewrite app_nil_r.
Qed.

(** X13: one league record whose last season entry is not a dict (a
    bare year, say) ends the whole cycle.  [pull_and_schedule] raises,
    at that record or before it; the leagues after it are not looked at,
    and no digest is sent, although jobs may have been queued. *)
Theorem ill_shaped_league_aborts_cycle (s : state) (country : string)
    (items earlier : list json) (item league entry : json) :
  In (country, items) (LEAGUES_CACHE (snd (ensure_leagues_cache E s))) ->
  In item items ->
  dict_get item "league" (JObj []) = Ok league ->
  truthy league = true ->
  dict_get item "seasons" JNull = Ok (JList (earlier ++ [entry])) ->
  is_dict entry = false ->
  (exists e, fst (pull_and_schedule E s) = Raise e)
  /\ new_sent s (snd (pull_and_schedule E s)) = [].
Proof.
  intros Hentry Hitem Hleague Htl Hseasons Hshape.
  apply (raising_league_aborts s country items item Hentry Hitem).
  intros today total s0. exists AttributeError.
  now apply (league_step_raises today country item league entry earlier).
Qed.

Lemma league_step_unlistable (today : date) (country : string)
    (item league league_id entry : json) (earlier : list json) :
  dict_get item "league" (JObj []) = Ok league ->
  truthy league = true ->
  dict_get item "seasons" JNull = Ok (JList (earlier ++ [entry])) ->
  is_dict entry = true ->
  dict_get league "id" JNull = Ok league_id ->
  truthy league_id = true ->
  serves_unlistable E league_id ->
  forall total s, exists e,
    fst (league_step E today country item total s) = Raise e.
Proof.
  intros Hleague Htl Hseasons Hentry Hid Htid Hserves total s.
  destruct (is_dict_get entry JNull "year" Hentry) as [year Hyear].
  rewrite (league_step_fetch E today country item league league_id entry year
             earlier total s Hleague Htl Hseasons Hyear Hid Htid).
  cbn zeta. rewrite fetch_and_plan_eq. cbn zeta.
  match goal with
  | |- context [api_fixtures E ?t league_id ?y today] =>
      destruct (Hserves t y today) as (data & resp & e & -> & Hresp & Hiter)
  end.
  cbn [obind]. rewrite Hresp, Hiter. now exists e.
Qed.

(** X14: an answer that cannot be iterated ends the whole cycle.  The
    fetch of the fixtures is inside a [try], the loop over what it
    returned is not: when the provider serves, for a cached league with
    an id, a dict whose ["response"] is [null], a number or a boolean,
    [pull_and_schedule] raises, at that league or before it, and no
    digest is sent. *)
Theorem unlistable_response_aborts_cycle (s : state) (country : string)
    (items earlier : list json) (item league league_id entry : json) :
  In (country, items) (LEAGUES_CACHE (snd (ensure_leagues_cache E s))) ->
  In item items ->
  dict_get item "league" (JObj []) = Ok league ->
  truthy league = true ->
  dict_get item "seasons" JNull = Ok (JList (earlier ++ [entry])) ->
  is_dict entry = true ->
  dict_get league "id" JNull = Ok league_id ->
  truthy league_id = true ->
  serves_unlistable E league_id ->
  (exists e, fst (pull_and_schedule E s) = Raise e)
  /\ new_sent s (snd (pull_and_schedule E s)) = [].
Proof.
  intros Hentry Hitem Hleague Htl Hseasons Hshape Hid Htid Hserves.
  apply (raising_league_aborts s country items item Hentry Hitem).
  intros today. now apply (league_step_unlistable today country item league
                             league_id entry earlier).
Qed.

End Requests.

(** ** The /today digest *)

(** What every step of [today] respects. *)
Section TodayMoves.

Variable E : Env.
Variable R : state -> state -> Prop.

Hypothesis R_refl : forall s, R s s.
Hypothesis R_trans : forall a b c, R a b -> R b c -> R a c.
Hypothesis R_tick : forall s, R s (tick s).
Hypothesis R_asked_fixtures : forall i y d a s,
  R s (add_call (CallFixtures i y d a) s).

Lemma today_fixture_step_state (today_d : date) (country : string)
    (league fx : json) (v : today_vars) (s : state) :
  snd (today_fixture_step E today_d country league fx v s) = s.
Proof.
  unfold today_fixture_step.
  destruct (fixture_kickoff E fx) as [ko|e]; [|reflexivity].
  destruct (negb _); [reflexivity|]. unfold bind, lift.
  destruct (team_name fx "home"); [|reflexivity].
  destruct (team_name fx "away"); [|reflexivity].
  now destruct (dict_get league "name" (JStr "")).
Qed.

Lemma today_fixtures_loop_state (today_d : date) (country : string)
    (league : json) (fxs : list json) (v : today_vars) (s : state) :
  snd (for_each fxs (today_fixture_step E today_d country league) v s) = s.
Proof.
  revert v. induction fxs as [|fx fxs IH]; intros v; [reflexivity|].
  cbn [for_each]. unfold bind.
  pose proof (today_fixture_step_state today_d country league fx v s) as Hs.
  destruct (today_fixture_step E today_d country league fx v s)
    as [[v'|e] s1]; cbn [snd] in Hs; subst s1; [apply IH|reflexivity].
Qed.

Lemma moves_today_league_step (today_d : date) (country : string)
    (item : json) (v : today_vars) :
  moves R (today_league_step E today_d country item v).
Proof.
  unfold today_league_step.
  apply (moves_bind R R_trans); [apply (moves_lift R R_refl)|]. intros league.
  apply (moves_bind R R_trans); [apply (moves_lift R R_refl)|]. intros seasons0.
  destruct (_ || _); [apply (moves_ret R R_refl)|].
  apply (moves_bind R R_trans); [apply (moves_pick_season E R); auto|].
  intros season.
  apply (moves_bind R R_trans); [apply (moves_lift R R_refl)|]. intros league_id.
  apply (moves_bind R R_trans);
    [apply (moves_try R), (moves_get_today_fixtures E R); auto|].
  intros [fixtures|e]; [|apply (moves_ret R R_refl)].
  apply (moves_bind R R_trans); [apply (moves_lift R R_refl)|]. intros fxs s.
  rewrite today_fixtures_loop_state. apply R_refl.
Qed.

Lemma moves_today_countries (today_d : date) (cache : list (string * list json))
    (v : today_vars) :
  moves R (for_each cache (today_country_step E today_d) v).
Proof.
  apply (moves_for_each R R_refl R_trans). intros entry v' _.
  unfold today_country_step. apply (moves_for_each R R_refl R_trans).
  intros item v'' _. apply moves_today_league_step.
Qed.

End TodayMoves.

Section Today.

Variable E : Env.

(** [today] is the filling of the cache, a reading of the clock and the
    loops. *)
Lemma today_digest_eq (s : state) :
  today_digest E s =
    let se := snd (ensure_leagues_cache E s) in
    match for_each (LEAGUES_CACHE se)
            (today_country_step E (date_of (clock E (ticks se))))
            {| lines := [LineTitle]; shown := 0; country_shown := false |}
            (tick se) with
    | (Ok v, s') =>
        (Ok (if shown v =? 0 then ReplyNoFixtures else ReplyLines (lines v)), s')
    | (Raise e, s') => (Raise e, s')
    end.
Proof.
  unfold today_digest, bind, now, get_state.
  destruct (ensure_returns E s) as [[] Hret].
  now destruct (ensure_leagues_cache E s) as [[[]|e] se]; cbn [fst snd] in *.
Qed.

Lemma looks_only_refl (s : state) : looks_only s s.
Proof. now repeat split. Qed.

Lemma looks_only_trans (a b c : state) :
  looks_only a b -> looks_only b c -> looks_only a c.
Proof.
  intros (K1 & Q1 & O1 & U1) (K2 & Q2 & O2 & U2).
  repeat split; congruence.
Qed.

Lemma today_after_ensure (R : state -> state -> Prop) (s : state) :
  (forall s, R s s) -> (forall a b c, R a b -> R b c -> R a c) ->
  (forall s, R s (tick s)) ->
  (forall i y d a s, R s (add_call (CallFixtures i y d a) s)) ->
  R (snd (ensure_leagues_cache E s)) (snd (today_digest E s)).
Proof.
  intros R_refl R_trans R_tick R_asked. rewrite today_digest_eq. cbn zeta.
  set (se := snd (ensure_leagues_cache E s)).
  pose proof (moves_today_countries E R R_refl R_trans R_tick R_asked
                (date_of (clock E (ticks se))) (LEAGUES_CACHE se)
                {| lines := [LineTitle]; shown := 0; country_shown := false |}
                (tick se)) as Hloop.
  destruct (for_each _ _ _ _) as [[v|e] s1]; cbn [snd] in *;
    (eapply R_trans; [apply R_tick|exact Hloop]).
Qed.

Lemma today_looks (s : state) : looks_only s (snd (today_digest E s)).
Proof.
  apply (looks_only_trans s (snd (ensure_leagues_cache E s))).
  - destruct (ensure_loop_spec E COUNTRIES COUNTRIES_NoDup s)
      as (s0 & _ & _ & _ & Hrun & _ & _ & _ & _ & _ & _ & _ & _
          & Hq & Hk & Ho & Hu).
    unfold ensure_leagues_cache. rewrite Hrun. now repeat split.
  - apply today_after_ensure; try (intros; now repeat split).
    apply looks_only_trans.
Qed.

Lemma today_fills (s : state) : fills s (snd (today_digest E s)).
Proof.
  apply (fills_trans s (snd (ensure_leagues_cache E s)));
    [apply ensure_fills|].
  apply fills_quiet, today_after_ensure.
  - apply quiet_refl.
  - apply quiet_trans.
  - intros s0. now apply quiet_same.
  - intros. apply quiet_asked_fixtures.
Qed.

(** X15: /today only looks.  Whether it gets to its reply or raises, it
    schedules no job, reserves no key, sends nothing through the bot and
    changes no subscription; all it leaves behind is the league cache it
    may have filled, kept in order, and its requests. *)
Theorem today_only_looks (s : state) :
  let s' := snd (today_digest E s) in
  SCHEDULED_KEYS s' = SCHEDULED_KEYS s
  /\ job_queue s' = job_queue s
  /\ outbox s' = outbox s
  /\ SUBSCRIBERS s' = SUBSCRIBERS s
  /\ (exists added, LEAGUES_CACHE s' = LEAGUES_CACHE s ++ added)
  /\ (cache_ok (LEAGUES_CACHE s) -> cache_ok (LEAGUES_CACHE s')).
Proof.
  intros s'. subst s'.
  destruct (today_looks s) as (K & Q & O & U).
  destruct (today_fills s) as (Hadd & Hok & _).
  tauto.
Qed.

(** *** The shape of the digest *)

Lemma hoare_keep {A} (P : Prop) (m : M A) :
  hoare (fun _ => P) m (fun _ _ => P).
Proof. intros s Hs. now destruct (m s) as [[a|e] s1]. Qed.

Lemma today_fixture_step_listing (today_d : date) (country : string)
    (league fx : json) (v : today_vars) :
  hoare (fun _ => listing today_d country v)
        (today_fixture_step E today_d country league fx v)
        (fun v' _ => listing today_d country v').
Proof.
  intros s Hv. unfold today_fixture_step.
  destruct (fixture_kickoff E fx) as [ko|e]; [|exact Hv].
  destruct (date_of ko =? today_d) eqn:Hday; cbn [negb]; [|exact Hv].
  apply Z.eqb_eq in Hday. unfold bind, lift.
  destruct (team_name fx "home") as [home|]; [|exact I].
  destruct (team_name fx "away") as [away|]; [|exact I].
  destruct (dict_get league "name" (JStr "")) as [name|]; [|exact I].
  cbn [ret]. destruct Hv as (blocks & [Hlines Hblocks] & Hcount & Hlast).
  set (l := LineFixture ko home away name).
  assert (Hl : is_fixture_line today_d l) by exact Hday.
  destruct (country_shown v) eqn:Hshown.
  - destruct (Hlast eq_refl) as (before & fs & ->).
    exists (before ++ [(country, fs ++ [l])]). cbn [lines shown country_shown].
    apply Forall_app in Hblocks as [Hbefore Hfs].
    apply Forall_cons in Hfs as [[Hne Hfs] _]. cbn [snd] in *.
    split; [split|split].
    + rewrite Hlines, !flat_map_app. cbn [flat_map block_lines fst snd].
      rewrite !app_nil_r. cbn [app]. now rewrite <- !app_assoc.
    + apply Forall_app. split; [exact Hbefore|].
      constructor; [|constructor]. cbn [snd]. split.
      * intros Heq. now apply app_eq_nil in Heq as [_ Heq].
      * apply Forall_app. split; [exact Hfs|now constructor].
    + rewrite Hcount, !flat_map_app, !length_app. cbn [flat_map snd].
      rewrite !app_nil_r, length_app. cbn [length]. lia.
    + intros _. now exists before, (fs ++ [l]).
  - exists (blocks ++ [(country, [l])]). cbn [lines shown country_shown].
    split; [split|split].
    + rewrite Hlines, flat_map_app. cbn [flat_map block_lines fst snd].
      rewrite app_nil_r. cbn [app]. now rewrite <- !app_assoc.
    + apply Forall_app. split; [exact Hblocks|].
      constructor; [|constructor]. cbn [snd].
      split; [discriminate|now constructor].
    + rewrite Hcount, flat_map_app, length_app. cbn. lia.
    + intros _. now exists blocks, [l].
Qed.

Lemma today_league_step_listing (today_d : date) (country : string)
    (item : json) (v : today_vars) :
  hoare (fun _ => listing today_d country v)
        (today_league_step E today_d country item v)
        (fun v' _ => listing today_d country v').
Proof.
  unfold today_league_step.
  eapply hoare_bind; [apply hoare_keep|]. intros league.
  eapply hoare_bind; [apply hoare_keep|]. intros seasons0.
  destruct (_ || _); [apply hoare_ret; auto|].
  eapply hoare_bind; [apply hoare_keep|]. intros season.
  eapply hoare_bind; [apply hoare_keep|]. intros league_id.
  eapply hoare_bind; [apply hoare_keep|]. intros [fixtures|e];
    [|apply hoare_ret; auto].
  eapply hoare_bind; [apply hoare_keep|]. intros fxs.
  apply (hoare_for_each (fun v' _ => listing today_d country v')).
  intros fx v' _. apply today_fixture_step_listing.
Qed.

Lemma today_country_step_listing (today_d : date) (entry : string * list json)
    (v : today_vars) :
  hoare (fun _ => exists c, listing today_d c v)
        (today_country_step E today_d entry v)
        (fun v' _ => exists c, listing today_d c v').
Proof.
  intros s [c (blocks & Hdigest & Hcount & _)]. unfold today_country_step.
  pose proof (hoare_for_each
                (fun v' _ => listing today_d (fst entry) v') (snd entry)
                (today_league_step E today_d (fst entry))
                (fun item v' _ => today_league_step_listing today_d (fst entry)
                                    item v')
                {| lines := lines v; shown := shown v; country_shown := false |}
                s) as Hloop.
  destruct (for_each _ _ _ s) as [[v'|e] s1]; [|exact I].
  exists (fst entry). apply Hloop. exists blocks. cbn.
  split; [exact Hdigest|]. split; [exact Hcount|discriminate].
Qed.

(** X16: the reply of /today.  When no fixture was found it is the
    "no fixtures" text; otherwise it is the title followed by one block
    per country shown, each block being the header of the country and at
    least one fixture line, and every fixture line is for a kick-off on
    the Dubai date read at the start. *)
Theorem today_reply_shape (s : state) (r : reply) :
  fst (today_digest E s) = Ok r ->
  let today_d := date_of (clock E (ticks (snd (ensure_leagues_cache E s)))) in
  r = ReplyNoFixtures
  \/ exists blocks ls,
       r = ReplyLines ls /\ blocks <> [] /\ digest_of today_d blocks ls.
Proof.
  rewrite today_digest_eq. cbn zeta.
  set (se := snd (ensure_leagues_cache E s)).
  set (today_d := date_of (clock E (ticks se))).
  set (v0 := {| lines := [LineTitle]; shown := 0; country_shown := false |}).
  pose proof (hoare_for_each
                (fun v' _ => exists c, listing today_d c v') (LEAGUES_CACHE se)
                (today_country_step E today_d)
                (fun entry v' _ => today_country_step_listing today_d entry v')
                v0 (tick se)) as Hloop.
  destruct (for_each _ _ _ _) as [[v|e] s1]; cbn [fst]; [|discriminate].
  intros [= <-].
  destruct Hloop as [c (blocks & Hdigest & Hcount & _)].
  { exists EmptyString, []. cbn. repeat split; [constructor|discriminate]. }
  destruct (shown v =? 0) eqn:Hshown; [now left|right].
  exists blocks, (lines v). split; [reflexivity|]. split; [|exact Hdigest].
  intros ->. cbn in Hcount. apply Z.eqb_neq in Hshown. lia.
Qed.

End Today.

(** *** What the digest lists *)

Section TodayLists.

Variable E : Env.

Lemma call_listed_mono (ls ls' : list digest_line) (c : api_call) :
  (forall ko home away name,
      In (LineFixture ko home away name) ls ->
      In (LineFixture ko home away name) ls') ->
  call_listed E ls c -> call_listed E ls' c.
Proof.
  intros Hsub. destruct c as [|i y d [data|]]; cbn; auto.
  intros Hc resp fxs fx Hresp Hfxs Hin Hday.
  destruct (Hc resp fxs fx Hresp Hfxs Hin Hday)
    as (ko & home & away & name & H1 & H2 & H3 & H4).
  exists ko, home, away, name. auto.
Qed.

Lemma listed_from_same (n : nat) (v v' : today_vars) (s s' : state) :
  api_calls s' = api_calls s ->
  (forall l, In l (lines v) -> In l (lines v')) ->
  listed_from E n v s -> listed_from E n v' s'.
Proof.
  intros Ha Hsub [Hn Hall]. unfold listed_from. rewrite Ha. split; [exact Hn|].
  eapply Forall_impl; [exact Hall|]. intros c. apply call_listed_mono. auto.
Qed.

Lemma listed_from_asked (n : nat) (v v' : today_vars) (s s' : state)
    (c : api_call) :
  api_calls s' = api_calls s ++ [c] ->
  (forall l, In l (lines v) -> In l (lines v')) ->
  call_listed E (lines v') c ->
  listed_from E n v s -> listed_from E n v' s'.
Proof.
  intros Ha Hsub Hc [Hn Hall]. unfold listed_from. rewrite Ha, length_app.
  split; [lia|]. rewrite drop_app_le by exact Hn.
  apply Forall_app. split; [|now constructor].
  eapply Forall_impl; [exact Hall|]. intros c'. apply call_listed_mono. auto.
Qed.

(** One fixture: the lines only grow, and the fixture, when it falls on
    the day, is on one of them. *)
Lemma today_fixture_step_lists (today_d : date) (country : string)
    (league fx : json) (v v' : today_vars) (s s' : state) :
  today_fixture_step E today_d country league fx v s = (Ok v', s') ->
  (forall l, In l (lines v) -> In l (lines v'))
  /\ (on_day E today_d fx = true ->
      exists ko home away name,
        fixture_kickoff E fx = Ok ko
        /\ team_name fx "home" = Ok home
        /\ team_name fx "away" = Ok away
        /\ In (LineFixture ko home away name) (lines v')).
Proof.
  unfold today_fixture_step, on_day.
  destruct (fixture_kickoff E fx) as [ko|e];
    [|intros [= <- _]; split; [auto|discriminate]].
  destruct (date_of ko =? today_d); cbn [negb];
    [|intros [= <- _]; split; [auto|discriminate]].
  unfold bind, lift.
  destruct (team_name fx "home") as [home|]; [|discriminate].
  destruct (team_name fx "away") as [away|]; [|discriminate].
  destruct (dict_get league "name" (JStr "")) as [name|]; [|discriminate].
  intros [= <- _]. cbn [lines]. split.
  - intros l Hl. apply in_or_app. left.
    destruct (country_shown v); [exact Hl|]. apply in_or_app. now left.
  - intros _. exists ko, home, away, name. repeat split.
    apply in_or_app. right. now left.
Qed.

Lemma today_fixtures_loop_lists (today_d : date) (country : string)
    (league : json) (fxs : list json) :
  forall (v v' : today_vars) (s s' : state),
    for_each fxs (today_fixture_step E today_d country league) v s = (Ok v', s') ->
    (forall l, In l (lines v) -> In l (lines v'))
    /\ forall fx, In fx fxs -> on_day E today_d fx = true ->
         exists ko home away name,
           fixture_kickoff E fx = Ok ko
           /\ team_name fx "home" = Ok home
           /\ team_name fx "away" = Ok away
           /\ In (LineFixture ko home away name) (lines v').
Proof.
  induction fxs as [|fx fxs IH]; intros v v' s s'; cbn [for_each].
  - intros [= <- _]. split; [auto|intros fx []].
  - unfold bind.
    destruct (today_fixture_step E today_d country league fx v s)
      as [[v1|e] s1] eqn:Hstep; [|discriminate].
    intros Hrest. destruct (today_fixture_step_lists _ _ _ _ _ _ _ _ Hstep)
      as [Hsub1 Hfx].
    destruct (IH _ _ _ _ Hrest) as [Hsub2 Hall]. split; [auto|].
    intros fx' [<-|Hin] Hday; [|now apply Hall].
    destruct (Hfx Hday) as (ko & home & away & name & H1 & H2 & H3 & H4).
    exists ko, home, away, name. auto.
Qed.

Lemma today_league_step_lists (n : nat) (today_d : date) (country : string)
    (item : json) (v : today_vars) :
  hoare (listed_from E n v) (today_league_step E today_d country item v)
        (listed_from E n).
Proof.
  intros s Hv. unfold today_league_step, bind at 1, lift at 1.
  destruct (dict_get item "league" (JObj [])) as [league|e]; [|exact I].
  unfold bind at 1, lift at 1.
  destruct (dict_get item "seasons" JNull) as [seasons0|e]; [|exact I].
  destruct (_ || _); [exact Hv|].
  unfold bind at 1.
  pose proof (pick_season_same_calls E (py_or seasons0 (JList [])) s) as Hpick.
  destruct (pick_season E _ s) as [[season|e] s1]; cbn [snd] in Hpick;
    [|exact I].
  unfold bind at 1, lift at 1.
  destruct (dict_get league "id" JNull) as [league_id|e]; [|exact I].
  unfold bind at 1, try_, get_today_fixtures_for_league, bind at 1,
    http_fixtures, lift.
  set (a := api_fixtures E (ticks s1) league_id season today_d).
  set (c := CallFixtures league_id season today_d a).
  assert (Hcalls : api_calls (add_call c (tick s1)) = api_calls s ++ [c])
    by (cbn; now rewrite Hpick).
  assert (Hfail : (forall data resp, a = Some data ->
                     dict_get data "response" (JList []) = Ok resp -> False) ->
                  listed_from E n v (add_call c (tick s1))).
  { intros Hno. apply (listed_from_asked n v v s _ c Hcalls); auto.
    subst c. destruct a as [data|] eqn:Ha; cbn; [|exact I].
    intros resp fxs fx Hresp. destruct (Hno data resp eq_refl Hresp). }
  destruct a as [data|] eqn:Ha.
  - destruct (dict_get data "response" (JList [])) as [fixtures|e] eqn:Hresp.
    + unfold bind at 1.
      destruct (py_iter fixtures) as [fxs|e] eqn:Hfxs; [|exact I].
      destruct (for_each fxs _ v _) as [[v'|e] s2] eqn:Hloop; [|exact I].
      pose proof (today_fixtures_loop_state E today_d country league fxs v
                    (add_call c (tick s1))) as Hs2.
      rewrite Hloop in Hs2. cbn [snd] in Hs2. subst s2.
      destruct (today_fixtures_loop_lists _ _ _ _ _ _ _ _ Hloop) as [Hsub Hall].
      apply (listed_from_asked n v v' s _ c Hcalls Hsub); [|exact Hv].
      subst c. cbn. intros resp fxs' fx Hresp' Hfxs' Hin Hday.
      rewrite Hresp in Hresp'. injection Hresp' as <-.
      rewrite Hfxs in Hfxs'. injection Hfxs' as <-. now apply Hall.
    + apply Hfail. intros data' resp [= <-]. congruence.
  - apply Hfail. discriminate.
Qed.

Lemma today_countries_list (n : nat) (today_d : date)
    (cache : list (string * list json)) (v : today_vars) :
  hoare (listed_from E n v) (for_each cache (today_country_step E today_d) v)
        (listed_from E n).
Proof.
  apply (hoare_for_each (listed_from E n)). intros entry v' _.
  unfold today_country_step. intros s Hv.
  apply (hoare_for_each (listed_from E n) (snd entry)
           (today_league_step E today_d (fst entry))
           (fun item v'' _ => today_league_step_lists n today_d (fst entry)
                                item v'')).
  now apply (listed_from_same n v' _ s s).
Qed.

Lemma no_fixtures_calls_listed (ls : list digest_line) (calls : list api_call) :
  fixtures_requests calls = [] -> Forall (call_listed E ls) calls.
Proof.
  induction calls as [|c calls IH]; [constructor|].
  destruct c; cbn; [|discriminate]. intros H. constructor; [exact I|auto].
Qed.

(** X17: a reply of /today leaves no fixture out.  When /today gets to
    its reply, every fixture that the provider served during the command,
    under ["response"], and that kicks off on the requested day has both
    team names and a line of the reply with its kick-off and its teams.
    So a single such fixture without a team name keeps /today from
    replying at all. *)
Theorem today_lists_every_fixture (s : state) (r : reply) :
  fst (today_digest E s) = Ok r ->
  Forall (call_listed E (reply_lines r)) (new_calls s (snd (today_digest E s))).
Proof.
  rewrite today_digest_eq. cbn zeta.
  set (se := snd (ensure_leagues_cache E s)).
  set (today_d := date_of (clock E (ticks se))).
  set (v0 := {| lines := [LineTitle]; shown := 0; country_shown := false |}).
  set (n := length (api_calls s)).
  destruct (ensure_loop_spec E COUNTRIES COUNTRIES_NoDup s)
    as (s0 & calls0 & _ & _ & Hrun & Hcalls0 & _ & Hfx0 & _).
  assert (Hse : api_calls se = api_calls s ++ calls0).
  { subst se. unfold ensure_leagues_cache. now rewrite Hrun. }
  assert (Hstart : listed_from E n v0 (tick se)).
  { unfold listed_from. cbn [api_calls tick]. rewrite Hse, length_app.
    split; [subst n; lia|]. subst n. rewrite drop_app_length.
    now apply no_fixtures_calls_listed. }
  pose proof (today_countries_list n today_d (LEAGUES_CACHE se) v0 (tick se)
                Hstart) as Hlists.
  pose proof (hoare_for_each
                (fun v' _ => exists c, listing today_d c v') (LEAGUES_CACHE se)
                (today_country_step E today_d)
                (fun entry v' _ => today_country_step_listing E today_d entry v')
                v0 (tick se)) as Hshape.
  destruct (for_each (LEAGUES_CACHE se) _ v0 (tick se)) as [[v|e] s1];
    cbn [fst snd]; [|discriminate].
  intros [= <-]. destruct Hlists as [_ Hlists]. fold n. unfold new_calls.
  fold n. eapply Forall_impl; [exact Hlists|]. intros c.
  apply call_listed_mono. intros ko home away name Hin.
  destruct (shown v =? 0) eqn:Hshown; [|exact Hin]. exfalso.
  destruct Hshape as [c' (blocks & [Hlines Hblocks] & Hcount & _)].
  { exists EmptyString, []. cbn. repeat split; [constructor|discriminate]. }
  apply Z.eqb_eq in Hshown.
  assert (blocks = []) as ->.
  { destruct blocks as [|[c0 fs] blocks]; [reflexivity|].
    apply Forall_cons in Hblocks as [[Hne _] _]. cbn in Hne, Hcount.
    destruct fs; [contradiction|]. cbn in Hcount. lia. }
  rewrite Hlines in Hin. cbn in Hin. destruct Hin as [Hin|[]]. discriminate.
Qed.

(** *** Where /today and the pull part ways *)

Lemma read_fixture_no_team (fx : json) (side : string) (e : exn) (ko : datetime) :
  fixture_kickoff E fx = Ok ko ->
  side = "home"%string \/ side = "away"%string ->
  team_name fx side = Raise e ->
  exists e', read_fixture E fx = Raise e'.
Proof.
  unfold fixture_kickoff, team_name, read_fixture.
  destruct (getitem fx "fixture") as [fixture|]; cbn [obind]; [|discriminate].
  destruct (getitem fixture "date") as [iso|]; cbn [obind]; [|discriminate].
  intros ->. cbn [obind].
  destruct (getitem fx "teams") as [teams|e0]; cbn [obind]; [|eauto].
  intros [-> | ->].
  - destruct (getitem teams "home") as [t|e0]; cbn [obind]; [|eauto].
    intros ->. cbn [obind]. eauto.
  - destruct (getitem teams "home") as [t|e0]; cbn [obind]; [|eauto].
    destruct (getitem t "name") as [h|e0]; cbn [obind]; [|eauto].
    destruct (getitem teams "away") as [t'|e0]; cbn [obind]; [|eauto].
    intros ->. cbn [obind]. eauto.
Qed.

(** X18: the same record, two treatments.  A fixture of the day that
    lacks a team name is passed over by the pull, which goes on with the
    count and the state it had; the corresponding step of /today raises,
    and with it the whole command, since nothing catches the exception
    there. *)
Theorem today_raises_where_pull_skips (today_d : date) (country side : string)
    (league fx : json) (e : exn) (v : today_vars) (total : Z) (s : state) :
  on_day E today_d fx = true ->
  side = "home"%string \/ side = "away"%string ->
  team_name fx side = Raise e ->
  fixture_step E today_d fx total s = (Ok total, s)
  /\ exists e', today_fixture_step E today_d country league fx v s = (Raise e', s).
Proof.
  unfold on_day, fixture_step, today_fixture_step.
  destruct (fixture_kickoff E fx) as [ko|] eqn:Hko; [|discriminate].
  intros Hday Hside Hteam. rewrite Hday. cbn [negb]. split.
  - destruct (read_fixture_no_team fx side e ko Hko Hside Hteam) as [e' Hread].
    unfold bind, schedule_reminders_for_fixture. rewrite Hread.
    unfold ret. now rewrite Z.add_0_r.
  - unfold bind, lift. destruct Hside as [-> | ->].
    + rewrite Hteam. eauto.
    + destruct (team_name fx "home"); [|eauto]. rewrite Hteam. eauto.
Qed.

(** X19: a kick-off that cannot be read.  A fixture whose ["date"] is
    there but is no string, or is a string that [fromisoformat] rejects,
    is passed over everywhere: the planner schedules nothing for it, the
    loop of the pull goes on with its count, the loop of /today with its
    lines, and the state is as it was. *)
Theorem unreadable_kickoff_passed_over (fx fixture iso : json) (e : exn) :
  getitem fx "fixture" = Ok fixture ->
  getitem fixture "date" = Ok iso ->
  parse_kickoff E iso = Raise e ->
  forall (today_d : date) (country : string) (league : json) (v : today_vars)
         (total : Z) (s : state),
    schedule_reminders_for_fixture E fx s = (Ok 0, s)
    /\ fixture_step E today_d fx total s = (Ok total, s)
    /\ today_fixture_step E today_d country league fx v s = (Ok v, s).
Proof.
  intros Hfixture Hdate Hparse today_d country league v total s.
  unfold schedule_reminders_for_fixture, fixture_step, today_fixture_step,
    read_fixture, fixture_kickoff.
  rewrite Hfixture. cbn [obind]. rewrite Hdate. cbn [obind]. rewrite Hparse.
  cbn [obind]. repeat split.
Qed.

Lemma today_league_step_fetch (today_d : date) (country : string)
    (item league league_id entry year : json) (earlier : list json)
    (v : today_vars) (s : state) :
  dict_get item "league" (JObj []) = Ok league ->
  truthy league = true ->
  dict_get item "seasons" JNull = Ok (JList (earlier ++ [entry])) ->
  dict_get entry "year" JNull = Ok year ->
  dict_get league "id" JNull = Ok league_id ->
  let season := if truthy year then year
                else JNum (year_of (clock E (ticks s))) in
  let s1 := if truthy year then s else tick s in
  api_calls (snd (today_league_step E today_d country item v s))
  = api_calls s ++ [CallFixtures league_id season today_d
                      (api_fixtures E (ticks s1) league_id season today_d)].
Proof.
  intros Hleague Htl Hseasons Hyear Hid season s1.
  assert (Hts : truthy (py_or (JList (earlier ++ [entry])) (JList [])) = true)
    by (unfold py_or; now destruct earlier).
  assert (Hor : py_or (JList (earlier ++ [entry])) (JList [])
                = JList (earlier ++ [entry]))
    by (unfold py_or; now destruct earlier).
  assert (Hpick : pick_season E (JList (earlier ++ [entry])) s = (Ok season, s1)).
  { unfold pick_season, bind, lift. rewrite subscript_last_app, Hyear.
    subst season s1. now destruct (truthy year). }
  assert (Hs1 : api_calls s1 = api_calls s)
    by (subst s1; now destruct (truthy year)).
  unfold today_league_step. unfold bind at 1, lift at 1. rewrite Hleague.
  unfold bind at 1, lift at 1. rewrite Hseasons, Htl, Hts, Hor. cbn [negb orb].
  unfold bind at 1. rewrite Hpick.
  unfold bind at 1, lift at 1. rewrite Hid.
  unfold bind at 1, try_, get_today_fixtures_for_league, bind at 1,
    http_fixtures, lift.
  destruct (api_fixtures E (ticks s1) league_id season today_d) as [data|].
  - destruct (dict_get data "response" (JList [])) as [fixtures|];
      [|cbn; now rewrite Hs1].
    unfold bind at 1. destruct (py_iter fixtures) as [fxs|];
      [|cbn; now rewrite Hs1].
    rewrite today_fixtures_loop_state. cbn. now rewrite Hs1.
  - cbn. now rewrite Hs1.
Qed.

(** X20: a league without an id.  For a league record whose league has
    no id, or a false one, the pull makes no request; /today makes one
    all the same, with that id. *)
Theorem today_asks_without_league_id (today_d : date) (country : string)
    (item league league_id entry year : json) (earlier : list json)
    (v : today_vars) (total : Z) (s : state) :
  dict_get item "league" (JObj []) = Ok league ->
  truthy league = true ->
  dict_get item "seasons" JNull = Ok (JList (earlier ++ [entry])) ->
  dict_get entry "year" JNull = Ok year ->
  dict_get league "id" JNull = Ok league_id ->
  truthy league_id = false ->
  let season := if truthy year then year
                else JNum (year_of (clock E (ticks s))) in
  fixtures_requests
    (new_calls s (snd (league_step E today_d country item total s))) = []
  /\ fixtures_requests
       (new_calls s (snd (today_league_step E today_d country item v s)))
     = [(league_id, season, today_d)].
Proof.
  intros Hleague Htl Hseasons Hyear Hid Hfalse season. split.
  - assert (Hts : truthy (py_or (JList (earlier ++ [entry])) (JList [])) = true)
      by (unfold py_or; now destruct earlier).
    pose proof (pick_season_same_calls E
                  (py_or (JList (earlier ++ [entry])) (JList [])) s) as Hpick.
    unfold league_step. unfold bind at 1, lift at 1. rewrite Hleague.
    unfold bind at 1, lift at 1. rewrite Hseasons, Htl, Hts. cbn [negb orb].
    unfold bind at 1.
    destruct (pick_season E _ s) as [[y|e] s1]; cbn [snd] in Hpick.
    + unfold bind at 1, lift at 1. rewrite Hid, Hfalse. cbn [negb snd ret].
      rewrite (new_calls_app s s1 []); [reflexivity|].
      now rewrite app_nil_r.
    + cbn [snd]. rewrite (new_calls_app s s1 []); [reflexivity|].
      now rewrite app_nil_r.
  - rewrite (new_calls_app s _ _
               (today_league_step_fetch today_d country item league league_id
                  entry year earlier v s Hleague Htl Hseasons Hyear Hid)).
    reflexivity.
Qed.

End TodayLists.

(** ** The kick-off time as it is shown *)

Section KickoffText.

Lemma hour_of_range (dt : datetime) : 0 <= hour_of dt < 24.
Proof.
  unfold hour_of, MICROS_PER_DAY, MICROS_PER_HOUR.
  Z.div_mod_to_equations. lia.
Qed.

Lemma minute_of_range (dt : datetime) : 0 <= minute_of dt < 60.
Proof.
  unfold minute_of, MICROS_PER_HOUR, MICROS_PER_MINUTE.
  Z.div_mod_to_equations. lia.
Qed.

Lemma hour12_range (h : Z) : 1 <= hour12 h <= 12.
Proof.
  unfold hour12. destruct (Z.eqb_spec (h mod 12) 0); [lia|].
  Z.div_mod_to_equations. lia.
Qed.

(** The hour of the day, from the hour of the 12-hour clock and the
    half of the day. *)
Lemma hour12_inj (h h' : Z) :
  0 <= h < 24 -> 0 <= h' < 24 ->
  hour12 h = hour12 h' -> (h <? 12) = (h' <? 12) -> h = h'.
Proof.
  unfold hour12. intros Hh Hh' Heq Hhalf.
  destruct (Z.ltb_spec h 12), (Z.ltb_spec h' 12); try discriminate;
    destruct (Z.eqb_spec (h mod 12) 0), (Z.eqb_spec (h' mod 12) 0);
    Z.div_mod_to_equations; lia.
Qed.

(** [lstrip('0')] takes the padding of the hour and nothing more. *)
Lemma lstrip_hour (k : Z) (rest : string) :
  1 <= k <= 12 ->
  lstrip_zeros (String.append (two_digits k) rest) = String.append (str_int k) rest.
Proof.
  intros Hk.
  assert (H : k = 1 \/ k = 2 \/ k = 3 \/ k = 4 \/ k = 5 \/ k = 6 \/ k = 7
              \/ k = 8 \/ k = 9 \/ k = 10 \/ k = 11 \/ k = 12) by lia.
  repeat (destruct H as [->|H]; [reflexivity|]). subst k. reflexivity.
Qed.

Lemma small_number (m : Z) :
  0 <= m < 60 -> exists n, m = Z.of_nat n /\ (n < 60)%nat.
Proof. intros Hm. exists (Z.to_nat m). lia. Qed.

Lemma two_digits_space_free (m : Z) : char_free " " (two_digits m) = true.
Proof.
  unfold two_digits. destruct (m <? 10); cbn; auto using space_free_str_int.
Qed.

(** Above 9 a number does not start with a zero. *)
Lemma no_leading_zero (m : Z) (rest : string) :
  10 <= m < 60 -> str_int m <> String "0" rest.
Proof.
  intros Hm Heq. apply (f_equal (String.get 0)) in Heq. cbn in Heq.
  destruct (small_number m ltac:(lia)) as (n & -> & Hn).
  do 60 (destruct n as [|n]; [try lia; vm_compute in Heq; discriminate Heq|]).
  lia.
Qed.

Lemma two_digits_inj (m m' : Z) :
  0 <= m < 60 -> 0 <= m' < 60 -> two_digits m = two_digits m' -> m = m'.
Proof.
  unfold two_digits. intros Hm Hm'.
  destruct (Z.ltb_spec m 10), (Z.ltb_spec m' 10); intros Heq.
  - injection Heq as Heq. now apply str_int_inj.
  - symmetry in Heq. now apply no_leading_zero in Heq; [|lia].
  - now apply no_leading_zero in Heq; [|lia].
  - now apply str_int_inj.
Qed.

Lemma kickoff_text_eq (ko : datetime) :
  kickoff_text ko
  = String.append (str_int (hour12 (hour_of ko)))
      (String ":"
         (String.append (two_digits (minute_of ko))
            (String " " (if hour_of ko <? 12 then "AM" else "PM")))).
Proof.
  unfold kickoff_text, strftime_I_M_p.
  now rewrite lstrip_hour by apply hour12_range.
Qed.

(** X21: the time a reminder and the digest show.  It is the hour of
    the 12-hour clock, 1 to 12, without its padding zero (the stripping
    of zeros never reaches past it), the minute on two digits, and AM or
    PM; and it tells hour and minute: two kick-offs read the same exactly
    when they are at the same time of day. *)
Theorem kickoff_text_tells_the_time (a b : datetime) :
  kickoff_text a
  = String.append (str_int (hour12 (hour_of a)))
      (String ":"
         (String.append (two_digits (minute_of a))
            (String " " (if hour_of a <? 12 then "AM" else "PM"))))
  /\ (kickoff_text a = kickoff_text b
      <-> hour_of a = hour_of b /\ minute_of a = minute_of b).
Proof.
  split; [apply kickoff_text_eq|]. split.
  - rewrite !kickoff_text_eq. intros H.
    apply split_at_char in H as [Hh H]; auto using colon_free_str_int.
    apply split_at_char in H as [Hm Hp]; auto using two_digits_space_free.
    apply str_int_inj in Hh.
    apply two_digits_inj in Hm; auto using minute_of_range.
    split; [|exact Hm].
    apply hour12_inj; auto using hour_of_range.
    now destruct (hour_of a <? 12), (hour_of b <? 12).
  - unfold kickoff_text. now intros [-> ->].
Qed.

End KickoffText.

(** ** The application *)

Section Application.

Variable E : Env.

Lemma set_jobs_same (s : state) : set_jobs (job_queue s) s = s.
Proof. now destruct s. Qed.

Lemma filter_all {A} (f : A -> bool) (l : list A) :
  Forall (fun x => f x = true) l -> List.filter f l = l.
Proof.
  induction 1 as [|x l Hx _ IH]; [reflexivity|]. cbn. now rewrite Hx, IH.
Qed.

(** A reminder job is not called "autoday-pull". *)
Lemma job_ok_not_autoday (j : job) :
  job_ok E j -> negb (String.eqb (job_name j) "autoday-pull") = true.
Proof. intros (_ & _ & _ & ->). reflexivity. Qed.

Lemma handle_jobs_ok (ev : event) (s : state) :
  Forall (job_ok E) (job_queue s) ->
  Forall (job_ok E) (job_queue (snd (handle E ev s))).
Proof.
  apply (moves_handle E
           (fun s s' => Forall (job_ok E) (job_queue s) ->
                        Forall (job_ok E) (job_queue s')));
    cbn; auto.
  intros f m s0 Hm _ Hall. apply Forall_app. split; [exact Hall|].
  constructor; [now apply job_ok_reminder|constructor].
Qed.

Lemma handle_ledger_ok (ev : event) (s : state) :
  ledger_ok E s -> ledger_ok E (snd (handle E ev s)).
Proof.
  apply (moves_handle E (keeps_ledger E)); unfold keeps_ledger; auto.
  intros f m s0 _. apply ledger_ok_reserve.
Qed.

Lemma handle_worker_ok (ev : event) (s : state) :
  worker_ok E s -> worker_ok E (snd (handle E ev s)).
Proof.
  intros (Hl & Hj & Hc). split; [now apply handle_ledger_ok|].
  split; [now apply handle_jobs_ok|].
  destruct (handle_fills E ev s) as (_ & Hok & _). auto.
Qed.

Lemma today_worker_ok (s : state) :
  worker_ok E s -> worker_ok E (snd (today_digest E s)).
Proof.
  intros (Hl & Hj & Hc). destruct (today_looks E s) as (K & Q & _).
  destruct (today_fills E s) as (_ & Hok & _).
  split; [|split; [now rewrite Q|auto]].
  unfold ledger_ok in *. now rewrite K, Q.
Qed.

Lemma autoday_off_worker (chat_id : Z) (a : application) :
  Forall (job_ok E) (job_queue (worker a)) ->
  worker (snd (Bot.autoday_off chat_id a)) = worker a.
Proof.
  intros Hj. cbn. rewrite filter_all; [apply set_jobs_same|].
  eapply Forall_impl; [exact Hj|]. apply job_ok_not_autoday.
Qed.

(** What a handler does to the worker's state is the work of an event of
    the worker, of /today, or nothing. *)
Lemma handler_worker_ok (name : string) (h : handler) (chat_id : Z) (a : application) :
  Bot.dispatch E name = Some h ->
  worker_ok E (worker a) -> worker_ok E (worker (snd (h chat_id a))).
Proof.
  unfold Bot.dispatch, Bot.handlers. cbn [List.find fst snd option_map].
  intros Hd Hok.
  repeat match type of Hd with
         | context [String.eqb name ?c] => destruct (String.eqb name c)
         end; cbn in Hd; try discriminate; injection Hd as <-.
  - exact Hok.
  - apply (handle_worker_ok (LiveOn chat_id) (worker a) Hok).
  - apply (handle_worker_ok (LiveOff chat_id) (worker a) Hok).
  - now apply today_worker_ok.
  - cbn [Bot.today_fixtures Bot.on_worker snd worker].
    pose proof (handle_worker_ok ManualPull (worker a) Hok) as H.
    cbn [handle] in H. unfold bind.
    now destruct (today_fixtures E (worker a)) as [[[]|e] s1].
  - exact Hok.
  - rewrite autoday_off_worker; [exact Hok|]. apply Hok.
Qed.

Lemma process_worker_ok (u : Bot.update) (a : application) :
  worker_ok E (worker a) -> worker_ok E (worker (Bot.process E u a)).
Proof.
  intros Hok. destruct u as [name chat_id|i|n]; cbn [Bot.process].
  - destruct (Bot.dispatch E name) as [h|] eqn:Hd; [|exact Hok].
    now apply (handler_worker_ok name).
  - destruct (pull_jobs a !! i); [|exact Hok].
    apply (handle_worker_ok BootPull (worker a) Hok).
  - apply (handle_worker_ok (Fire n) (worker a) Hok).
Qed.

Lemma run_worker_ok (us : list Bot.update) (a : application) :
  worker_ok E (worker a) -> worker_ok E (worker (Bot.run E us a)).
Proof.
  revert a. induction us as [|u us IH]; intros a Hok; [exact Hok|].
  cbn. apply IH. now apply process_worker_ok.
Qed.

Lemma worker_ok_initial : worker_ok E initial_state.
Proof.
  split; [apply ledger_ok_initial|]. split; [constructor|].
  split; constructor.
Qed.

(** X22: what the worker keeps, over the whole application.  After any
    commands, known or not, pull jobs and reminder firings, from the
    application as [build_app] makes it: the jobs of the queue have
    pairwise different dedupe keys, all in the ledger, and the ledger has
    no key without a job; every job is well formed; and the cache is in
    order. *)
Theorem application_keeps_worker_in_order (us : list Bot.update) :
  let s := worker (Bot.run E us Bot.build_app) in
  ledger_ok E s
  /\ Forall (job_ok E) (job_queue s)
  /\ cache_ok (LEAGUES_CACHE s).
Proof. apply run_worker_ok, worker_ok_initial. Qed.

(** *** The pull jobs *)

Lemma handler_pull_jobs (name : string) (h : handler) (chat_id : Z) (a : application) :
  Bot.dispatch E name = Some h ->
  pull_jobs (snd (h chat_id a))
  = if String.eqb name "autoday_on"
    then pull_jobs a ++ [{| pull_name := "autoday-pull"; pull_daily := true |}]
    else if String.eqb name "autoday_off"
    then List.filter (fun j => negb (String.eqb (pull_name j) "autoday-pull"))
                     (pull_jobs a)
    else pull_jobs a.
Proof.
  unfold Bot.dispatch, Bot.handlers. cbn [List.find fst snd option_map].
  destruct (String.eqb_spec name "start") as [->|_];
    [intros [= <-]; reflexivity|].
  destruct (String.eqb_spec name "liveon") as [->|_];
    [intros [= <-]; reflexivity|].
  destruct (String.eqb_spec name "liveoff") as [->|_];
    [intros [= <-]; reflexivity|].
  destruct (String.eqb_spec name "today") as [->|_];
    [intros [= <-]; reflexivity|].
  destruct (String.eqb_spec name "today_fixtures") as [->|_];
    [intros [= <-]; reflexivity|].
  destruct (String.eqb_spec name "autoday_on") as [->|_];
    [intros [= <-]; reflexivity|].
  destruct (String.eqb_spec name "autoday_off") as [->|_];
    [intros [= <-]; reflexivity|].
  discriminate.
Qed.

Lemma no_handler_pull_jobs (name : string) :
  Bot.dispatch E name = None ->
  String.eqb name "autoday_on" = false /\ String.eqb name "autoday_off" = false.
Proof.
  unfold Bot.dispatch, Bot.handlers. cbn [List.find fst snd option_map].
  repeat match goal with
         | |- context [String.eqb name ?c] =>
             destruct (String.eqb name c); [discriminate|]
         end.
  now split.
Qed.

Lemma filter_by_name (l : list pull_job) :
  Forall pull_job_ok l ->
  List.filter (fun j => negb (String.eqb (pull_name j) "autoday-pull")) l
  = List.filter (fun j => negb (pull_daily j)) l.
Proof.
  intros Hall. apply filter_ext_in. intros j Hj.
  rewrite Forall_forall in Hall. apply list_elem_of_In in Hj.
  now destruct (Hall j Hj) as [-> | ->].
Qed.

Lemma process_pull_jobs_ok (u : Bot.update) (a : application) :
  Forall pull_job_ok (pull_jobs a) ->
  Forall pull_job_ok (pull_jobs (Bot.process E u a)).
Proof.
  intros Hall. destruct u as [name chat_id|i|n]; cbn [Bot.process].
  - destruct (Bot.dispatch E name) as [h|] eqn:Hd; [|exact Hall].
    rewrite (handler_pull_jobs name h chat_id a Hd).
    destruct (String.eqb name "autoday_on").
    + apply Forall_app. split; [exact Hall|]. constructor; [now right|constructor].
    + destruct (String.eqb name "autoday_off"); [|exact Hall].
      apply Forall_forall. intros j Hj. apply list_elem_of_In, filter_In in Hj.
      rewrite Forall_forall in Hall. apply Hall, list_elem_of_In, Hj.
  - destruct (pull_jobs a !! i) as [j|]; [|exact Hall]. cbn [pull_jobs].
    destruct (pull_daily j); [exact Hall|]. now apply Forall_delete.
  - exact Hall.
Qed.

Lemma run_pull_jobs_ok (us : list Bot.update) (a : application) :
  Forall pull_job_ok (pull_jobs a) ->
  Forall pull_job_ok (pull_jobs (Bot.run E us a)).
Proof.
  revert a. induction us as [|u us IH]; intros a Hall; [exact Hall|].
  cbn. apply IH. now apply process_pull_jobs_ok.
Qed.

Lemma build_app_pull_jobs_ok : Forall pull_job_ok (pull_jobs Bot.build_app).
Proof. constructor; [now left|constructor]. Qed.

(** X23: /autoday_off stops the daily pulls and nothing else.  At any
    time of the application, after /autoday_off no job named
    "autoday-pull" is left in the queue; the pull jobs that are left are
    those that were not daily, the boot pull if it has not run yet; and
    the state of the worker is as it was, no reminder job having been
    removed. *)
Theorem autoday_off_stops_daily_pulls_only (us : list Bot.update) (chat_id : Z) :
  let a := Bot.run E us Bot.build_app in
  let a' := snd (Bot.autoday_off chat_id a) in
  worker a' = worker a
  /\ pull_jobs a' = List.filter (fun j => negb (pull_daily j)) (pull_jobs a)
  /\ Forall (fun j => pull_name j <> "autoday-pull"%string) (pull_jobs a')
  /\ Forall (fun j => job_name j <> "autoday-pull"%string) (job_queue (worker a')).
Proof.
  intros a a'. subst a'.
  pose proof (run_worker_ok us Bot.build_app worker_ok_initial) as (_ & Hj & _).
  pose proof (run_pull_jobs_ok us Bot.build_app build_app_pull_jobs_ok) as Hp.
  fold a in Hj, Hp.
  split; [now apply autoday_off_worker|].
  split; [cbn; now apply filter_by_name|].
  split.
  - cbn. apply Forall_forall. intros j Hin.
    apply list_elem_of_In, filter_In in Hin as [_ Hname].
    apply negb_true_iff, String.eqb_neq in Hname. exact Hname.
  - rewrite autoday_off_worker by exact Hj.
    eapply Forall_impl; [exact Hj|]. intros j Hok.
    apply job_ok_not_autoday, negb_true_iff, String.eqb_neq in Hok. exact Hok.
Qed.

Lemma count_daily_delete (i : nat) (j : pull_job) (l : list pull_job) :
  l !! i = Some j -> pull_daily j = false ->
  length (List.filter pull_daily (delete i l)) = length (List.filter pull_daily l).
Proof.
  revert i. induction l as [|x l IH]; intros [|i] Hi Hj; try discriminate.
  - cbn in Hi. injection Hi as ->. cbn. now rewrite Hj.
  - change (delete (S i) (x :: l)) with (x :: delete i l). cbn [List.filter].
    destruct (pull_daily x); cbn [length]; rewrite (IH i Hi Hj); reflexivity.
Qed.

Lemma run_daily_count (us : list Bot.update) :
  forall a, Forall pull_job_ok (pull_jobs a) ->
    length (List.filter pull_daily (pull_jobs (Bot.run E us a)))
    = daily_after us (length (List.filter pull_daily (pull_jobs a))).
Proof.
  induction us as [|u us IH]; intros a Hall; [reflexivity|].
  cbn [Bot.run fold_left]. fold (Bot.run E us (Bot.process E u a)).
  rewrite IH by now apply process_pull_jobs_ok.
  destruct u as [name chat_id|i|n]; cbn [daily_after Bot.process].
  - f_equal. destruct (Bot.dispatch E name) as [h|] eqn:Hd.
    + rewrite (handler_pull_jobs name h chat_id a Hd).
      destruct (String.eqb name "autoday_on").
      * rewrite List.filter_app, length_app. cbn. lia.
      * destruct (String.eqb name "autoday_off"); [|reflexivity].
        rewrite filter_by_name by exact Hall.
        induction (pull_jobs a) as [|j l IHl]; [reflexivity|]. cbn.
        apply Forall_cons in Hall as [_ Hall].
        destruct (pull_daily j) eqn:Hd'; cbn; [now apply IHl|].
        rewrite Hd'. now apply IHl.
    + now destruct (no_handler_pull_jobs name Hd) as [-> ->].
  - f_equal. destruct (pull_jobs a !! i) as [j|] eqn:Hi; [|reflexivity].
    cbn [pull_jobs]. destruct (pull_daily j) eqn:Hj; [reflexivity|].
    now apply (count_daily_delete i j).
  - reflexivity.
Qed.

(** X24: /autoday_on adds up.  Each /autoday_on puts one more daily
    pull in the queue, whether or not there is one already; only
    /autoday_off takes them out, all at once.  So the number of daily
    pulls is the number of /autoday_on since the last /autoday_off. *)
Theorem autoday_on_adds_up (us : list Bot.update) :
  length (List.filter pull_daily (pull_jobs (Bot.run E us Bot.build_app)))
  = daily_after us 0.
Proof. apply (run_daily_count us Bot.build_app), build_app_pull_jobs_ok. Qed.

End Application.

(** ** The rest of the worker on the concrete day *)

Section MoreExamples.

Import Scenario Matchday.

(** With the record that lacks its teams among the fixtures of La Liga,
    the boot pull schedules its seven jobs and /today raises. *)
Example today_raises_on_the_day :
  fst (today_digest world initial_state) = Raise KeyError
  /\ length (job_queue (snd (pull_and_schedule world initial_state))) = 7%nat.
Proof. vm_compute. split; reflexivity. Qed.

(** 14:00 reads "2:00 PM", half past midnight "12:30 AM". *)
Example kickoff_texts :
  kickoff_text (wall 2025 10 26 14 0 0) = "2:00 PM"%string
  /\ kickoff_text (wall 2025 10 27 0 30 0) = "12:30 AM"%string
  /\ kickoff_text (wall 2025 10 26 9 5 0) = "9:05 AM"%string.
Proof. vm_compute. repeat split; reflexivity. Qed.

(** X1: the leagues of Spain as the provider sends them. *)
Lemma current_leagues_filtered_witness :
  fst (get_current_leagues_for_country world "Spain" initial_state)
  = Ok [league 140 "La Liga" [2024; 2025]]
  /\ exists data response xs,
       api_leagues world (ticks initial_state) "Spain" = Some data
       /\ dict_get data "response" (JList []) = Ok response
       /\ py_iter response = Ok xs
       /\ Forall (fun x => is_dict x = true) xs
       /\ [league 140 "La Liga" [2024; 2025]] = List.filter has_league xs
       /\ Forall (fun x => has_league x = true)
                 [league 140 "La Liga" [2024; 2025]].
Proof.
  split; [reflexivity|].
  destruct (current_leagues_filtered world "Spain" initial_state) as [_ H].
  exact (H [league 140 "La Liga" [2024; 2025]] eq_refl).
Defined.

(** X2: the request for the leagues of Italy fails. *)
Lemma current_leagues_failures_witness :
  fst (get_current_leagues_for_country world "Italy" initial_state)
  = Raise HTTPError.
Proof.
  destruct (current_leagues_failures world "Italy" initial_state) as [H _].
  exact (H eq_refl).
Defined.

(** X6: after the boot pull Spain is cached: a manual pull and two firings
    later, its leagues have not been asked for again. *)
Lemma cached_country_never_refetched_witness :
  In "Spain"%string (map fst (LEAGUES_CACHE after_boot))
  /\ ~ In "Spain"%string
         (leagues_requests
            (new_calls after_boot
               (run_events world [ManualPull; Fire 0; Fire 1] after_boot))).
Proof.
  assert (H : In "Spain"%string (map fst (LEAGUES_CACHE after_boot)))
    by (vm_compute; left; reflexivity).
  split; [exact H|].
  destruct (cached_country_never_refetched world [ManualPull; Fire 0; Fire 1]
              after_boot) as [_ Hnot].
  exact (Hnot "Spain"%string H).
Defined.

(** X10: chat 1 has left; a reminder fires, a pull runs, another
    reminder fires: nothing goes to chat 1, and chat 2 is still tried. *)
Lemma unsubscribed_chat_gets_nothing_witness :
  Forall (fun a => sent_chat a <> 1)
         (new_sent after_leaving
            (run_events world [Fire 0; ManualPull; Fire 1] after_leaving))
  /\ map sent_chat
         (new_sent after_leaving
            (run_events world [Fire 0; ManualPull; Fire 1] after_leaving))
     = [2; 2].
Proof.
  split; [|vm_compute; reflexivity].
  apply (unsubscribed_chat_gets_nothing world 1 [Fire 0; ManualPull; Fire 1]
           after_leaving).
  - apply (bool_decide_unpack _). vm_compute. exact I.
  - reflexivity.
Defined.

(** X12: the cycle of the day asks for La Liga, the Premier League and the
    Championship. *)
Lemma cycle_asks_every_league_witness :
  leagues_asked
    (new_calls initial_state (snd (pull_and_schedule world initial_state)))
  = [JNum 140; JNum 39; JNum 40]
  /\ (let s' := snd (pull_and_schedule world initial_state) in
      leagues_asked (new_calls initial_state s')
      = flat_map (fun entry => flat_map polled (snd entry)) (LEAGUES_CACHE s')).
Proof.
  split; [vm_compute; reflexivity|].
  apply (cycle_asks_every_league world initial_state).
  vm_compute. reflexivity.
Defined.

(** X13: the seasons of La Liga come as bare years. *)
Lemma ill_shaped_league_aborts_cycle_witness :
  (exists e, fst (pull_and_schedule bare_world initial_state) = Raise e)
  /\ new_sent initial_state (snd (pull_and_schedule bare_world initial_state)) = [].
Proof.
  apply (ill_shaped_league_aborts_cycle bare_world initial_state "Spain"
           [bare_years] [JNum 2024] bare_years
           (JObj [("id"%string, JNum 140); ("name"%string, JStr "La Liga")])
           (JNum 2025)).
  - vm_compute. left. reflexivity.
  - left. reflexivity.
  - reflexivity.
  - reflexivity.
  - reflexivity.
  - reflexivity.
Defined.

(** X14: every fixtures request is answered with a [null] response. *)
Lemma unlistable_response_aborts_cycle_witness :
  (exists e, fst (pull_and_schedule null_world initial_state) = Raise e)
  /\ new_sent initial_state (snd (pull_and_schedule null_world initial_state)) = [].
Proof.
  apply (unlistable_response_aborts_cycle null_world initial_state "Spain"
           [league 140 "La Liga" [2024; 2025]]
           [JObj [("year"%string, JNum 2024)]]
           (league 140 "La Liga" [2024; 2025])
           (JObj [("id"%string, JNum 140); ("name"%string, JStr "La Liga")])
           (JNum 140)
           (JObj [("year"%string, JNum 2025)])).
  - vm_compute. left. reflexivity.
  - left. reflexivity.
  - reflexivity.
  - reflexivity.
  - reflexivity.
  - reflexivity.
  - reflexivity.
  - reflexivity.
  - intros t season day. exists (JObj [("response"%string, JNull)]), JNull, TypeError.
    repeat split.
Defined.

(** X16: the reply of /today on the clean day. *)
Lemma today_reply_shape_witness :
  fst (today_digest clean_world initial_state) = Ok todays_reply
  /\ (let today_d :=
        date_of (clock clean_world
                   (ticks (snd (ensure_leagues_cache clean_world initial_state)))) in
      todays_reply = ReplyNoFixtures
      \/ exists blocks ls,
           todays_reply = ReplyLines ls /\ blocks <> []
           /\ digest_of today_d blocks ls).
Proof.
  assert (H : fst (today_digest clean_world initial_state) = Ok todays_reply)
    by (vm_compute; reflexivity).
  split; [exact H|].
  exact (today_reply_shape clean_world initial_state todays_reply H).
Defined.

(** X17: on the clean day every fixture served for the 26th is in the
    reply. *)
Lemma today_lists_every_fixture_witness :
  fst (today_digest clean_world initial_state) = Ok todays_reply
  /\ Forall (call_listed clean_world (reply_lines todays_reply))
            (new_calls initial_state (snd (today_digest clean_world initial_state))).
Proof.
  assert (H : fst (today_digest clean_world initial_state) = Ok todays_reply)
    by (vm_compute; reflexivity).
  split; [exact H|].
  exact (today_lists_every_fixture clean_world initial_state todays_reply H).
Defined.

(** X18: the record without teams, in the pull and in /today. *)
Lemma today_raises_where_pull_skips_witness :
  on_day world today no_teams = true
  /\ fixture_step world today no_teams 3 initial_state = (Ok 3, initial_state)
  /\ exists e',
       today_fixture_step world today "Spain" (JObj []) no_teams
         {| lines := [LineTitle]; shown := 0; country_shown := false |}
         initial_state
       = (Raise e', initial_state).
Proof.
  assert (H : on_day world today no_teams = true) by (vm_compute; reflexivity).
  split; [exact H|].
  apply (today_raises_where_pull_skips world today "Spain" "home" (JObj [])
           no_teams KeyError
           {| lines := [LineTitle]; shown := 0; country_shown := false |}
           3 initial_state H).
  - now left.
  - reflexivity.
Defined.

(** X19: a date given as a number. *)
Lemma unreadable_kickoff_passed_over_witness :
  schedule_reminders_for_fixture world numeric_date initial_state
  = (Ok 0, initial_state)
  /\ fixture_step world today numeric_date 3 initial_state = (Ok 3, initial_state)
  /\ today_fixture_step world today "Spain" (JObj []) numeric_date
       {| lines := [LineTitle]; shown := 0; country_shown := false |}
       initial_state
     = (Ok {| lines := [LineTitle]; shown := 0; country_shown := false |},
        initial_state).
Proof.
  apply (unreadable_kickoff_passed_over world numeric_date
           (JObj [("id"%string, JNum 12); ("date"%string, JNum 1761472800)])
           (JNum 1761472800) AttributeError);
    reflexivity.
Defined.

(** X20: a league without an id: no request in the pull, one in
    /today. *)
Lemma today_asks_without_league_id_witness :
  fixtures_requests
    (new_calls initial_state
       (snd (league_step world today "Spain" no_id 0 initial_state))) = []
  /\ fixtures_requests
       (new_calls initial_state
          (snd (today_league_step world today "Spain" no_id
                  {| lines := [LineTitle]; shown := 0; country_shown := false |}
                  initial_state)))
     = [(JNull, JNum 2025, today)].
Proof.
  apply (today_asks_without_league_id world today "Spain" no_id
           (JObj [("name"%string, JStr "La Liga")]) JNull
           (JObj [("year"%string, JNum 2025)]) (JNum 2025) []
           {| lines := [LineTitle]; shown := 0; country_shown := false |}
           0 initial_state);
    reflexivity.
Defined.

End MoreExamples.
